(** * A gateway in front of a pool of ComfyUI backends

    Shallow embedding of the scheduler core of the gateway:

    - [app/services/load_balancer.py]: the registry of backends, the health
      probe update and the loop of the health-check thread, the least-load
      selector and the task accounting;
    - [app/services/comfyui_tool.py]: the workflow rewrites (image, preload
      and video) and the WebSocket watch loop of one backend;
    - [app/services/tool_pool.py] and [app/routers/*.py]: the pool of tools
      and the request handlers that bracket a dispatch.

    Python dictionaries keep insertion order, and the code relies on it (the
    first registered backend, the first [LoadImage] node), so a dictionary is
    an association list that is updated in place.  Code that raises is
    written in a state-and-exception monad whose state survives a raise, as
    the mutations of a Python object do.  What the code does not decide (the
    replies of a backend, the frames on its socket and the clock when they
    come in, the files, the random source) is an argument of the embedding.

    The file has three parts: the embedding of the code, module by module;
    the vocabulary of the statements, with sample data; the lemmas and the
    theorems. *)

From Stdlib Require Import ZArith List String Ascii Bool Lia Permutation Sorted.
Import ListNotations.

Local Open Scope string_scope.
Local Open Scope list_scope.
Local Open Scope Z_scope.

(* ===================================================================== *)
(** * Python values *)
(* ===================================================================== *)

(** ** Dictionaries with string keys, in insertion order *)

Module PyDict.
Section Dict.
Context {V : Type}.

Definition t := list (string * V).

(** [d.get(k)] *)
Fixpoint get (d : t) (k : string) : option V :=
  match d with
  | [] => None
  | (k', v) :: d' => if String.eqb k' k then Some v else get d' k
  end.

(** [k in d] *)
Definition mem (d : t) (k : string) : bool :=
  match get d k with Some _ => true | None => false end.

(** [d[k] = v]: an existing key keeps its place, a new key goes last. *)
Fixpoint set (d : t) (k : string) (v : V) : t :=
  match d with
  | [] => [(k, v)]
  | (k', v') :: d' =>
      if String.eqb k' k then (k', v) :: d' else (k', v') :: set d' k v
  end.

(** [del d[k]] *)
Definition del (d : t) (k : string) : t :=
  filter (fun kv => negb (String.eqb (fst kv) k)) d.

(** [list(d.keys())], [list(d.values())] *)
Definition keys (d : t) : list string := map fst d.
Definition values (d : t) : list V := map snd d.

(** The keys of a dictionary are pairwise distinct. *)
Definition wf (d : t) : Prop := NoDup (keys d).
End Dict.
Arguments t : clear implicits.
End PyDict.

(** ** Decoded JSON *)

#[local] Set Warnings "-register-all".

Inductive json : Type :=
| JNull
| JBool (b : bool)
| JInt (z : Z)
| JFloat (mantissa exponent : Z)
| JStr (s : string)
| JList (l : list json)
| JDict (d : list (string * json)).

(** Python's truth value of a decoded JSON value ([if v:], [a or b]). *)
Definition truthy (v : json) : bool :=
  match v with
  | JNull => false
  | JBool b => b
  | JInt z => negb (z =? 0)
  | JFloat m _ => negb (m =? 0)
  | JStr s => negb (String.eqb s "")
  | JList l => match l with [] => false | _ => true end
  | JDict d => match d with [] => false | _ => true end
  end.

(** [v == s] for a string literal [s]: only an equal string is equal to it. *)
Definition is_str (v : option json) (s : string) : bool :=
  match v with
  | Some (JStr s') => String.eqb s' s
  | _ => false
  end.

(** ** Strings *)

Module PyStr.
(** [s.endswith(suffix)] *)
Definition endswith (s suffix : string) : bool :=
  let n := String.length s in
  let m := String.length suffix in
  (m <=? n)%nat && String.eqb (substring (n - m) m s) suffix.

(** [sub in s] *)
Fixpoint contains (sub s : string) : bool :=
  prefix sub s ||
  match s with
  | EmptyString => false
  | String _ s' => contains sub s'
  end.

(** A byte that continues a UTF-8 sequence ([10xxxxxx]). *)
Definition continuation (c : ascii) : bool :=
  let n := nat_of_ascii c in ((128 <=? n) && (n <=? 191))%nat.

(** [len(s)]: the characters of a string, which is held as its UTF-8
    bytes; every character has one byte that is not a continuation. *)
Fixpoint len (s : string) : nat :=
  match s with
  | EmptyString => 0
  | String c s' => ((if continuation c then 0 else 1) + len s')%nat
  end.
End PyStr.

(* ===================================================================== *)
(** * Exceptions and state *)
(* ===================================================================== *)

(** The exceptions.  [RuntimeError msg value] is [RuntimeError(msg)], or
    [RuntimeError(f"{msg}{value}")] when the message ends with a value. *)
Inductive exn : Type :=
| KeyError
| AttributeError
| TypeError
| ValueError
| IndexError
| JSONDecodeError
| OSError
| URLError
| WebSocketError
| RuntimeError (msg : string) (value : option json)
| HTTPException (status_code : Z) (detail : string).

(** How a call ends: it returns, it raises, or it never comes back (a
    receive on a socket on which nothing arrives any more). *)
Inductive result (A : Type) : Type :=
| Return (a : A)
| Raise (e : exn)
| Hang.
Arguments Return {A} a.
Arguments Raise {A} e.
Arguments Hang {A}.

(** A computation over a mutable state [S]: the state it leaves is kept
    also when it raises. *)
Definition M (S A : Type) : Type := S -> result A * S.

Definition ret {S A} (a : A) : M S A := fun s => (Return a, s).
Definition raise {S A} (e : exn) : M S A := fun s => (Raise e, s).

Definition bind {S A B} (m : M S A) (f : A -> M S B) : M S B :=
  fun s =>
    match m s with
    | (Return a, s') => f a s'
    | (Raise e, s') => (Raise e, s')
    | (Hang, s') => (Hang, s')
    end.

Definition modify {S} (f : S -> S) : M S unit := fun s => (Return tt, f s).

(** [try: body  except Exception: handler] *)
Definition try_except {S A} (body : M S A) (handler : exn -> M S A) : M S A :=
  fun s =>
    match body s with
    | (Return a, s') => (Return a, s')
    | (Raise e, s') => handler e s'
    | (Hang, s') => (Hang, s')
    end.

(** [try: body  finally: final]: [final] runs on every way out of [body]; an
    exception of [final] replaces the outcome of [body].  A [body] that
    never comes back has no way out. *)
Definition try_finally {S A} (body : M S A) (final : M S unit) : M S A :=
  fun s =>
    match body s with
    | (Hang, s') => (Hang, s')
    | (r, s') =>
        match final s' with
        | (Return _, s'') => (r, s'')
        | (Raise e, s'') => (Raise e, s'')
        | (Hang, s'') => (Hang, s'')
        end
    end.

(** A pure computation that may raise, run inside a stateful one. *)
Definition lift {S A} (r : result A) : M S A := fun s => (r, s).

Declare Scope py_scope.
Delimit Scope py_scope with py.
Notation "x <- c1 ;; c2" := (bind c1 (fun x => c2))
  (at level 61, c1 at next level, right associativity) : py_scope.
Notation "c1 ;; c2" := (bind c1 (fun _ => c2))
  (at level 61, right associativity) : py_scope.

(** The same for code without state. *)
Definition rbind {A B} (r : result A) (f : A -> result B) : result B :=
  match r with
  | Return a => f a
  | Raise e => Raise e
  | Hang => Hang
  end.

(** [v.get(k)] on a decoded value: only a dictionary has [get]. *)
Definition py_get (v : json) (k : string) : result (option json) :=
  match v with
  | JDict d => Return (PyDict.get d k)
  | _ => Raise AttributeError
  end.

(** [v.get(k, default)] *)
Definition py_get_default (v : json) (k : string) (default : json) : result json :=
  match v with
  | JDict d => Return (match PyDict.get d k with Some x => x | None => default end)
  | _ => Raise AttributeError
  end.

(** [len(v)]; of a string, the number of its characters. *)
Definition py_len (v : json) : result Z :=
  match v with
  | JList l => Return (Z.of_nat (List.length l))
  | JDict d => Return (Z.of_nat (List.length d))
  | JStr s => Return (Z.of_nat (PyStr.len s))
  | _ => Raise TypeError
  end.

(** Stable sort by an integer key ([list.sort(key=...)]): an element goes
    before the first one of the sorted rest whose key is not smaller. *)
Section Sort.
Context {A : Type} (key : A -> Z).

Fixpoint insert_by_key (x : A) (l : list A) : list A :=
  match l with
  | [] => [x]
  | y :: l' => if key x <=? key y then x :: l else y :: insert_by_key x l'
  end.

Definition sort_by_key (l : list A) : list A := fold_right insert_by_key [] l.
End Sort.

(* ===================================================================== *)
(** * [app/config.py] *)
(* ===================================================================== *)

Record Settings : Type := mkSettings {
  health_check_timeout : Z;
  workflow_timeout : Z;
  video_workflow_timeout : Z;
  preload_timeout : Z;
  health_check_interval : Z;
  max_error_count : Z;
  preload_placeholder_name : string
}.

Definition default_settings : Settings :=
  {| health_check_timeout := 3;
     workflow_timeout := 600;
     video_workflow_timeout := 1200;
     preload_timeout := 300;
     health_check_interval := 5;
     max_error_count := 3;
     preload_placeholder_name := "preload_white.png" |}.

(* ===================================================================== *)
(** * [app/services/load_balancer.py] *)
(* ===================================================================== *)

Module LoadBalancer.

Record ComfyUIServerStatus : Type := mkStatus {
  server_address : string;
  is_available : bool;
  queue_remaining : Z;
  queue_pending : Z;
  current_tasks : Z;
  last_check_time : Z;
  error_count : Z
}.

(** [ComfyUIServerStatus(server_address=addr)] *)
Definition new_status (addr : string) : ComfyUIServerStatus :=
  mkStatus addr true 0 0 0 0 0.

Definition total_load (st : ComfyUIServerStatus) : Z :=
  queue_remaining st + queue_pending st + current_tasks st.

(** [self.servers] *)
Definition registry := PyDict.t ComfyUIServerStatus.

(** [__init__]: one fresh status per address. *)
Definition init (server_addresses : list string) : registry :=
  fold_left (fun servers addr => PyDict.set servers addr (new_status addr))
            server_addresses [].

(** [self.servers[addr]] *)
Definition getitem (addr : string) : M registry ComfyUIServerStatus :=
  fun servers =>
    match PyDict.get servers addr with
    | Some st => (Return st, servers)
    | None => (Raise KeyError, servers)
    end.

(** An assignment to a field of the status object stored under [addr]. *)
Definition assign (addr : string)
           (f : ComfyUIServerStatus -> ComfyUIServerStatus) : M registry unit :=
  modify (fun servers =>
            match PyDict.get servers addr with
            | Some st => PyDict.set servers addr (f st)
            | None => servers
            end).

Definition set_queue_remaining n st :=
  mkStatus (server_address st) (is_available st) n (queue_pending st)
           (current_tasks st) (last_check_time st) (error_count st).
Definition set_queue_pending n st :=
  mkStatus (server_address st) (is_available st) (queue_remaining st) n
           (current_tasks st) (last_check_time st) (error_count st).
Definition set_is_available b st :=
  mkStatus (server_address st) b (queue_remaining st) (queue_pending st)
           (current_tasks st) (last_check_time st) (error_count st).
Definition set_current_tasks n st :=
  mkStatus (server_address st) (is_available st) (queue_remaining st)
           (queue_pending st) n (last_check_time st) (error_count st).
Definition set_last_check_time t st :=
  mkStatus (server_address st) (is_available st) (queue_remaining st)
           (queue_pending st) (current_tasks st) t (error_count st).
Definition set_error_count n st :=
  mkStatus (server_address st) (is_available st) (queue_remaining st)
           (queue_pending st) (current_tasks st) (last_check_time st) n.

(** What [requests.get(url, timeout=...)] does: it raises (a timeout, a
    refused connection), or it returns a response with a status code and a
    body; [response.json()] raises on a body that is not JSON ([None]). *)
Inductive http_reply : Type :=
| HttpRaise (e : exn)
| HttpResponse (status_code : Z) (body : option json).

Section WithSettings.
Variable settings : Settings.

Definition _mark_server_error (server_address : string) : M registry unit :=
  (status <- getitem server_address ;;
   assign server_address (set_error_count (error_count status + 1)) ;;
   if max_error_count settings <=? error_count status + 1
   then assign server_address (set_is_available false)
   else ret tt)%py.

(** [reply] is the outcome of the GET on [/queue] and [now] the reading
    of [time.time()] in the success branch. *)
Definition _update_server_status (reply : http_reply) (now : Z)
           (server_address : string) : M registry unit :=
  try_except
    (match reply with
     | HttpRaise e => raise e
     | HttpResponse status_code body =>
         if status_code =? 200 then
           (data <- lift (match body with
                          | Some d => Return d
                          | None => Raise JSONDecodeError
                          end) ;;
            _ <- getitem server_address ;;
            queue_running <- lift (py_get_default data "queue_running" (JList [])) ;;
            queue_pending <- lift (py_get_default data "queue_pending" (JList [])) ;;
            n_running <- lift (py_len queue_running) ;;
            assign server_address (set_queue_remaining n_running) ;;
            n_pending <- lift (py_len queue_pending) ;;
            assign server_address (set_queue_pending n_pending) ;;
            assign server_address (set_is_available true) ;;
            assign server_address (set_last_check_time now) ;;
            assign server_address (set_error_count 0))%py
         else _mark_server_error server_address
     end)
    (fun _ => _mark_server_error server_address).
End WithSettings.

(** [shuffle] stands for [random.shuffle]: the outcome of the random
    source for this call. *)
Definition get_best_server
           (shuffle : list (string * ComfyUIServerStatus) ->
                      list (string * ComfyUIServerStatus))
           (servers : registry) : option string :=
  let available_servers := filter (fun kv => is_available (snd kv)) servers in
  match available_servers with
  | [] =>
      match PyDict.keys servers with
      | addr :: _ => Some addr
      | [] => None
      end
  | _ :: _ =>
      let shuffled := shuffle available_servers in
      let sorted := sort_by_key (fun kv => total_load (snd kv)) shuffled in
      match sorted with
      | best :: _ => Some (fst best)
      | [] => None (* not reached: shuffling and sorting keep the length *)
      end
  end.

Definition increment_task (server_address : string) : M registry unit :=
  fun servers =>
    if PyDict.mem servers server_address
    then assign server_address
                (fun st => set_current_tasks (current_tasks st + 1) st) servers
    else (Return tt, servers).

Definition decrement_task (server_address : string) : M registry unit :=
  fun servers =>
    if PyDict.mem servers server_address
    then assign server_address
                (fun st => set_current_tasks (Z.max 0 (current_tasks st - 1)) st) servers
    else (Return tt, servers).

Definition add_server (server_address : string) : M registry unit :=
  fun servers =>
    if PyDict.mem servers server_address
    then (Return tt, servers)
    else (Return tt, PyDict.set servers server_address (new_status server_address)).

Definition remove_server (server_address : string) : M registry unit :=
  fun servers =>
    if PyDict.mem servers server_address
    then (Return tt, PyDict.del servers server_address)
    else (Return tt, servers).

(** The operations on a registry, and a run of a sequence of them.  A raise
    ends the operation (and the thread that made the call), not the
    registry: the next operation works on the state it left. *)
Inductive op : Type :=
| OpAdd (addr : string)
| OpRemove (addr : string)
| OpProbe (addr : string) (reply : http_reply) (now : Z)
| OpIncrement (addr : string)
| OpDecrement (addr : string).

Definition run_op (settings : Settings) (o : op) : M registry unit :=
  match o with
  | OpAdd a => add_server a
  | OpRemove a => remove_server a
  | OpProbe a reply now => _update_server_status settings reply now a
  | OpIncrement a => increment_task a
  | OpDecrement a => decrement_task a
  end.

Definition run_ops (settings : Settings) (ops : list op) (servers : registry) : registry :=
  fold_left (fun s o => snd (run_op settings o s)) ops servers.

(** ** The health-check thread *)

(** What surrounds one probe of a round: the operations other threads make
    on the registry between the previous access of the thread and this
    probe's, the reply of the backend, and the clock. *)
Record probe_env : Type := mkProbe {
  probe_before : list op;
  probe_reply : http_reply;
  probe_now : Z
}.

(** One round of the loop: its probes, by address, and what other threads
    do during the sleep that follows them. *)
Record round_env : Type := mkRound {
  at_probe : string -> probe_env;
  asleep : list op
}.

(** [for addr in list(self.servers.keys()): self._update_server_status(addr)],
    over the snapshot of the keys. *)
Fixpoint probe_all (settings : Settings) (round : round_env) (snapshot : list string)
  : M registry unit :=
  match snapshot with
  | [] => ret tt
  | addr :: rest =>
      (modify (run_ops settings (probe_before (at_probe round addr))) ;;
       _update_server_status settings (probe_reply (at_probe round addr))
                             (probe_now (at_probe round addr)) addr ;;
       probe_all settings round rest)%py
  end.

(** The body of [while self._running:]; the snapshot is taken when the
    round begins. *)
Definition check_round (settings : Settings) (round : round_env) : M registry unit :=
  fun servers =>
    (probe_all settings round (PyDict.keys servers) ;;
     modify (run_ops settings (asleep round)))%py servers.

(** [check_loop], the target of the thread: [rounds] are the rounds until
    [shutdown] clears [_running].  Nothing around the loop catches an
    exception. *)
Fixpoint check_loop (settings : Settings) (rounds : list round_env) : M registry unit :=
  match rounds with
  | [] => ret tt
  | round :: rest => (check_round settings round ;; check_loop settings rest)%py
  end.

End LoadBalancer.


(* ===================================================================== *)
(** * [app/services/comfyui_tool.py] *)
(* ===================================================================== *)

Module ComfyuiTool.

(** A workflow: node id to node, as [json.load] decoded it. *)
Definition node_graph := PyDict.t json.

(** [ComfyUITool]: the fields the scheduler reads or writes. *)
Record ComfyUITool : Type := mkTool {
  server_address : string;
  workflow : option node_graph;
  preloaded : bool
}.

(** [ComfyUITool(server_address, working_dir)] *)
Definition new_tool (addr : string) : ComfyUITool := mkTool addr None false.

Definition set_workflow (w : option node_graph) (t : ComfyUITool) : ComfyUITool :=
  mkTool (server_address t) w (preloaded t).
Definition set_preloaded (b : bool) (t : ComfyUITool) : ComfyUITool :=
  mkTool (server_address t) (workflow t) b.

(** ** The rewrite of a [LoadImage] node *)

(** The test on a string value of [inputs]. *)
Definition names_image (v : string) : bool :=
  PyStr.endswith v ".png" || PyStr.endswith v ".jpg" ||
  PyStr.contains "pasted/" v || PyStr.contains "input" v.

(** The test on a string item of a list value of [inputs]. *)
Definition item_names_image (item : string) : bool :=
  PyStr.endswith item ".png" || PyStr.endswith item ".jpg" ||
  PyStr.contains "pasted/" item.

(** [for item in v: ...], giving [(new_list, changed)]. *)
Definition replace_items (filename : string) (v : list json) : list json * bool :=
  fold_left
    (fun (acc : list json * bool) (item : json) =>
       let (new_list, changed) := acc in
       match item with
       | JStr s =>
           if item_names_image s
           then (new_list ++ [JStr filename], true)
           else (new_list ++ [item], changed)
       | _ => (new_list ++ [item], changed)
       end)
    v ([], false).

(** The body of [for k, v in list(inputs.items())]. *)
Definition replace_entry (filename : string) (inputs : PyDict.t json)
           (kv : string * json) : PyDict.t json :=
  let (k, v) := kv in
  match v with
  | JStr s =>
      if names_image s then PyDict.set inputs k (JStr filename) else inputs
  | JList l =>
      let (new_list, changed) := replace_items filename l in
      if changed then PyDict.set inputs k (JList new_list) else inputs
  | _ => inputs
  end.

(** The loop over a snapshot of the entries, then the default ["image"]. *)
Definition replace_inputs (filename : string) (inputs : PyDict.t json) : PyDict.t json :=
  let inputs' := fold_left (replace_entry filename) inputs inputs in
  if PyDict.mem inputs' "image" then inputs'
  else PyDict.set inputs' "image" (JStr filename).

(** [inputs = node.setdefault('inputs', {})], for a node that is a
    dictionary: the node after the call and the value of [inputs]. *)
Definition setdefault_inputs (node : PyDict.t json) : PyDict.t json * json :=
  match PyDict.get node "inputs" with
  | Some v => (node, v)
  | None => (PyDict.set node "inputs" (JDict []), JDict [])
  end.

(** The block under [if ... == 'LoadImage'] of the node-["10"] path and of
    the preload: [inputs.items()] needs a dictionary. *)
Definition replace_in_node (filename : string) (node : PyDict.t json)
  : result (PyDict.t json) :=
  let (node', inputs) := setdefault_inputs node in
  match inputs with
  | JDict i => Return (PyDict.set node' "inputs" (JDict (replace_inputs filename i)))
  | _ => Raise AttributeError
  end.

(** The block of the fallback loop: [inputs['image'] = image_filename] on
    both branches of its test; the test or the assignment raises on a value
    that is not a dictionary. *)
Definition set_image_in_node (filename : string) (node : PyDict.t json)
  : result (PyDict.t json) :=
  let (node', inputs) := setdefault_inputs node in
  match inputs with
  | JDict i =>
      Return (PyDict.set node' "inputs" (JDict (PyDict.set i "image" (JStr filename))))
  | _ => Raise TypeError
  end.

(** [node.get('class_type') == 'LoadImage'] *)
Definition is_load_image (node : json) : result bool :=
  rbind (py_get node "class_type") (fun c => Return (is_str c "LoadImage")).

(** [for nid, node in wf_copy.items(): if ...: ...; replaced = True; break]:
    the items after the loop and [replaced]. *)
Fixpoint replace_first_load_image (filename : string) (items : list (string * json))
  : result (list (string * json) * bool) :=
  match items with
  | [] => Return ([], false)
  | (nid, node) :: rest =>
      rbind (is_load_image node) (fun hit =>
        if hit then
          match node with
          | JDict n =>
              rbind (set_image_in_node filename n) (fun n' =>
                Return ((nid, JDict n') :: rest, true))
          | _ => Raise AttributeError
          end
        else
          rbind (replace_first_load_image filename rest) (fun r =>
            Return ((nid, node) :: fst r, snd r)))
  end.

(** Lines 140-180 of [run_workflow_with_image]: the copy that is submitted
    and the flag [replaced] (when false, a warning is printed). *)
Definition rewrite_with_image (workflow : node_graph) (image_filename : string)
  : result (node_graph * bool) :=
  let wf_copy := workflow in
  let target_node_id := "10" in
  rbind
    (match PyDict.get wf_copy target_node_id with
     | Some node =>
         if truthy node then
           rbind (is_load_image node) (fun hit =>
             if hit then
               match node with
               | JDict n =>
                   rbind (replace_in_node image_filename n) (fun n' =>
                     Return (PyDict.set wf_copy target_node_id (JDict n'), true))
               | _ => Raise AttributeError
               end
             else Return (wf_copy, false))
         else Return (wf_copy, false)
     | None => Return (wf_copy, false)
     end)
    (fun st : node_graph * bool =>
       let (wf_copy, replaced) := st in
       if replaced then Return (wf_copy, true)
       else replace_first_load_image image_filename wf_copy).

(** Lines 99-118 of [preload_full_workflow]: every [LoadImage] node. *)
Fixpoint rewrite_for_preload (placeholder : string) (items : list (string * json))
  : result (list (string * json)) :=
  match items with
  | [] => Return []
  | (nid, node) :: rest =>
      rbind (is_load_image node) (fun hit =>
        rbind (if hit then
                 match node with
                 | JDict n => rbind (replace_in_node placeholder n)
                                    (fun n' => Return (JDict n'))
                 | _ => Raise AttributeError
                 end
               else Return node) (fun node' =>
        rbind (rewrite_for_preload placeholder rest) (fun rest' =>
          Return ((nid, node') :: rest'))))
  end.

(** ** One backend, as one job sees it *)

(** What [ws.recv()] gives: a text frame ([None] when [json.loads] refuses
    it), a binary frame, or an exception. *)
Inductive frame : Type :=
| FText (decoded : option json)
| FBytes
| FRecvRaise (e : exn).

Record backend_io : Type := mkIO {
  (** POST [/prompt] with the workflow: the decoded response *)
  prompt_reply : node_graph -> result json;
  (** [websocket.create_connection], and the clock when it returns *)
  ws_connect : result Z;
  (** the frames, each with the clock when [recv] returns it; after the
      last one [recv] does not return *)
  ws_frames : list (Z * frame);
  ws_close_raises : bool;
  (** GET [/history/<prompt_id>] *)
  history_reply : json -> result json;
  (** GET [/view?filename=&subfolder=&type=] *)
  view_reply : option json -> option json -> option json -> result string
}.

Inductive ws_state : Type := NoSocket | WsOpen | WsCloseCalled.

Section Watch.
(** Python's [==] on two decoded values. *)
Variable py_eq : json -> json -> bool.

Definition is_none (v : option json) : bool :=
  match v with
  | None | Some JNull => true
  | _ => false
  end.

Definition or_null (v : option json) : json :=
  match v with Some x => x | None => JNull end.

(** [while time.time() < deadline: out = ws.recv(); ...  return False].
    [now] is the clock at the test of the loop: the time the last frame
    came in (the start, before the first). *)
Fixpoint recv_loop (prompt_id : json) (deadline now : Z) (frames : list (Z * frame))
  : result bool :=
  match frames with
  | [] => if now <? deadline then Hang else Return false
  | (arrival, out) :: rest =>
      if now <? deadline then
        match out with
        | FRecvRaise e => Raise e
        | FBytes => recv_loop prompt_id deadline arrival rest
        | FText None => Raise JSONDecodeError
        | FText (Some msg) =>
            rbind (py_get msg "type") (fun mtype =>
              if is_str mtype "progress" then
                rbind (py_get_default msg "data" (JDict [])) (fun data =>
                rbind (py_get data "value") (fun _ =>
                rbind (py_get data "max") (fun _ =>
                  recv_loop prompt_id deadline arrival rest)))
              else if is_str mtype "executing" then
                rbind (py_get_default msg "data" (JDict [])) (fun data =>
                rbind (py_get data "node") (fun node =>
                rbind (py_get data "prompt_id") (fun pid =>
                  if is_none node && py_eq (or_null pid) prompt_id
                  then Return true
                  else recv_loop prompt_id deadline arrival rest)))
              else recv_loop prompt_id deadline arrival rest)
        end
      else Return false
  end.

Definition ws_create_connection (io : backend_io) : M ws_state Z :=
  fun s =>
    match ws_connect io with
    | Return t => (Return t, WsOpen)
    | Raise e => (Raise e, s)
    | Hang => (Hang, s)
    end.

Definition ws_close (io : backend_io) : M ws_state unit :=
  fun _ => (if ws_close_raises io then Raise WebSocketError else Return tt,
            WsCloseCalled).

Definition _wait_for_prompt_exec (io : backend_io) (prompt_id : json) (timeout : Z)
  : M ws_state bool :=
  (start <- ws_create_connection io ;;
   let deadline := start + timeout in
   try_finally
     (lift (recv_loop prompt_id deadline start (ws_frames io)))
     (try_except (ws_close io) (fun _ => ret tt)))%py.

(** [resp.get('prompt_id') or resp.get('id') or resp.get('request_id')] *)
Definition prompt_id_of (resp : json) : result (option json) :=
  rbind (py_get resp "prompt_id") (fun a =>
    if match a with Some v => truthy v | None => false end then Return a
    else rbind (py_get resp "id") (fun b =>
      if match b with Some v => truthy v | None => false end then Return b
      else rbind (py_get resp "request_id") (fun c =>
        if match c with Some v => truthy v | None => false end then Return c
        else Return None))).

Record run_result : Type := mkRun {
  prompt_id : json;
  history : json
}.

(** Lines 182-193 of [run_workflow_with_image]: the copy is submitted, the
    job is watched, its history is fetched. *)
Definition submit_and_wait (io : backend_io) (wf_copy : node_graph) (timeout : Z)
  : result run_result :=
  rbind (prompt_reply io wf_copy) (fun resp =>
  rbind (prompt_id_of resp) (fun pid =>
    match pid with
    | None => Raise (RuntimeError "no prompt id returned: " (Some resp))
    | Some prompt_id =>
        rbind (fst (_wait_for_prompt_exec io prompt_id timeout NoSocket)) (fun ok =>
          if ok then
            rbind (history_reply io prompt_id) (fun history =>
              Return (mkRun prompt_id history))
          else Raise (RuntimeError "workflow run timeout or ws error, resp="
                                   (Some resp)))
    end)).

Definition run_workflow_with_image (io : backend_io) (workflow : node_graph)
           (image_filename : string) (timeout : Z) : result run_result :=
  rbind (rewrite_with_image workflow image_filename) (fun st =>
    submit_and_wait io (fst st) timeout).

(** What [preload_full_workflow] reports next to its flag. *)
Inductive preload_info : Type :=
| EmptyWorkflow
| PlaceholderFailed
| NoPromptId (resp : json)
| PreloadTimeout (resp : json)
| Preloaded (prompt_id : json)
| PreloadException (e : exn)
| NoToolInstance.

(** The input directory of the backends: whether the placeholder is there,
    and whether [create_placeholder_image] manages to write it. *)
Record input_dir : Type := mkDir {
  placeholder_exists : bool;
  create_placeholder_image : bool
}.

(** [preload_full_workflow], on the tool it is called on: [self.preloaded]
    is set on success. *)
Definition preload_full_workflow (settings : Settings) (dir : input_dir)
           (io : backend_io) (workflow : node_graph) (timeout : Z)
  : M ComfyUITool (bool * preload_info) :=
  try_except
    (match workflow with
     | [] => ret (false, EmptyWorkflow)
     | wf =>
         if negb (placeholder_exists dir) && negb (create_placeholder_image dir)
         then ret (false, PlaceholderFailed)
         else
           (wf_copy <- lift (rewrite_for_preload (preload_placeholder_name settings) wf) ;;
            resp <- lift (prompt_reply io wf_copy) ;;
            pid <- lift (prompt_id_of resp) ;;
            match pid with
            | None => ret (false, NoPromptId resp)
            | Some prompt_id =>
                ok <- lift (fst (_wait_for_prompt_exec io prompt_id timeout NoSocket)) ;;
                if ok : bool then
                  (modify (set_preloaded true) ;;
                   ret (true, Preloaded prompt_id))
                else ret (false, PreloadTimeout resp)
            end)%py
     end)
    (fun e => ret (false, PreloadException e)).

End Watch.

(** ** The rewrite of a video loader *)

(** [node.get('class_type') in ['LoadVideo', 'VHS_LoadVideo', 'LoadVideoPath']] *)
Definition is_load_video (node : json) : result bool :=
  rbind (py_get node "class_type") (fun c =>
    Return (is_str c "LoadVideo" || is_str c "VHS_LoadVideo" || is_str c "LoadVideoPath")).

(** The block under that test: the membership tests and the assignment
    need a dictionary. *)
Definition set_video_in_node (filename : string) (node : PyDict.t json)
  : result (PyDict.t json) :=
  let (node', inputs) := setdefault_inputs node in
  match inputs with
  | JDict i =>
      Return (PyDict.set node' "inputs"
                (JDict (if PyDict.mem i "video"
                        then PyDict.set i "video" (JStr filename)
                        else if PyDict.mem i "video_path"
                             then PyDict.set i "video_path" (JStr filename)
                             else PyDict.set i "video" (JStr filename))))
  | _ => Raise TypeError
  end.

(** Lines 197-209 of [run_workflow_with_video]: the loop skips every node
    whose id is not the target's, and ends at the first video loader. *)
Fixpoint rewrite_with_video (video_filename target_node_id : string)
         (items : list (string * json)) : result (list (string * json)) :=
  match items with
  | [] => Return []
  | (nid, node) :: rest =>
      if negb (String.eqb nid target_node_id) then
        rbind (rewrite_with_video video_filename target_node_id rest) (fun rest' =>
          Return ((nid, node) :: rest'))
      else
        rbind (is_load_video node) (fun hit =>
          if hit then
            match node with
            | JDict n =>
                rbind (set_video_in_node video_filename n) (fun n' =>
                  Return ((nid, JDict n') :: rest))
            | _ => Raise AttributeError
            end
          else
            rbind (rewrite_with_video video_filename target_node_id rest) (fun rest' =>
              Return ((nid, node) :: rest')))
  end.

(** [run_workflow_with_video]; the defaults of [timeout] and
    [target_node_id] are 600 and ["2"]. *)
Definition run_workflow_with_video (py_eq : json -> json -> bool) (io : backend_io)
           (workflow : node_graph) (video_filename : string) (timeout : Z)
           (target_node_id : string) : result run_result :=
  rbind (rewrite_with_video video_filename target_node_id workflow) (fun wf_copy =>
    submit_and_wait py_eq io wf_copy timeout).

End ComfyuiTool.


(* ===================================================================== *)
(** * [app/services/tool_pool.py] *)
(* ===================================================================== *)

Module ToolPool.

Record ComfyUIToolPool : Type := mkPool {
  tools : PyDict.t ComfyuiTool.ComfyUITool;
  workflow : option ComfyuiTool.node_graph;
  current_template : option string
}.

(** The calls the handlers make on the shared objects, oldest first: a
    record kept beside the state, which the code does not read. *)
Inductive call : Type :=
| CallIncrement (addr : string)
| CallDecrement (addr : string)
| CallRun (addr : string)
| CallPreload (addr : string).

(** The objects of [main.py]: the load balancer and the pool that refers
    to it. *)
Record world : Type := mkWorld {
  lb : LoadBalancer.registry;
  pool : ComfyUIToolPool;
  calls : list call
}.

(** What the code does not decide: the configuration, the random source,
    the backends, the input directory, what other threads do to the
    registry while a job of this request runs, and the text that an
    f-string makes of an exception ([f'{e}']) and of the results of a
    preload ([f'{results}']). *)
Record environment : Type := mkEnv {
  settings : Settings;
  shuffle : list (string * LoadBalancer.ComfyUIServerStatus) ->
            list (string * LoadBalancer.ComfyUIServerStatus);
  py_eq : json -> json -> bool;
  backend : string -> ComfyuiTool.backend_io;
  dir : ComfyuiTool.input_dir;
  meanwhile : list LoadBalancer.op;
  str_exn : exn -> string;
  str_results : PyDict.t (bool * ComfyuiTool.preload_info) -> string
}.

Definition set_lb (r : LoadBalancer.registry) (w : world) : world :=
  mkWorld r (pool w) (calls w).
Definition set_pool (p : ComfyUIToolPool) (w : world) : world :=
  mkWorld (lb w) p (calls w).
Definition set_tools (t : PyDict.t ComfyuiTool.ComfyUITool) (w : world) : world :=
  set_pool (mkPool t (workflow (pool w)) (current_template (pool w))) w.
Definition log (c : call) : M world unit :=
  modify (fun w => mkWorld (lb w) (pool w) (calls w ++ [c])).

(** A method of the load balancer, called on the one of the world. *)
Definition on_lb {A} (m : M LoadBalancer.registry A) : M world A :=
  fun w => let (r, servers) := m (lb w) in (r, set_lb servers w).

(** [if self.workflow:] *)
Definition loaded (w : option ComfyuiTool.node_graph) : bool :=
  match w with
  | Some (_ :: _) => true
  | _ => false
  end.

(** [__init__]: one tool per server of the load balancer. *)
Definition init (servers : LoadBalancer.registry) : ComfyUIToolPool :=
  mkPool (fold_left (fun t addr => PyDict.set t addr (ComfyuiTool.new_tool addr))
                    (PyDict.keys servers) [])
         None None.

Definition get_tool_for_request (env : environment) : M world ComfyuiTool.ComfyUITool :=
  fun w =>
    match LoadBalancer.get_best_server (shuffle env) (lb w) with
    | None => (Raise (RuntimeError "No available ComfyUI servers" None), w)
    | Some best_server =>
        if String.eqb best_server ""
        then (Raise (RuntimeError "No available ComfyUI servers" None), w)
        else
          let t := tools (pool w) in
          let tool :=
            match PyDict.get t best_server with
            | Some tool => tool
            | None => ComfyuiTool.new_tool best_server
            end in
          let tool :=
            if loaded (workflow (pool w))
            then ComfyuiTool.set_workflow (workflow (pool w)) tool
            else tool in
          (Return tool, set_tools (PyDict.set t best_server tool) w)
    end.

Definition load_workflow (wf : ComfyuiTool.node_graph) (template_name : string)
  : M world unit :=
  modify (fun w =>
    set_pool (mkPool (map (fun kv => (fst kv, ComfyuiTool.set_workflow (Some wf) (snd kv)))
                          (tools (pool w)))
                     (Some wf) (Some template_name)) w).

(** [preload_on_server], run on the tool registered under [addr]. *)
Definition preload_on_server (env : environment) (wf : ComfyuiTool.node_graph)
           (timeout : Z) (kv : string * ComfyuiTool.ComfyUITool)
  : result (bool * ComfyuiTool.preload_info) * ComfyuiTool.ComfyUITool :=
  ComfyuiTool.preload_full_workflow (py_eq env) (settings env) (dir env)
    (backend env (fst kv)) wf timeout (snd kv).

(** [for future in futures: addr, result = future.result(); results[addr] = result] *)
Fixpoint collect (outcomes : list (string * result (bool * ComfyuiTool.preload_info)))
         (results : PyDict.t (bool * ComfyuiTool.preload_info))
  : result (PyDict.t (bool * ComfyuiTool.preload_info)) :=
  match outcomes with
  | [] => Return results
  | (addr, Return r) :: rest => collect rest (PyDict.set results addr r)
  | (_, Raise e) :: _ => Raise e
  | (_, Hang) :: _ => Hang
  end.

(** [preload_all_servers]: one job per tool is submitted to the executor,
    each on its own tool and its own backend; the results are then read in
    the order of submission.  An executor for no tool at all is refused
    ([max_workers] must be positive). *)
Definition preload_all_servers (env : environment) (wf : ComfyuiTool.node_graph)
           (timeout : Z) : M world (PyDict.t (bool * ComfyuiTool.preload_info)) :=
  fun w =>
    match tools (pool w) with
    | [] => (Raise ValueError, w)
    | t =>
        let jobs := map (fun kv => (fst kv, preload_on_server env wf timeout kv)) t in
        let w' :=
          mkWorld (lb w)
                  (mkPool (map (fun j => (fst j, snd (snd j))) jobs)
                          (workflow (pool w)) (current_template (pool w)))
                  (calls w ++ map CallPreload (PyDict.keys t)) in
        (collect (map (fun j => (fst j, fst (snd j))) jobs) [], w')
    end.

(** [add_server] has two steps, each under a lock of its own.  The first,
    [self.load_balancer.add_server(server_address)], registers the
    backend. *)
Definition add_server_register (server_address : string) : M world unit :=
  on_lb (LoadBalancer.add_server server_address).

(** The second, [with self.lock: ...], gives it a tool. *)
Definition add_server_tool (server_address : string) : M world unit :=
  modify (fun w =>
    let t := tools (pool w) in
    if PyDict.mem t server_address then w
    else
      let tool := ComfyuiTool.new_tool server_address in
      let tool := if loaded (workflow (pool w))
                  then ComfyuiTool.set_workflow (workflow (pool w)) tool
                  else tool in
      set_tools (PyDict.set t server_address tool) w).

(** The two steps in a row.  Between them no lock is held: another thread
    that runs then finds the state that [add_server_register] left. *)
Definition add_server (server_address : string) : M world unit :=
  (add_server_register server_address ;; add_server_tool server_address)%py.

End ToolPool.

(* ===================================================================== *)
(** * [app/routers/images.py], [videos.py], [templates.py], [servers.py] *)
(* ===================================================================== *)

Module Routers.
Import ToolPool.

(** An uploaded file. *)
Record upload : Type := mkUpload {
  filename : string;
  content : string
}.

(** The files the handlers touch. *)
Record filesystem : Type := mkFs {
  (** the template of that name in the video ([true]) or image directory:
      [None] when the path does not exist, else what [json.load] gives *)
  read_template : bool -> string -> option (result ComfyuiTool.node_graph);
  (** [generate_unique_filename], for the upload and for the output *)
  unique_filename : string;
  processed_filename : string;
  (** writing the upload, copying it to the input directory of the backends *)
  save_upload : result unit;
  copy_to_input : result unit;
  (** [Image.open] and the re-encoding as PNG *)
  encode_png : string -> result string;
  write_processed : result unit
}.

Inductive response : Type :=
| NoOutput (original : string) (server_used : string)
| Processed (original : string) (data : string) (path : string) (server_used : string)
| TemplateLoaded (mode : string)
             (preload : option (PyDict.t (bool * ComfyuiTool.preload_info)))
| ServerAction (address : string).

Section Handlers.
Variable env : environment.
Variable fs : filesystem.

(** [load_balancer.increment_task(server_addr)] and its counterpart. *)
Definition call_increment_task (addr : string) : M world unit :=
  (log (CallIncrement addr) ;; on_lb (LoadBalancer.increment_task addr))%py.

Definition call_decrement_task (addr : string) : M world unit :=
  (log (CallDecrement addr) ;; on_lb (LoadBalancer.decrement_task addr))%py.

(** [comfy_tool.run_workflow_with_image(...)]: while the job runs, other
    threads work on the registry. *)
Definition call_run (tool : ComfyuiTool.ComfyUITool) (wf : ComfyuiTool.node_graph)
           (image_filename : string) (timeout : Z) : M world ComfyuiTool.run_result :=
  (log (CallRun (ComfyuiTool.server_address tool)) ;;
   modify (fun w => set_lb (LoadBalancer.run_ops (settings env) (meanwhile env) (lb w)) w) ;;
   lift (ComfyuiTool.run_workflow_with_image (py_eq env)
           (backend env (ComfyuiTool.server_address tool)) wf image_filename timeout))%py.

(** The template is read again when it is not the current one. *)
Definition reload_template (template mode : string) : M world unit :=
  fun w =>
    if match current_template (pool w) with
       | Some t => String.eqb template t
       | None => false
       end
    then (Return tt, w)
    else
      match read_template fs (String.eqb mode "video") template with
      | None =>
          (Raise (HTTPException 404 ("Template not found in " ++ mode ++ " mode")%string),
           w)
      | Some (Raise e) => (Raise e, w)
      | Some Hang => (Hang, w)
      | Some (Return []) => (Raise (HTTPException 500 "Failed to load workflow"), w)
      | Some (Return wf) => load_workflow wf template w
      end.

(** [prompt_id in history_map]: a list or a dictionary cannot be looked
    up; the keys of a decoded object are strings. *)
Definition key_in (k : json) (d : PyDict.t json) : result bool :=
  match k with
  | JStr s => Return (PyDict.mem d s)
  | JList _ | JDict _ => Raise TypeError
  | _ => Return false
  end.

(** The outputs of the job in the history, in insertion order; no outputs
    when the history does not have the job. *)
Definition outputs_of (run : ComfyuiTool.run_result) : result (list json) :=
  match ComfyuiTool.history run with
  | JDict history_map =>
      rbind (key_in (ComfyuiTool.prompt_id run) history_map) (fun present =>
        if present then
          let prompt_hist :=
            match ComfyuiTool.prompt_id run with
            | JStr s => match PyDict.get history_map s with
                        | Some h => h
                        | None => JDict []
                        end
            | _ => JDict []
            end in
          rbind (py_get_default prompt_hist "outputs" (JDict [])) (fun outputs =>
            match outputs with
            | JDict o => Return (PyDict.values o)
            | _ => Raise AttributeError
            end)
        else Return [])
  | _ => Return []
  end.

(** [node_output.get('images')], or [node_output.get('videos') or
    node_output.get('gifs')]. *)
Definition media_of (video : bool) (node_output : json) : result (option json) :=
  if video then
    rbind (py_get node_output "videos") (fun a =>
      if match a with Some v => truthy v | None => false end then Return a
      else py_get node_output "gifs")
  else py_get node_output "images".

(** [for node_output in outputs.values(): ...]: the bytes of the first
    entry of each list of artifacts, until some are not empty. *)
Fixpoint fetch_first (video : bool) (io : ComfyuiTool.backend_io)
         (outputs : list json) (bytes : option string) : result (option string) :=
  match outputs with
  | [] => Return bytes
  | node_output :: rest =>
      rbind (media_of video node_output) (fun meta =>
        match meta with
        | Some (JList (JDict first :: _)) =>
            rbind (ComfyuiTool.view_reply io (PyDict.get first "filename")
                     (PyDict.get first "subfolder") (PyDict.get first "type"))
                  (fun b =>
                     if String.eqb b "" then fetch_first video io rest (Some b)
                     else Return (Some b))
        | _ => fetch_first video io rest bytes
        end)
  end.

(** The inner [try] block of both handlers. *)
Definition run_and_extract (video : bool) (comfy_tool : ComfyuiTool.ComfyUITool)
           (timeout : Z) : M world response :=
  let server_addr := ComfyuiTool.server_address comfy_tool in
  if loaded (ComfyuiTool.workflow comfy_tool) then
    match ComfyuiTool.workflow comfy_tool with
    | Some wf =>
        (run_result <- call_run comfy_tool wf (unique_filename fs) timeout ;;
         outputs <- lift (outputs_of run_result) ;;
         bytes <- lift (fetch_first video (backend env server_addr) outputs None) ;;
         match bytes with
         | None | Some EmptyString => ret (NoOutput (unique_filename fs) server_addr)
         | Some b =>
             if video then
               (lift (write_processed fs) ;;
                ret (Processed (unique_filename fs) b (processed_filename fs) server_addr))
             else
               (png <- lift (encode_png fs b) ;;
                lift (write_processed fs) ;;
                ret (Processed (unique_filename fs) png (processed_filename fs) server_addr))
         end)%py
    | None => raise (HTTPException 500 "Workflow not loaded")
    end
  else raise (HTTPException 500 "Workflow not loaded").

(** From [# Get the most idle server tool] to the end of both handlers;
    [detail] is the text of the handler's message before [: {e}]. *)
Definition dispatch (video : bool) (timeout : Z) (detail : string) : M world response :=
  try_except
    (comfy_tool <- get_tool_for_request env ;;
     let server_addr := ComfyuiTool.server_address comfy_tool in
     call_increment_task server_addr ;;
     try_finally
       (run_and_extract video comfy_tool timeout)
       (call_decrement_task server_addr))%py
    (fun e => raise (HTTPException 500 (detail ++ ": " ++ str_exn env e)%string)).

(** Saving the upload, then its copy for the backends. *)
Definition store_upload : M world unit :=
  (lift (save_upload fs) ;;
   try_except (lift (copy_to_input fs))
              (fun e => raise (HTTPException 500
                                 ("Failed to copy to input dir: " ++ str_exn env e)%string)))%py.

Definition process_image (image : option upload) (template mode : string)
  : M world response :=
  match image with
  | None => raise (HTTPException 400 "No image uploaded")
  | Some _ =>
      (reload_template template mode ;;
       store_upload ;;
       dispatch false (workflow_timeout (settings env)) "Processing error")%py
  end.

(** [s.lower()], on the letters of ASCII. *)
Definition lower_ascii (c : ascii) : ascii :=
  let n := nat_of_ascii c in
  if ((65 <=? n) && (n <=? 90))%nat then ascii_of_nat (n + 32) else c.

Fixpoint lower (s : string) : string :=
  match s with
  | EmptyString => EmptyString
  | String c s' => String (lower_ascii c) (lower s')
  end.

Definition process_video (image : option upload) (template mode : string)
  : M world response :=
  match image with
  | None => raise (HTTPException 400 "No image uploaded")
  | Some img =>
      let name := lower (filename img) in
      if PyStr.endswith name ".png" || PyStr.endswith name ".jpg" ||
         PyStr.endswith name ".jpeg" || PyStr.endswith name ".webp"
      then
        (reload_template template mode ;;
         store_upload ;;
         dispatch true (video_workflow_timeout (settings env)) "Video processing error")%py
      else raise (HTTPException 400 "Unsupported image format")
  end.

(** [sum(1 for ok, _ in results.values() if ok)] *)
Definition success_count (results : PyDict.t (bool * ComfyuiTool.preload_info)) : Z :=
  Z.of_nat (List.length (filter (fun kv => fst (snd kv)) results)).

Definition load_template (template mode : string) : M world response :=
  fun w =>
    match read_template fs (String.eqb mode "video") template with
    | None =>
        (Raise (HTTPException 404 ("Template not found in " ++ mode ++ " mode")%string),
         w)
    | Some (Raise e) => (Raise e, w)
    | Some Hang => (Hang, w)
    | Some (Return []) => (Raise (HTTPException 500 "Failed to load workflow"), w)
    | Some (Return wf) =>
        (load_workflow wf template ;;
         if String.eqb mode "image" then
           (results <- preload_all_servers env wf (preload_timeout (settings env)) ;;
            if success_count results =? 0
            then raise (HTTPException 500
                          ("Preload failed on all servers: " ++ str_results env results)%string)
            else ret (TemplateLoaded mode (Some results)))
         else ret (TemplateLoaded mode None))%py w
    end.

(** [servers.py] *)
Definition add_server (server_address : string) : M world response :=
  (ToolPool.add_server server_address ;; ret (ServerAction server_address))%py.

Definition remove_server (server_address : string) : M world response :=
  (on_lb (LoadBalancer.remove_server server_address) ;;
   ret (ServerAction server_address))%py.

End Handlers.
End Routers.


(* ===================================================================== *)
(** * Statements

    The vocabulary of the theorems below, and the sample registries,
    graphs and backends they are run on. *)
(* ===================================================================== *)


(** A property of the state that a computation keeps, however it ends. *)
Definition preserves {S A} (I : S -> Prop) (m : M S A) : Prop :=
  forall s, I s -> I (snd (m s)).

(** The head of a list bounds the keys of the list from below. *)
Definition head_least {A : Type} (key : A -> Z) (l : list A) : Prop :=
  match l with
  | [] => True
  | x :: _ => forall y, In y l -> key x <= key y
  end.

Module Selector.
Import LoadBalancer.

(** The sort key and the filter of [get_best_server]. *)
Definition load_key (kv : string * ComfyUIServerStatus) : Z := total_load (snd kv).
Definition available (kv : string * ComfyUIServerStatus) : bool := is_available (snd kv).

(** The two servers of the default configuration, both available, the
    second with less load. *)
Definition two_backends : registry :=
  [ ("127.0.0.1:8155", mkStatus "127.0.0.1:8155" true 2 3 1 0 0);
    ("127.0.0.1:8166", mkStatus "127.0.0.1:8166" true 0 1 0 0 0) ].

(** Scenario 3 of the specification: no backend is available. *)
Definition two_backends_down : registry :=
  [ ("A", mkStatus "A" false 0 0 0 0 3);
    ("B", mkStatus "B" false 0 0 0 0 4) ].

End Selector.

Module Registry.
Import LoadBalancer.

(** The probe did not succeed: the request raised (a timeout, a transport
    error) or the status is not 200. *)
Definition probe_failed (reply : http_reply) : Prop :=
  match reply with
  | HttpRaise _ => True
  | HttpResponse status_code _ => status_code <> 200
  end.

(** The body of a success: the two queues, each an array (an absent one
    counts as empty). *)
Definition queue_body (body : PyDict.t json) (running pending : list json) : Prop :=
  py_get_default (JDict body) "queue_running" (JList []) = Return (JList running) /\
  py_get_default (JDict body) "queue_pending" (JList []) = Return (JList pending).

(** The status a successful probe leaves, and the one a failed probe
    leaves. *)
Definition after_success (st : ComfyUIServerStatus) (running pending : list json)
           (now : Z) : ComfyUIServerStatus :=
  mkStatus (server_address st) true
           (Z.of_nat (List.length running)) (Z.of_nat (List.length pending))
           (current_tasks st) now 0.

Definition after_failure (settings : Settings) (st : ComfyUIServerStatus)
  : ComfyUIServerStatus :=
  mkStatus (server_address st)
           (if max_error_count settings <=? error_count st + 1
            then false else is_available st)
           (queue_remaining st) (queue_pending st)
           (current_tasks st) (last_check_time st) (error_count st + 1).

(** Status of [b] after the probes [replies]: one failed probe after the
    other. *)
Definition probes (b : string) (replies : list (http_reply * Z)) : list op :=
  map (fun r => OpProbe b (fst r) (snd r)) replies.

(** A registry of one backend with one job in flight. *)
Definition one_backend : registry := [ ("A", mkStatus "A" true 4 2 1 10 0) ].

(** No in-flight counter is negative. *)
Definition tasks_nonneg (servers : registry) : Prop :=
  Forall (fun kv => 0 <= current_tasks (snd kv)) servers.

End Registry.

Module Rewrite.
Import ComfyuiTool.

(** A list item that is replaced, and the replacement of an item. *)
Definition item_hit (item : json) : bool :=
  match item with
  | JStr s => item_names_image s
  | _ => false
  end.

Definition replace_item (filename : string) (item : json) : json :=
  if item_hit item then JStr filename else item.

(** What the node-["10"] path does to one value of [inputs]. *)
Definition replace_value (filename : string) (v : json) : json :=
  match v with
  | JStr s => if names_image s then JStr filename else v
  | JList l => JList (map (replace_item filename) l)
  | _ => v
  end.

(** Every value replaced, the keys as they are. *)
Definition replace_values (filename : string) (inputs : PyDict.t json) : PyDict.t json :=
  map (fun kv => (fst kv, replace_value filename (snd kv))) inputs.

(** The rule of the specification on one value: a string that matches the
    pattern is replaced, and so is each string of a list that matches the
    same pattern. *)
Definition rule_value (filename : string) (v : json) : json :=
  match v with
  | JStr s => if names_image s then JStr filename else v
  | JList l =>
      JList (map (fun item =>
                    match item with
                    | JStr s => if names_image s then JStr filename else item
                    | _ => item
                    end) l)
  | _ => v
  end.

(** The rule of the specification on [inputs]. *)
Definition rule_inputs (filename : string) (inputs : PyDict.t json) : PyDict.t json :=
  let inputs' := map (fun kv => (fst kv, rule_value filename (snd kv))) inputs in
  if PyDict.mem inputs' "image" then inputs'
  else inputs' ++ [("image", JStr filename)].

(** The [inputs] the node-["10"] path leaves, in closed form. *)
Definition replaced_inputs (filename : string) (i : PyDict.t json) : PyDict.t json :=
  if PyDict.mem i "image" then replace_values filename i
  else replace_values filename i ++ [("image", JStr filename)].

(** [class_type] is ["LoadImage"]. *)
Definition load_image (node : json) : bool :=
  match node with
  | JDict n => is_str (PyDict.get n "class_type") "LoadImage"
  | _ => false
  end.

(** Node ["10"] exists and is a [LoadImage]. *)
Definition preferred (wf : node_graph) : bool :=
  match PyDict.get wf "10" with
  | Some node => load_image node
  | None => false
  end.

(** The node the rule targets: node ["10"] when preferred, else the first
    [LoadImage] in iteration order. *)
Definition select_target (wf : node_graph) : option string :=
  if preferred wf then Some "10"
  else option_map fst (find (fun kv => load_image (snd kv)) wf).

(** The [inputs] of a node; none stands for no entry. *)
Definition inputs_of (n : PyDict.t json) : PyDict.t json :=
  match PyDict.get n "inputs" with
  | Some (JDict i) => i
  | _ => []
  end.

(** The [inputs] of node [nid] of a graph. *)
Definition inputs_at (wf : node_graph) (nid : string) : option (PyDict.t json) :=
  match PyDict.get wf nid with
  | Some (JDict n) => Some (inputs_of n)
  | _ => None
  end.

(** A node as the data model has it: a record whose [inputs], when there,
    is a mapping. *)
Definition node_shaped (node : json) : Prop :=
  match node with
  | JDict n =>
      match PyDict.get n "inputs" with
      | Some (JDict _) | None => True
      | Some _ => False
      end
  | _ => False
  end.

(** A graph as the data model has it. *)
Definition graph_shaped (wf : node_graph) : Prop :=
  Forall (fun kv => node_shaped (snd kv)) wf.

(** The rule of the specification holds of the rewrite of [wf]: the
    [inputs] of the target node are those the rule gives. *)
Definition obeys_rule (wf : node_graph) (filename : string) : Prop :=
  forall nid i,
    select_target wf = Some nid ->
    inputs_at wf nid = Some i ->
    exists wf' replaced,
      rewrite_with_image wf filename = Return (wf', replaced) /\
      inputs_at wf' nid = Some (rule_inputs filename i).

(** A [LoadImage] node with the one input ["image"]. *)
Definition load_image_node (image : json) : json :=
  JDict [("class_type", JStr "LoadImage"); ("inputs", JDict [("image", image)])].

(** Scenario 4 of the specification: nodes ["5"] and ["10"], both
    [LoadImage]. *)
Definition two_load_images : node_graph :=
  [("5", load_image_node (JStr "old.png")); ("10", load_image_node (JStr "old.png"))].

(** Node ["10"] with a list among its inputs: one item only contains
    [input], one contains [pasted/]. *)
Definition ten_with_list : node_graph :=
  [("10", JDict [("class_type", JStr "LoadImage");
                 ("inputs", JDict [("image", JStr "old.png");
                                   ("pair", JList [JStr "input_photo"; JStr "pasted/a";
                                                   JInt 0])])])].

(** Node ["5"] alone, with two file names among its inputs. *)
Definition five_with_mask : node_graph :=
  [("5", JDict [("class_type", JStr "LoadImage");
                ("inputs", JDict [("image", JStr "old.png");
                                  ("mask", JStr "mask.png")])])].

End Rewrite.

Module Watch.
Import ComfyuiTool.

(** What one frame does to the loop. *)
Inductive verdict : Type :=
| Completes
| Fails (e : exn)
| Continues.

Section Verdict.
Variable py_eq : json -> json -> bool.
Variable prompt_id : json.

(** The body of the loop on the frame [out], case by case. *)
Definition verdict_of (out : frame) : verdict :=
  match out with
  | FRecvRaise e => Fails e
  | FBytes => Continues
  | FText None => Fails JSONDecodeError
  | FText (Some (JDict msg)) =>
      if is_str (PyDict.get msg "type") "progress" then
        match PyDict.get msg "data" with
        | Some (JDict _) | None => Continues
        | Some _ => Fails AttributeError
        end
      else if is_str (PyDict.get msg "type") "executing" then
        match PyDict.get msg "data" with
        | Some (JDict data) =>
            if is_none (PyDict.get data "node") &&
               py_eq (or_null (PyDict.get data "prompt_id")) prompt_id
            then Completes else Continues
        | None => if py_eq JNull prompt_id then Completes else Continues
        | Some _ => Fails AttributeError
        end
      else Continues
  | FText (Some _) => Fails AttributeError
  end.

(** The clock at each test of the loop while [pre] is received: the start,
    then the arrival of each frame. *)
Definition tests (start : Z) (pre : list (Z * frame)) : list Z :=
  start :: map fst pre.

(** No frame of [pre] ends the loop. *)
Definition all_continue (pre : list (Z * frame)) : Prop :=
  Forall (fun tf => verdict_of (snd tf) = Continues) pre.

(** The loop takes the frames of [pre], none of which ends it, and then
    finds the deadline reached. *)
Fixpoint times_out (deadline now : Z) (pre : list (Z * frame)) : Prop :=
  match pre with
  | [] => deadline <= now
  | (t, out) :: pre' =>
      now < deadline /\ verdict_of out = Continues /\ times_out deadline t pre'
  end.

End Verdict.

(** The completion signal of job [job_id]: a text frame that decodes to an
    object of type ["executing"] whose data has a null (or no) [node] and
    the [prompt_id] of the job. *)
Definition completion_signal (job_id : string) (out : frame) : Prop :=
  exists msg data,
    out = FText (Some (JDict msg)) /\
    PyDict.get msg "type" = Some (JStr "executing") /\
    PyDict.get msg "data" = Some (JDict data) /\
    is_none (PyDict.get data "node") = true /\
    PyDict.get data "prompt_id" = Some (JStr job_id).

(** A text frame of type ["progress"]. *)
Definition progress_frame (out : frame) : Prop :=
  exists msg,
    out = FText (Some (JDict msg)) /\ PyDict.get msg "type" = Some (JStr "progress").

(** What is assumed of Python's [==]: a value equals a string exactly when
    it is that string. *)
Definition eq_on_str (py_eq : json -> json -> bool) : Prop :=
  forall v s, py_eq v (JStr s) = true <-> v = JStr s.

(** An equality that is right on strings and on [None]. *)
Definition eq_scalars (a b : json) : bool :=
  match a, b with
  | JStr x, JStr y => String.eqb x y
  | JNull, JNull => true
  | _, _ => false
  end.

(** The watch as the specification words it: true exactly when the
    completion signal comes in before the deadline. *)
Definition true_iff_signal_before_deadline (py_eq : json -> json -> bool)
           (io : backend_io) (job_id : string) (timeout : Z) : Prop :=
  fst (_wait_for_prompt_exec py_eq io (JStr job_id) timeout NoSocket) = Return true <->
  exists start t out,
    ws_connect io = Return start /\
    In (t, out) (ws_frames io) /\
    t < start + timeout /\
    completion_signal job_id out.

(** The two frames of the protocol. *)
Definition executing (node : json) (job_id : string) : frame :=
  FText (Some (JDict [("type", JStr "executing");
                      ("data", JDict [("node", node); ("prompt_id", JStr job_id)])])).

Definition progress (value max : Z) : frame :=
  FText (Some (JDict [("type", JStr "progress");
                      ("data", JDict [("value", JInt value); ("max", JInt max)])])).

(** The backend [io], with a [close] that raises or not. *)
Definition with_close (raises : bool) (io : backend_io) : backend_io :=
  mkIO (prompt_reply io) (ws_connect io) (ws_frames io) raises
       (history_reply io) (view_reply io).

(** A backend of which only the socket matters. *)
Definition socket_only (connect : result Z) (frames : list (Z * frame)) : backend_io :=
  mkIO (fun _ => Raise URLError) connect frames false
       (fun _ => Raise URLError) (fun _ _ _ => Raise URLError).

End Watch.

Module Handlers.
Import ToolPool Routers.

(** The calls a request adds to those made [before] it: none, or one
    increment and one decrement on the same backend around the run. *)
Definition bracketed (before after : list call) : Prop :=
  after = before \/
  exists b,
    after = before ++ [CallIncrement b; CallDecrement b] \/
    after = before ++ [CallIncrement b; CallRun b; CallDecrement b].

(** The calls of a request that does not come back: the increment has no
    decrement yet. *)
Definition left_open (before after : list call) : Prop :=
  exists b, after = before ++ [CallIncrement b; CallRun b].

(** The calls a request adds: none, or an increment and a decrement of
    the same backend around the run. *)
Definition bracket (added : list call) : Prop :=
  added = [] \/
  exists b,
    added = [CallIncrement b; CallDecrement b] \/
    added = [CallIncrement b; CallRun b; CallDecrement b].

(** The same call on the same backend. *)
Definition call_eqb (x y : call) : bool :=
  match x, y with
  | CallIncrement a, CallIncrement b
  | CallDecrement a, CallDecrement b
  | CallRun a, CallRun b
  | CallPreload a, CallPreload b => String.eqb a b
  | _, _ => false
  end.

(** How often [c] is among the calls. *)
Definition times (c : call) (l : list call) : nat :=
  List.length (filter (call_eqb c) l).

(** The calls are as they were. *)
Definition calls_are (c : list call) (w : world) : Prop := calls w = c.

(** Every registered backend has a tool. *)
Definition covered (w : world) : Prop :=
  forall a, In a (PyDict.keys (lb w)) -> In a (PyDict.keys (tools (pool w))).

(** An operation other threads make on the registry itself: anything but
    an addition, which goes through the pool. *)
Definition not_add (o : LoadBalancer.op) : bool :=
  match o with
  | LoadBalancer.OpAdd _ => false
  | _ => true
  end.

(** The registry has no other addresses than [known]. *)
Definition keys_within (known : list string) (servers : LoadBalancer.registry) : Prop :=
  forall a, In a (PyDict.keys servers) -> In a known.

Section Preload.
Variable env : environment.

(** How the preload of [wf] on the backend at [addr] ends. *)
Definition outcome (wf : ComfyuiTool.node_graph) (addr : string)
  : result (bool * ComfyuiTool.preload_info) :=
  fst (preload_on_server env wf (preload_timeout (settings env))
                         (addr, ComfyuiTool.new_tool addr)).

(** What it reports when it ends. *)
Definition report (wf : ComfyuiTool.node_graph) (addr : string)
  : bool * ComfyuiTool.preload_info :=
  match outcome wf addr with
  | Return r => r
  | _ => (false, ComfyuiTool.NoToolInstance)
  end.

(** The results, once every preload has ended: one entry per tool. *)
Definition results_of (wf : ComfyuiTool.node_graph) (addrs : list string)
  : PyDict.t (bool * ComfyuiTool.preload_info) :=
  fold_left (fun acc a => PyDict.set acc a (report wf a)) addrs [].

End Preload.

(** A template: an image is loaded by node ["10"] and saved by ["11"]. *)
Definition swap_workflow : ComfyuiTool.node_graph :=
  [("10", JDict [("class_type", JStr "LoadImage");
                 ("inputs", JDict [("image", JStr "face.png")])]);
   ("11", JDict [("class_type", JStr "SaveImage");
                 ("inputs", JDict [("images", JList [JStr "10"; JInt 0])])])].

(** A backend that runs job ["job"] and signals its end at 5; its history
    has one image. *)
Definition backend_ok : ComfyuiTool.backend_io :=
  ComfyuiTool.mkIO
    (fun _ => Return (JDict [("prompt_id", JStr "job")]))
    (Return 0)
    [(2, Watch.progress 1 4); (5, Watch.executing JNull "job")]
    false
    (fun _ => Return (JDict [("job", JDict [("outputs", JDict [
               ("11", JDict [("images", JList [JDict [("filename", JStr "out.png");
                                                      ("subfolder", JStr "");
                                                      ("type", JStr "output")]])])])])]))
    (fun _ _ _ => Return "PNG").

(** A backend that cannot be reached. *)
Definition backend_down : ComfyuiTool.backend_io :=
  ComfyuiTool.mkIO (fun _ => Raise URLError) (Raise WebSocketError) [] false
                   (fun _ => Raise URLError) (fun _ _ _ => Raise URLError).

(** A backend that takes the job and sends its first frame at 700. *)
Definition backend_slow : ComfyuiTool.backend_io :=
  ComfyuiTool.mkIO
    (fun _ => Return (JDict [("prompt_id", JStr "job")]))
    (Return 0) [(700, Watch.progress 1 4)] false
    (fun _ => Raise URLError) (fun _ _ _ => Raise URLError).

(** A rendering for the samples: [str(e)] is the message of a
    [RuntimeError] that has no value in it; the other texts are left out. *)
Definition sample_str_exn (e : exn) : string :=
  match e with
  | RuntimeError msg None => msg
  | _ => "..."
  end.

Definition sample_str_results (results : PyDict.t (bool * ComfyuiTool.preload_info))
  : string := "{...}".

(** Scenario 6 of the specification: three backends, of which ["B"] is
    down. *)
Definition three_backends (meanwhile : list LoadBalancer.op) : environment :=
  mkEnv default_settings (@rev _) Watch.eq_scalars
        (fun addr => if String.eqb addr "B" then backend_down else backend_ok)
        (ComfyuiTool.mkDir true true) meanwhile sample_str_exn sample_str_results.

(** Backends that are all too slow. *)
Definition slow_backends : environment :=
  mkEnv default_settings (@rev _) Watch.eq_scalars (fun _ => backend_slow)
        (ComfyuiTool.mkDir true true) [] sample_str_exn sample_str_results.

(** The one template [swap.json], and files that can be written. *)
Definition files : filesystem :=
  mkFs (fun video name =>
          if String.eqb name "swap.json" then Some (Return swap_workflow) else None)
       "upload.png" "processed.png" (Return tt) (Return tt)
       (fun b => Return b) (Return tt).

(** [main.py], with three servers configured. *)
Definition started : world :=
  let servers := LoadBalancer.init ["A"; "B"; "C"] in
  mkWorld servers (ToolPool.init servers) [].

(** The world once [swap.json] is loaded in video mode (no preload). *)
Definition loaded_world : world :=
  snd (load_template (three_backends []) files "swap.json" "video" started).

End Handlers.

(** A computation that comes back, whatever the state it starts in. *)
Definition no_hang {S A} (m : M S A) : Prop := forall s, fst (m s) <> Hang.

Module HealthCheck.
Import LoadBalancer.

(** What a probe may change of a status: anything but the address and the
    count of jobs in flight. *)
Definition same_tasks (st st' : ComfyUIServerStatus) : Prop :=
  server_address st' = server_address st /\ current_tasks st' = current_tasks st.

(** What a probe of [a] leaves as it is in the registry: the addresses and
    their order, every other backend, and for [a] what [same_tasks] says. *)
Definition probe_frame (a : string) (servers servers' : registry) : Prop :=
  PyDict.keys servers' = PyDict.keys servers /\
  (forall b, b <> a -> PyDict.get servers' b = PyDict.get servers b) /\
  (forall st, PyDict.get servers a = Some st ->
              exists st', PyDict.get servers' a = Some st' /\ same_tasks st st').

(** No other thread touches the registry before the probes of [addrs]. *)
Definition quiet_until (round : round_env) (addrs : list string) : Prop :=
  forall b, In b addrs -> probe_before (at_probe round b) = [].

(** A probe, among the operations on a registry. *)
Definition is_probe (o : op) : bool :=
  match o with
  | OpProbe _ _ _ => true
  | _ => false
  end.

(** The in-flight count of [b], when it is registered. *)
Definition tasks_at (servers : registry) (b : string) : option Z :=
  option_map current_tasks (PyDict.get servers b).

(** A round during which no other thread touches the registry. *)
Definition quiet_round (round : round_env) : Prop :=
  (forall b, probe_before (at_probe round b) = []) /\ asleep round = [].

(** A quiet round in which no backend answers. *)
Definition failing_round : round_env :=
  mkRound (fun _ => mkProbe [] (HttpRaise URLError) 0) [].

(** A round during which backend [a] is removed before it is probed; no
    backend answers. *)
Definition removal_round (a : string) : round_env :=
  mkRound (fun b => mkProbe (if String.eqb b a then [OpRemove a] else [])
                            (HttpRaise URLError) 0)
          [].

End HealthCheck.

Module Video.
Import ComfyuiTool.

(** [class_type] is one of the three video loaders. *)
Definition load_video (node : json) : bool :=
  match node with
  | JDict n =>
      is_str (PyDict.get n "class_type") "LoadVideo" ||
      is_str (PyDict.get n "class_type") "VHS_LoadVideo" ||
      is_str (PyDict.get n "class_type") "LoadVideoPath"
  | _ => false
  end.

(** The [inputs] of the target after the rewrite. *)
Definition video_inputs (filename : string) (i : PyDict.t json) : PyDict.t json :=
  if PyDict.mem i "video" then PyDict.set i "video" (JStr filename)
  else if PyDict.mem i "video_path" then PyDict.set i "video_path" (JStr filename)
       else PyDict.set i "video" (JStr filename).

(** The graph has no video loader under the id [target]: no node of that
    id, or a node that is a record of another class. *)
Definition no_video_target (target : string) (wf : node_graph) : Prop :=
  forall node, In (target, node) wf ->
               load_video node = false /\ exists n, node = JDict n.

(** A video template whose first entry is not even a node. *)
Definition video_workflow : node_graph :=
  [("1", JNull);
   ("2", JDict [("class_type", JStr "VHS_LoadVideo");
                ("inputs", JDict [("video_path", JStr "old.mp4"); ("fps", JInt 8)])]);
   ("3", JDict [("class_type", JStr "LoadVideo");
                ("inputs", JDict [("video", JStr "other.mp4")])])].

End Video.

Module Preload.
Import ComfyuiTool Rewrite.

(** What the preload does to one node. *)
Definition preload_node (placeholder : string) (node : json) : json :=
  match node with
  | JDict n =>
      if load_image node
      then JDict (PyDict.set n "inputs"
                    (JDict (replace_inputs placeholder (inputs_of n))))
      else node
  | _ => node
  end.

End Preload.

Module Pool.
Import ToolPool Routers.

(** Every tool of the pool is stored under its own address. *)
Definition keyed (w : world) : Prop :=
  forall a tool, In (a, tool) (tools (pool w)) -> ComfyuiTool.server_address tool = a.

(** Once a workflow is loaded, every tool of the pool holds it. *)
Definition synced (w : world) : Prop :=
  loaded (workflow (pool w)) = true ->
  forall a tool, In (a, tool) (tools (pool w)) ->
                 ComfyuiTool.workflow tool = workflow (pool w).

(** A property of the world that only the pool decides. *)
Definition pool_only (I : world -> Prop) : Prop :=
  forall w w', pool w' = pool w -> I w -> I w'.

(** The world of [main.py] for the configured addresses. *)
Definition startup (server_addresses : list string) : world :=
  mkWorld (LoadBalancer.init server_addresses)
          (ToolPool.init (LoadBalancer.init server_addresses)) [].

(** The backend a response names. *)
Definition server_used (r : response) : option string :=
  match r with
  | NoOutput _ s | Processed _ _ _ s => Some s
  | _ => None
  end.

(** A backend that takes the job and then sends nothing. *)
Definition backend_silent : ComfyuiTool.backend_io :=
  ComfyuiTool.mkIO
    (fun _ => Return (JDict [("prompt_id", JStr "job")]))
    (Return 0) [] false
    (fun _ => Raise URLError) (fun _ _ _ => Raise URLError).

Definition silent_backends : environment :=
  mkEnv default_settings (@rev _) Watch.eq_scalars (fun _ => backend_silent)
        (ComfyuiTool.mkDir true true) []
        Handlers.sample_str_exn Handlers.sample_str_results.

End Pool.

Module Template.
Import ToolPool Routers Handlers Pool.

(** The preload of [wf] on the backend at [addr] succeeds. *)
Definition preloads (env : environment) (wf : ComfyuiTool.node_graph) (addr : string)
  : Prop :=
  exists info, outcome env wf addr = Return (true, info).

(** [load_template] in image mode as the specification words it, over the
    registered backends: it fails with a 500 exactly when no backend
    preloads, and returns the outcomes as soon as one backend does. *)
Definition fails_iff_none_preloads (env : environment) (fs : filesystem)
           (template : string) (w : world) (wf : ComfyuiTool.node_graph) : Prop :=
  let run := load_template env fs template "image" w in
  ((exists detail, fst run = Raise (HTTPException 500 detail)) <->
   forall a, In a (PyDict.keys (lb w)) -> ~ preloads env wf a) /\
  ((exists a, In a (PyDict.keys (lb w)) /\ preloads env wf a) ->
   exists results, fst run = Return (TemplateLoaded "image" (Some results))).

(** Three backends, of which ["B"] takes the job and then stays silent. *)
Definition one_silent : environment :=
  mkEnv default_settings (@rev _) Watch.eq_scalars
        (fun addr => if String.eqb addr "B" then backend_silent else backend_ok)
        (ComfyuiTool.mkDir true true) [] sample_str_exn sample_str_results.

(** Three backends, of which only ["C"] is up. *)
Definition only_c_up : environment :=
  mkEnv default_settings (@rev _) Watch.eq_scalars
        (fun addr => if String.eqb addr "C" then backend_ok else backend_down)
        (ComfyuiTool.mkDir true true) [] sample_str_exn sample_str_results.

End Template.


(* ===================================================================== *)
(** * Facts about dictionaries and sorting *)
(* ===================================================================== *)

Module PyStrFacts.
#[local] Open Scope string_scope.

Lemma prefix_iff sub s : prefix sub s = true <-> exists q, s = sub ++ q.
Proof.
  revert s. induction sub as [|c sub IH]; intros s; simpl.
  - split; [intros _; now exists s | intros _; now destruct s].
  - destruct s as [|c' s]; simpl.
    + split; [discriminate | intros (q & H); discriminate].
    + destruct (Ascii.ascii_dec c c') as [->|Hne].
      * rewrite IH. split; intros (q & H); exists q; [now subst | now injection H].
      * split; [discriminate | intros (q & H); injection H; congruence].
Qed.

(** [sub in s]: [s] is some [p ++ sub ++ q]. *)
Lemma contains_iff sub s :
  PyStr.contains sub s = true <-> exists p q, s = p ++ sub ++ q.
Proof.
  induction s as [|c s IH].
  - change (PyStr.contains sub "") with (prefix sub "" || false).
    rewrite orb_false_r, prefix_iff. split.
    + intros (q & H). now exists "", q.
    + intros (p & q & H). destruct p; [now exists q | discriminate].
  - change (PyStr.contains sub (String c s))
      with (prefix sub (String c s) || PyStr.contains sub s).
    rewrite orb_true_iff, prefix_iff, IH. split.
    + intros [(q & H) | (p & q & H)].
      * now exists "", q.
      * exists (String c p), q. simpl. now rewrite H.
    + intros (p & q & H). destruct p as [|c' p]; simpl in H.
      * left. now exists q.
      * right. injection H as _ H. now exists p, q.
Qed.

Lemma length_append p q : String.length (p ++ q) = (String.length p + String.length q)%nat.
Proof. induction p; simpl; auto. Qed.

Lemma substring_all s : substring 0 (String.length s) s = s.
Proof. induction s; simpl; congruence. Qed.

Lemma substring_skip p s m :
  substring (String.length p) m (p ++ s) = substring 0 m s.
Proof. induction p; simpl; auto. Qed.

Lemma substring_split n s :
  (n <= String.length s)%nat ->
  s = substring 0 n s ++ substring n (String.length s - n) s.
Proof.
  revert n. induction s as [|c s IH]; intros n Hn; simpl in *.
  - destruct n; [reflexivity | lia].
  - destruct n as [|n]; simpl.
    + now rewrite substring_all.
    + f_equal. apply IH. lia.
Qed.

(** [s.endswith(suffix)]: [s] is some [p ++ suffix]. *)
Lemma endswith_iff s suffix :
  PyStr.endswith s suffix = true <-> exists p, s = p ++ suffix.
Proof.
  unfold PyStr.endswith. rewrite andb_true_iff, Nat.leb_le, String.eqb_eq. split.
  - intros [Hle E].
    exists (substring 0 (String.length s - String.length suffix) s).
    remember (String.length suffix) as m eqn:Hm. rewrite <- E.
    pose proof (substring_split (String.length s - m) s) as H.
    replace (String.length s - (String.length s - m))%nat with m in H by lia.
    apply H. lia.
  - intros (p & ->). rewrite length_append. split; [lia|].
    replace (String.length p + String.length suffix - String.length suffix)%nat
      with (String.length p) by lia.
    rewrite substring_skip. apply substring_all.
Qed.
End PyStrFacts.

Module PyDictFacts.
Section Facts.
Context {V : Type}.
Implicit Types (d : PyDict.t V) (k : string) (v : V).

Lemma get_set_same d k v : PyDict.get (PyDict.set d k v) k = Some v.
Proof.
  induction d as [|[k' v'] d IH]; simpl.
  - now rewrite String.eqb_refl.
  - destruct (String.eqb k' k) eqn:E; simpl; now rewrite E.
Qed.

Lemma get_set_other d k k' v :
  k <> k' -> PyDict.get (PyDict.set d k v) k' = PyDict.get d k'.
Proof.
  intros Hne. induction d as [|[k0 v0] d IH]; simpl.
  - destruct (String.eqb_spec k k'); [contradiction | reflexivity].
  - destruct (String.eqb_spec k0 k) as [->|Hk]; simpl.
    + destruct (String.eqb_spec k k'); [contradiction | reflexivity].
    + now rewrite IH.
Qed.

Lemma get_set d k k' v :
  PyDict.get (PyDict.set d k v) k' =
  if String.eqb k k' then Some v else PyDict.get d k'.
Proof.
  destruct (String.eqb_spec k k') as [->|Hne].
  - apply get_set_same.
  - now apply get_set_other.
Qed.

Lemma keys_set_present d k v :
  PyDict.mem d k = true -> PyDict.keys (PyDict.set d k v) = PyDict.keys d.
Proof.
  unfold PyDict.mem, PyDict.keys.
  induction d as [|[k' v'] d IH]; simpl; [discriminate|].
  destruct (String.eqb k' k) eqn:E; simpl; intros H; [reflexivity|].
  now rewrite IH.
Qed.

Lemma keys_set_absent d k v :
  PyDict.mem d k = false -> PyDict.keys (PyDict.set d k v) = PyDict.keys d ++ [k].
Proof.
  unfold PyDict.mem, PyDict.keys.
  induction d as [|[k' v'] d IH]; simpl; [reflexivity|].
  destruct (String.eqb k' k) eqn:E; simpl; intros H; [discriminate|].
  now rewrite IH.
Qed.

Lemma mem_in_keys d k : PyDict.mem d k = true <-> In k (PyDict.keys d).
Proof.
  unfold PyDict.mem, PyDict.keys.
  induction d as [|[k' v'] d IH]; simpl.
  - split; [discriminate | contradiction].
  - destruct (String.eqb_spec k' k) as [->|Hne].
    + split; auto.
    + rewrite IH. split; [auto | intros [H|H]; [contradiction | assumption]].
Qed.

Lemma get_in d k v : PyDict.get d k = Some v -> In (k, v) d.
Proof.
  induction d as [|[k' v'] d IH]; simpl; [discriminate|].
  destruct (String.eqb_spec k' k) as [->|Hne].
  - intros [= ->]. now left.
  - intros H. right. now apply IH.
Qed.

Lemma in_get d k v : PyDict.wf d -> In (k, v) d -> PyDict.get d k = Some v.
Proof.
  unfold PyDict.wf, PyDict.keys.
  induction d as [|[k' v'] d IH]; simpl; [contradiction|].
  intros Hnd [H|H].
  - injection H as -> ->. now rewrite String.eqb_refl.
  - inversion Hnd as [|? ? Hnotin Hnd']; subst.
    destruct (String.eqb_spec k' k) as [->|Hne].
    + exfalso. apply Hnotin. change k with (fst (k, v)). now apply in_map.
    + now apply IH.
Qed.

Lemma wf_set d k v : PyDict.wf d -> PyDict.wf (PyDict.set d k v).
Proof.
  unfold PyDict.wf. intros H.
  destruct (PyDict.mem d k) eqn:E.
  - now rewrite keys_set_present.
  - rewrite keys_set_absent by assumption.
    apply NoDup_app; [assumption | repeat constructor; auto | ].
    intros x Hx [<-|[]]. apply mem_in_keys in Hx. congruence.
Qed.

Lemma get_del_same d k : PyDict.get (PyDict.del d k) k = None.
Proof.
  unfold PyDict.del.
  induction d as [|[k' v'] d IH]; simpl; [reflexivity|].
  destruct (String.eqb k' k) eqn:E; simpl; [assumption|].
  now rewrite E.
Qed.

Lemma get_del_other d k k' :
  k <> k' -> PyDict.get (PyDict.del d k) k' = PyDict.get d k'.
Proof.
  intros Hne. unfold PyDict.del.
  induction d as [|[k0 v0] d IH]; simpl; [reflexivity|].
  destruct (String.eqb_spec k0 k) as [->|Hk]; simpl.
  - destruct (String.eqb_spec k k'); [contradiction | assumption].
  - now rewrite IH.
Qed.

Lemma set_get_id d k v : PyDict.get d k = Some v -> PyDict.set d k v = d.
Proof.
  induction d as [|[k' v'] d IH]; simpl; [discriminate|].
  destruct (String.eqb_spec k' k) as [->|Hne].
  - now intros [= ->].
  - intros H. now rewrite IH.
Qed.

Lemma set_set d k v1 v2 :
  PyDict.set (PyDict.set d k v1) k v2 = PyDict.set d k v2.
Proof.
  induction d as [|[k' v'] d IH]; simpl.
  - now rewrite String.eqb_refl.
  - destruct (String.eqb k' k) eqn:E; simpl; rewrite E; [reflexivity|].
    now rewrite IH.
Qed.

Lemma set_absent d k v :
  PyDict.mem d k = false -> PyDict.set d k v = d ++ [(k, v)].
Proof.
  unfold PyDict.mem.
  induction d as [|[k' v'] d IH]; simpl; [reflexivity|].
  destruct (String.eqb k' k); [discriminate|]. intros H. now rewrite IH.
Qed.

Lemma set_middle (pre post : PyDict.t V) k v v' :
  ~ In k (PyDict.keys pre) ->
  PyDict.set (pre ++ (k, v) :: post) k v' = pre ++ (k, v') :: post.
Proof.
  induction pre as [|[k0 v0] pre IH]; simpl; intros Hnot.
  - now rewrite String.eqb_refl.
  - destruct (String.eqb_spec k0 k) as [->|Hne].
    + exfalso. apply Hnot. now left.
    + rewrite IH; [reflexivity|]. intros Hin. apply Hnot. now right.
Qed.

Lemma get_middle (pre post : PyDict.t V) k v :
  ~ In k (PyDict.keys pre) ->
  PyDict.get (pre ++ (k, v) :: post) k = Some v.
Proof.
  induction pre as [|[k0 v0] pre IH]; simpl; intros Hnot.
  - now rewrite String.eqb_refl.
  - destruct (String.eqb_spec k0 k) as [->|Hne].
    + exfalso. apply Hnot. now left.
    + apply IH. intros Hin. apply Hnot. now right.
Qed.

Lemma Forall_set (P : string * V -> Prop) d k v :
  Forall P d -> (forall k', P (k', v)) -> Forall P (PyDict.set d k v).
Proof.
  intros Hd Hv. induction Hd as [|[k' v'] d Hx Hd IH]; simpl.
  - constructor; [apply Hv | constructor].
  - destruct (String.eqb k' k); constructor; auto.
Qed.

Lemma wf_del d k : PyDict.wf d -> PyDict.wf (PyDict.del d k).
Proof.
  unfold PyDict.wf, PyDict.keys, PyDict.del.
  induction d as [|[k' v'] d IH]; simpl; intros H; [constructor|].
  inversion H as [|? ? Hnotin Hnd]; subst.
  destruct (String.eqb k' k); simpl; [now apply IH|].
  constructor; [|now apply IH].
  intros Hin. apply Hnotin. apply in_map_iff in Hin.
  destruct Hin as (kv & E & Hf). apply filter_In in Hf.
  rewrite <- E. apply in_map. tauto.
Qed.

Lemma Forall_del (P : string * V -> Prop) d k :
  Forall P d -> Forall P (PyDict.del d k).
Proof.
  intros Hd. unfold PyDict.del. apply Forall_forall. intros x Hx.
  apply filter_In in Hx. destruct Hx as [Hx _].
  revert x Hx. now apply Forall_forall.
Qed.

End Facts.
End PyDictFacts.

Module SortFacts.
Section Facts.
Context {A : Type} (key : A -> Z).

Lemma insert_by_key_perm x l : Permutation (x :: l) (insert_by_key key x l).
Proof.
  induction l as [|y l IH]; simpl; [reflexivity|].
  destruct (key x <=? key y); [reflexivity|].
  rewrite perm_swap. now constructor.
Qed.

Lemma sort_by_key_perm l : Permutation l (sort_by_key key l).
Proof.
  induction l as [|x l IH]; simpl; [constructor|].
  rewrite <- insert_by_key_perm. now constructor.
Qed.

Lemma insert_by_key_head_least x l :
  head_least key l -> head_least key (insert_by_key key x l).
Proof.
  destruct l as [|y l]; simpl.
  - intros _ z [<-|[]]. lia.
  - intros Hy. destruct (Z.leb_spec (key x) (key y)); simpl.
    + intros z [<-|Hz]; [lia|]. specialize (Hy z Hz). lia.
    + intros z [<-|Hz]; [lia|].
      apply (Permutation_in _ (Permutation_sym (insert_by_key_perm x l))) in Hz.
      destruct Hz as [<-|Hz]; [lia|]. apply Hy. now right.
Qed.

Lemma sort_by_key_head_least l : head_least key (sort_by_key key l).
Proof.
  induction l as [|x l IH]; simpl; [exact I|].
  now apply insert_by_key_head_least.
Qed.

(** [sort_by_key] is the stable sort: its result is in ascending order of
    the keys, and the elements of one key keep the order they had. *)
Lemma insert_by_key_sorted x l :
  Sorted (fun a b => key a <= key b) l ->
  Sorted (fun a b => key a <= key b) (insert_by_key key x l).
Proof.
  induction 1 as [|y l Hl IH Hy]; simpl.
  - repeat constructor.
  - destruct (Z.leb_spec (key x) (key y)).
    + repeat constructor; assumption.
    + constructor; [exact IH|].
      destruct l as [|z l]; simpl.
      * constructor. lia.
      * destruct (Z.leb_spec (key x) (key z)); constructor; [lia|].
        now inversion Hy.
Qed.

Lemma sort_by_key_sorted l :
  Sorted (fun a b => key a <= key b) (sort_by_key key l).
Proof.
  induction l as [|x l IH]; simpl; [constructor|].
  now apply insert_by_key_sorted.
Qed.

Lemma insert_by_key_among k x l :
  filter (fun y => key y =? k) (insert_by_key key x l) =
  if key x =? k then x :: filter (fun y => key y =? k) l
  else filter (fun y => key y =? k) l.
Proof.
  induction l as [|y l IH]; simpl; [reflexivity|].
  destruct (Z.leb_spec (key x) (key y)); simpl; [reflexivity|].
  rewrite IH.
  destruct (Z.eqb_spec (key x) k); [|reflexivity].
  destruct (Z.eqb_spec (key y) k); [lia | reflexivity].
Qed.

Lemma sort_by_key_stable k l :
  filter (fun y => key y =? k) (sort_by_key key l) =
  filter (fun y => key y =? k) l.
Proof.
  induction l as [|x l IH]; simpl; [reflexivity|].
  rewrite insert_by_key_among, IH. reflexivity.
Qed.

End Facts.
End SortFacts.


(* ===================================================================== *)
(** * The selector *)
(* ===================================================================== *)

Module SelectorFacts.
Import LoadBalancer PyDictFacts SortFacts Selector.

Lemma get_best_server_available shuffle servers x rest :
  filter available servers = x :: rest ->
  get_best_server shuffle servers =
  match sort_by_key load_key (shuffle (x :: rest)) with
  | best :: _ => Some (fst best)
  | [] => None
  end.
Proof.
  unfold get_best_server. fold available. intros ->. reflexivity.
Qed.

(** With some backend available, the selector returns an available backend
    of least total load. *)
Lemma get_best_server_least shuffle servers :
  (forall l, Permutation l (shuffle l)) ->
  filter available servers <> [] ->
  exists best st,
    get_best_server shuffle servers = Some best /\
    In (best, st) servers /\ is_available st = true /\
    forall b sb, In (b, sb) servers -> is_available sb = true ->
                 total_load st <= total_load sb.
Proof.
  intros Hperm Hne.
  destruct (filter available servers) as [|x rest] eqn:Hav; [congruence|].
  rewrite (get_best_server_available _ _ _ _ Hav).
  assert (Hp : Permutation (x :: rest) (sort_by_key load_key (shuffle (x :: rest)))).
  { etransitivity; [apply Hperm | apply sort_by_key_perm]. }
  pose proof (sort_by_key_head_least load_key (shuffle (x :: rest))) as Hmin.
  destruct (sort_by_key load_key (shuffle (x :: rest))) as [|[best st] sorted].
  - apply Permutation_sym, Permutation_nil in Hp. discriminate.
  - assert (Hin : In (best, st) (filter available servers)).
    { rewrite Hav. apply (Permutation_in _ (Permutation_sym Hp)). now left. }
    apply filter_In in Hin. destruct Hin as [Hin Hst].
    exists best, st. repeat split; auto.
    intros b sb Hb Hsb.
    apply (Hmin (b, sb)).
    apply (Permutation_in _ Hp). rewrite <- Hav.
    apply filter_In. split; assumption.
Qed.

(** C3: for every registry with an available backend and every permutation
    the shuffle may produce, [get_best_server] returns the address of an
    available backend whose total load is least among the available ones;
    so when [a] and [b] are available and [a] carries strictly less load,
    [b] is not returned. *)
Theorem get_best_server_least_loaded :
  forall (shuffle : list (string * ComfyUIServerStatus) ->
                    list (string * ComfyUIServerStatus))
         (servers : registry),
    (forall l, Permutation l (shuffle l)) ->
    PyDict.wf servers ->
    (exists a sa, In (a, sa) servers /\ is_available sa = true) ->
    (exists best st,
        get_best_server shuffle servers = Some best /\
        PyDict.get servers best = Some st /\
        is_available st = true /\
        total_load st = queue_remaining st + queue_pending st + current_tasks st /\
        forall b sb, PyDict.get servers b = Some sb -> is_available sb = true ->
                     total_load st <= total_load sb) /\
    (forall a sa b sb,
        PyDict.get servers a = Some sa -> is_available sa = true ->
        PyDict.get servers b = Some sb -> is_available sb = true ->
        total_load sa < total_load sb ->
        get_best_server shuffle servers <> Some b).
Proof.
  intros shuffle servers Hperm Hwf (a0 & s0 & Hin0 & Hav0).
  assert (Hne : filter available servers <> []).
  { intros E. assert (H : In (a0, s0) (filter available servers))
      by (apply filter_In; split; assumption).
    rewrite E in H. contradiction. }
  destruct (get_best_server_least shuffle servers Hperm Hne)
    as (best & st & Hbest & Hin & Hav & Hmin).
  split.
  - exists best, st. repeat split; auto.
    + now apply in_get.
    + intros b sb Hb Hsb. apply (Hmin b sb); auto. now apply get_in.
  - intros a sa b sb Ha Hsa Hb Hsb Hlt Hsel.
    rewrite Hbest in Hsel. injection Hsel as ->.
    apply (in_get _ _ _ Hwf) in Hin. rewrite Hb in Hin. injection Hin as ->.
    specialize (Hmin a sa (get_in _ _ _ Ha) Hsa). lia.
Qed.

Lemma get_best_server_least_loaded_witness :
  get_best_server (@rev _) two_backends = Some "127.0.0.1:8166" /\
  get_best_server (@rev _) two_backends <> Some "127.0.0.1:8155".
Proof.
  pose proof (get_best_server_least_loaded (@rev _) two_backends) as H.
  destruct H as [_ H].
  - intros l. apply Permutation_rev.
  - unfold PyDict.wf. simpl. repeat constructor; simpl; intuition discriminate.
  - exists "127.0.0.1:8155", (mkStatus "127.0.0.1:8155" true 2 3 1 0 0).
    split; [now left | reflexivity].
  - split; [reflexivity|].
    apply (H "127.0.0.1:8166" (mkStatus "127.0.0.1:8166" true 0 1 0 0 0)
             "127.0.0.1:8155" (mkStatus "127.0.0.1:8155" true 2 3 1 0 0));
      try reflexivity.
Defined.

Lemma filter_available_nil servers :
  (forall a st, In (a, st) servers -> is_available st = false) ->
  filter available servers = [].
Proof.
  intros H. induction servers as [|[a st] servers IH]; simpl; [reflexivity|].
  unfold available at 1. simpl. rewrite (H a st) by now left.
  apply IH. intros a' st' Hin. apply (H a' st'). now right.
Qed.

(** C4: when no registered backend is available, [get_best_server] returns
    the first address of the registry in insertion order, and [None] only
    for the empty registry; with the shuffle a permutation, a registry that
    has a backend always gets an answer. *)
Theorem get_best_server_none_available :
  forall (shuffle : list (string * ComfyUIServerStatus) ->
                    list (string * ComfyUIServerStatus))
         (servers : registry),
    (forall a st, In (a, st) servers -> is_available st = false) ->
    get_best_server shuffle servers = hd_error (PyDict.keys servers) /\
    (get_best_server shuffle servers = None <-> servers = []) /\
    ((forall l, Permutation l (shuffle l)) ->
     forall servers' : registry,
       servers' <> [] -> get_best_server shuffle servers' <> None).
Proof.
  intros shuffle servers Hnone.
  assert (E : get_best_server shuffle servers = hd_error (PyDict.keys servers)).
  { unfold get_best_server. fold available.
    rewrite (filter_available_nil _ Hnone).
    destruct servers as [|[a st] servers]; reflexivity. }
  split; [exact E|]. split.
  - rewrite E. destruct servers as [|[a st] servers]; simpl.
    + split; reflexivity.
    + split; discriminate.
  - intros Hperm servers' Hne.
    destruct (filter available servers') as [|x rest] eqn:Hav.
    + unfold get_best_server. fold available. rewrite Hav.
      destruct servers' as [|[a st] servers']; [congruence | discriminate].
    + destruct (get_best_server_least shuffle servers' Hperm) as (b & st & -> & _).
      * rewrite Hav. discriminate.
      * discriminate.
Qed.

Lemma get_best_server_none_available_witness :
  get_best_server (@rev _) two_backends_down = Some "A".
Proof.
  refine (proj1 (get_best_server_none_available (@rev _) two_backends_down _)).
  intros a st [H|[H|[]]]; injection H as <- <-; reflexivity.
Defined.

(** Scenarios 1 and 2 of the specification: of two idle backends the one
    that got the first request is not chosen for the second; an unavailable
    backend is passed over for a loaded one. *)
Example second_request_goes_elsewhere :
  forall first,
    get_best_server (@rev _) (init ["A"; "B"]) = Some first ->
    get_best_server (@rev _) (snd (increment_task first (init ["A"; "B"]))) = Some "A" /\
    first = "B".
Proof. intros first [= <-]. split; reflexivity. Qed.

Example unavailable_is_passed_over :
  get_best_server (@rev _)
    [("A", mkStatus "A" false 0 0 0 0 3); ("B", mkStatus "B" true 3 2 0 0 0)] = Some "B".
Proof. reflexivity. Qed.

End SelectorFacts.


(* ===================================================================== *)
(** * The registry: probes and task accounting *)
(* ===================================================================== *)

Module MonadFacts.
Section Facts.
Context {S : Type} (I : S -> Prop).

Lemma preserves_ret {A} (a : A) : preserves I (ret a).
Proof. intros s H. exact H. Qed.

Lemma preserves_raise {A} e : preserves I (@raise S A e).
Proof. intros s H. exact H. Qed.

Lemma preserves_lift {A} (r : result A) : preserves I (lift r).
Proof. intros s H. exact H. Qed.

Lemma preserves_modify (f : S -> S) :
  (forall s, I s -> I (f s)) -> preserves I (modify f).
Proof. intros Hf s H. now apply Hf. Qed.

Lemma preserves_bind {A B} (m : M S A) (f : A -> M S B) :
  preserves I m -> (forall a, preserves I (f a)) -> preserves I (bind m f).
Proof.
  intros Hm Hf s H. unfold bind. specialize (Hm s H).
  destruct (m s) as [[a|e|] s']; simpl in *; auto. now apply Hf.
Qed.

Lemma preserves_try_except {A} (m : M S A) (h : exn -> M S A) :
  preserves I m -> (forall e, preserves I (h e)) -> preserves I (try_except m h).
Proof.
  intros Hm Hh s H. unfold try_except. specialize (Hm s H).
  destruct (m s) as [[a|e|] s']; simpl in *; auto. now apply Hh.
Qed.

Lemma preserves_try_finally {A} (m : M S A) (final : M S unit) :
  preserves I m -> preserves I final -> preserves I (try_finally m final).
Proof.
  intros Hm Hf s H. unfold try_finally. specialize (Hm s H).
  destruct (m s) as [[a|e|] s']; simpl in *; auto;
    specialize (Hf s' Hm); destruct (final s') as [[u|e'|] s'']; simpl in *; auto.
Qed.

End Facts.
End MonadFacts.

Ltac preserve :=
  repeat match goal with
         | |- preserves _ (bind _ _) => apply MonadFacts.preserves_bind; [|intros ?]
         | |- preserves _ (try_except _ _) =>
             apply MonadFacts.preserves_try_except; [|intros ?]
         | |- preserves _ (try_finally _ _) => apply MonadFacts.preserves_try_finally
         | |- preserves _ (ret _) => apply MonadFacts.preserves_ret
         | |- preserves _ (raise _) => apply MonadFacts.preserves_raise
         | |- preserves _ (lift _) => apply MonadFacts.preserves_lift
         end.

Module RegistryFacts.
Import LoadBalancer PyDictFacts Registry.

Lemma assign_present a f (servers : registry) st :
  PyDict.get servers a = Some st ->
  assign a f servers = (Return tt, PyDict.set servers a (f st)).
Proof. intros H. unfold assign, modify. now rewrite H. Qed.

Lemma assign_absent a f (servers : registry) :
  PyDict.get servers a = None -> assign a f servers = (Return tt, servers).
Proof. intros H. unfold assign, modify. now rewrite H. Qed.

(** ** One probe *)

Lemma mark_server_error_present settings a (servers : registry) st :
  PyDict.get servers a = Some st ->
  _mark_server_error settings a servers =
  (Return tt, PyDict.set servers a (after_failure settings st)).
Proof.
  intros H. unfold _mark_server_error, bind, getitem. rewrite H.
  rewrite (assign_present _ _ _ _ H).
  unfold after_failure.
  destruct (max_error_count settings <=? error_count st + 1).
  - rewrite (assign_present _ _ _ _ (get_set_same _ _ _)), set_set. reflexivity.
  - unfold ret. destruct st; reflexivity.
Qed.

Lemma update_failure settings reply now a (servers : registry) st :
  PyDict.get servers a = Some st ->
  probe_failed reply ->
  _update_server_status settings reply now a servers =
  (Return tt, PyDict.set servers a (after_failure settings st)).
Proof.
  intros H Hf. unfold _update_server_status, try_except.
  destruct reply as [e|code body]; simpl in Hf.
  - unfold raise. now apply mark_server_error_present.
  - destruct (Z.eqb_spec code 200) as [->|_]; [contradiction|].
    now rewrite (mark_server_error_present _ _ _ _ H).
Qed.

Lemma update_success settings body running pending now a (servers : registry) st :
  PyDict.get servers a = Some st ->
  queue_body body running pending ->
  _update_server_status settings (HttpResponse 200 (Some (JDict body))) now a servers =
  (Return tt, PyDict.set servers a (after_success st running pending now)).
Proof.
  intros H [Hr Hp]. unfold _update_server_status, try_except.
  change (200 =? 200) with true. cbv iota.
  unfold bind at 1. unfold lift at 1.
  unfold bind at 1. unfold getitem. rewrite H.
  unfold bind at 1. unfold lift at 1. rewrite Hr.
  unfold bind at 1. unfold lift at 1. rewrite Hp.
  unfold bind at 1. unfold lift at 1. unfold py_len at 1.
  unfold bind at 1. rewrite (assign_present _ _ _ _ H).
  unfold bind at 1. unfold lift at 1. unfold py_len at 1.
  unfold bind at 1. rewrite (assign_present _ _ _ _ (get_set_same _ _ _)), set_set.
  unfold bind at 1. rewrite (assign_present _ _ _ _ (get_set_same _ _ _)), set_set.
  unfold bind at 1. rewrite (assign_present _ _ _ _ (get_set_same _ _ _)), set_set.
  rewrite (assign_present _ _ _ _ (get_set_same _ _ _)), set_set.
  reflexivity.
Qed.

Lemma failures_count settings b replies :
  Forall (fun r => probe_failed (fst r)) replies ->
  forall (servers : registry) st,
    PyDict.get servers b = Some st ->
    is_available st = (error_count st <? max_error_count settings) ->
    exists st',
      PyDict.get (run_ops settings (probes b replies) servers) b = Some st' /\
      error_count st' = error_count st + Z.of_nat (List.length replies) /\
      is_available st' = (error_count st' <? max_error_count settings).
Proof.
  induction 1 as [|[reply now] replies Hf _ IH]; intros servers st Hget Hinv.
  - exists st. simpl. repeat split; auto. lia.
  - simpl in Hf. cbn [probes map run_ops fold_left run_op fst snd].
    rewrite (update_failure _ _ _ _ _ _ Hget Hf). cbn [snd].
    destruct (IH (PyDict.set servers b (after_failure settings st))
                 (after_failure settings st)) as (st' & Hst' & Hc & Ha).
    + apply get_set_same.
    + unfold after_failure; simpl. rewrite Hinv.
      destruct (Z.leb_spec (max_error_count settings) (error_count st + 1));
        destruct (Z.ltb_spec (error_count st + 1) (max_error_count settings));
        destruct (Z.ltb_spec (error_count st) (max_error_count settings));
        try reflexivity; lia.
    + exists st'. split; [exact Hst'|]. split; [|exact Ha].
      rewrite Hc. unfold after_failure; simpl.
      change (List.length ((reply, now) :: replies)) with (S (List.length replies)).
      lia.
Qed.

(** C6: a successful probe of [b] (status 200, a body with the two queues)
    records the two lengths, makes [b] available, resets the error count
    and stores the time of the check; a failed probe (the request raised,
    or another status) adds one to the error count and makes [b]
    unavailable when the count has reached [max_error_count] (3 by
    default), leaving it as it was below that.  After [n] failures in a row
    that follow a success, [b] is available exactly when [n] is below the
    threshold. *)
Theorem update_server_status_records_probe :
  forall (settings : Settings) (servers : registry) (b : string)
         (st : ComfyUIServerStatus),
    PyDict.get servers b = Some st ->
    (forall now body running pending,
        queue_body body running pending ->
        exists servers',
          _update_server_status settings (HttpResponse 200 (Some (JDict body)))
                                now b servers = (Return tt, servers') /\
          exists st',
            PyDict.get servers' b = Some st' /\
            queue_remaining st' = Z.of_nat (List.length running) /\
            queue_pending st' = Z.of_nat (List.length pending) /\
            is_available st' = true /\
            error_count st' = 0 /\
            last_check_time st' = now /\
            current_tasks st' = current_tasks st) /\
    (forall now reply,
        probe_failed reply ->
        exists servers',
          _update_server_status settings reply now b servers = (Return tt, servers') /\
          exists st',
            PyDict.get servers' b = Some st' /\
            error_count st' = error_count st + 1 /\
            is_available st' =
              (if max_error_count settings <=? error_count st + 1
               then false else is_available st) /\
            queue_remaining st' = queue_remaining st /\
            queue_pending st' = queue_pending st /\
            current_tasks st' = current_tasks st) /\
    (forall replies,
        is_available st = true -> error_count st = 0 ->
        0 < max_error_count settings ->
        Forall (fun r => probe_failed (fst r)) replies ->
        exists st',
          PyDict.get (run_ops settings (probes b replies) servers) b = Some st' /\
          error_count st' = Z.of_nat (List.length replies) /\
          is_available st' =
            (Z.of_nat (List.length replies) <? max_error_count settings)) /\
    max_error_count default_settings = 3.
Proof.
  intros settings servers b st Hget. repeat split.
  - intros now body running pending Hbody.
    eexists. split; [apply (update_success _ _ _ _ _ _ _ _ Hget Hbody)|].
    eexists. split; [apply get_set_same|]. repeat split.
  - intros now reply Hf.
    eexists. split; [apply (update_failure _ _ _ _ _ _ Hget Hf)|].
    eexists. split; [apply get_set_same|]. repeat split.
  - intros replies Hav Hec Hpos Hf.
    destruct (failures_count settings b replies Hf servers st Hget)
      as (st' & Hst' & Hc & Ha).
    + rewrite Hav, Hec. symmetry. now apply Z.ltb_lt.
    + exists st'. split; [exact Hst'|]. rewrite Hec in Hc. simpl in Hc.
      split; [exact Hc|]. now rewrite Ha, Hc.
Qed.

Lemma update_server_status_records_probe_witness :
  (exists st',
      PyDict.get (snd (_update_server_status default_settings
                         (HttpResponse 200 (Some (JDict [("queue_running", JList [JNull]);
                                                         ("queue_pending", JList [])])))
                         42 "A" one_backend)) "A" = Some st' /\
      queue_remaining st' = 1 /\ is_available st' = true /\ error_count st' = 0) /\
  (exists st',
      PyDict.get (run_ops default_settings
                    (probes "A" [(HttpRaise URLError, 11);
                                 (HttpResponse 500 None, 16);
                                 (HttpRaise URLError, 21)])
                    one_backend) "A" = Some st' /\
      error_count st' = 3 /\ is_available st' = false).
Proof.
  destruct (update_server_status_records_probe
              default_settings one_backend "A" (mkStatus "A" true 4 2 1 10 0) eq_refl)
    as (Hs & _ & Hn & _).
  split.
  - destruct (Hs 42 [("queue_running", JList [JNull]); ("queue_pending", JList [])]
                 [JNull] [] (conj eq_refl eq_refl))
      as (servers' & E & st' & Hst' & Hr & _ & Ha & He & _).
    exists st'. rewrite E. repeat split; assumption.
  - destruct (Hn [(HttpRaise URLError, 11); (HttpResponse 500 None, 16);
                  (HttpRaise URLError, 21)])
      as (st' & Hst' & Hc & Ha); try reflexivity.
    + repeat constructor; simpl; discriminate.
    + exists st'. repeat split; assumption.
Defined.

(** ** The in-flight counter *)

Lemma tasks_nonneg_assign a f :
  (forall st, 0 <= current_tasks st -> 0 <= current_tasks (f st)) ->
  preserves tasks_nonneg (assign a f).
Proof.
  intros Hf servers H. unfold assign, modify. simpl.
  destruct (PyDict.get servers a) as [st|] eqn:E; [|exact H].
  apply Forall_set; [exact H|]. intros ?. simpl. apply Hf.
  apply get_in in E.
  exact (proj1 (Forall_forall _ _) H _ E).
Qed.

Lemma tasks_nonneg_getitem a : preserves tasks_nonneg (getitem a).
Proof.
  intros servers H. unfold getitem. now destruct (PyDict.get servers a).
Qed.

Lemma tasks_nonneg_mark_server_error settings a :
  preserves tasks_nonneg (_mark_server_error settings a).
Proof.
  unfold _mark_server_error. preserve.
  - apply tasks_nonneg_getitem.
  - now apply tasks_nonneg_assign.
  - destruct (max_error_count settings <=? _); preserve.
    now apply tasks_nonneg_assign.
Qed.

Lemma tasks_nonneg_update_server_status settings reply now a :
  preserves tasks_nonneg (_update_server_status settings reply now a).
Proof.
  unfold _update_server_status. preserve.
  - destruct reply as [e|code body]; preserve.
    destruct (code =? 200); [|apply tasks_nonneg_mark_server_error].
    preserve; try apply tasks_nonneg_getitem; now apply tasks_nonneg_assign.
  - apply tasks_nonneg_mark_server_error.
Qed.

Lemma tasks_nonneg_run_op settings o : preserves tasks_nonneg (run_op settings o).
Proof.
  destruct o as [a|a|a reply now|a|a]; simpl.
  - intros servers H. unfold add_server.
    destruct (PyDict.mem servers a); simpl; [exact H|].
    apply Forall_set; [exact H|]. intros ?. simpl. lia.
  - intros servers H. unfold remove_server.
    destruct (PyDict.mem servers a); simpl; [|exact H].
    now apply Forall_del.
  - apply tasks_nonneg_update_server_status.
  - intros servers H. unfold increment_task.
    destruct (PyDict.mem servers a); [|exact H].
    apply tasks_nonneg_assign; [|exact H]. intros st Hst. simpl. lia.
  - intros servers H. unfold decrement_task.
    destruct (PyDict.mem servers a); [|exact H].
    apply tasks_nonneg_assign; [|exact H]. intros st Hst. simpl. lia.
Qed.

Lemma tasks_nonneg_init addrs : tasks_nonneg (init addrs).
Proof.
  unfold init.
  assert (G : forall (acc : registry), tasks_nonneg acc ->
              tasks_nonneg (fold_left (fun servers addr =>
                 PyDict.set servers addr (new_status addr)) addrs acc)).
  { induction addrs as [|a addrs IH]; intros acc Hacc; simpl; [exact Hacc|].
    apply IH. apply Forall_set; [exact Hacc|]. intros ?. simpl. lia. }
  apply G. constructor.
Qed.

Lemma tasks_nonneg_run_ops settings ops servers :
  tasks_nonneg servers -> tasks_nonneg (run_ops settings ops servers).
Proof.
  revert servers. induction ops as [|o ops IH]; intros servers H; simpl; [exact H|].
  apply IH. now apply tasks_nonneg_run_op.
Qed.

(** The registry stays a dictionary: its addresses are pairwise distinct. *)
Lemma wf_assign a f : preserves (@PyDict.wf ComfyUIServerStatus) (assign a f).
Proof.
  intros servers H. unfold assign, modify. cbn [snd].
  destruct (PyDict.get servers a); [now apply wf_set | exact H].
Qed.

Lemma wf_getitem a : preserves (@PyDict.wf ComfyUIServerStatus) (getitem a).
Proof.
  intros servers H. unfold getitem. now destruct (PyDict.get servers a).
Qed.

Lemma wf_mark_server_error settings a :
  preserves (@PyDict.wf ComfyUIServerStatus) (_mark_server_error settings a).
Proof.
  unfold _mark_server_error. preserve.
  - apply wf_getitem.
  - apply wf_assign.
  - destruct (max_error_count settings <=? _); preserve. apply wf_assign.
Qed.

Lemma wf_run_op settings o :
  preserves (@PyDict.wf ComfyUIServerStatus) (run_op settings o).
Proof.
  destruct o as [a|a|a reply now|a|a]; simpl.
  - intros servers H. unfold add_server.
    destruct (PyDict.mem servers a); cbn [snd]; [exact H | now apply wf_set].
  - intros servers H. unfold remove_server.
    destruct (PyDict.mem servers a); cbn [snd]; [now apply wf_del | exact H].
  - unfold _update_server_status. preserve.
    + destruct reply as [e|code body]; preserve.
      destruct (code =? 200); [|apply wf_mark_server_error].
      preserve; try apply wf_getitem; apply wf_assign.
    + apply wf_mark_server_error.
  - intros servers H. unfold increment_task.
    destruct (PyDict.mem servers a); [|exact H]. now apply wf_assign.
  - intros servers H. unfold decrement_task.
    destruct (PyDict.mem servers a); [|exact H]. now apply wf_assign.
Qed.

Lemma wf_run_ops settings ops server_addresses :
  PyDict.wf (run_ops settings ops (init server_addresses)).
Proof.
  assert (Hinit : PyDict.wf (init server_addresses)).
  { unfold init.
    assert (G : forall (acc : registry), PyDict.wf acc ->
                PyDict.wf (fold_left (fun servers addr =>
                   PyDict.set servers addr (new_status addr)) server_addresses acc)).
    { induction server_addresses as [|a addrs IH]; intros acc Hacc; simpl; [exact Hacc|].
      apply IH. now apply wf_set. }
    apply G. constructor. }
  revert Hinit. generalize (init server_addresses).
  induction ops as [|o ops IH]; intros servers H; simpl; [exact H|].
  apply IH. now apply wf_run_op.
Qed.

(** C7: after the registry is built and after any sequence of additions,
    removals, probe updates, increments and decrements, every backend has
    [current_tasks >= 0]; and [decrement_task] on a backend whose counter is
    zero leaves the registry as it is. *)
Theorem current_tasks_never_negative :
  forall (settings : Settings) (server_addresses : list string) (ops : list op),
    tasks_nonneg (run_ops settings ops (init server_addresses)) /\
    (forall a st,
        PyDict.get (run_ops settings ops (init server_addresses)) a = Some st ->
        0 <= current_tasks st) /\
    (forall (servers : registry) a st,
        PyDict.get servers a = Some st -> current_tasks st = 0 ->
        decrement_task a servers = (Return tt, servers)).
Proof.
  intros settings addrs ops.
  assert (H : tasks_nonneg (run_ops settings ops (init addrs)))
    by apply tasks_nonneg_run_ops, tasks_nonneg_init.
  split; [exact H|]. split.
  - intros a st Hget. apply get_in in Hget.
    exact (proj1 (Forall_forall _ _) H _ Hget).
  - intros servers a st Hget Hz. unfold decrement_task, PyDict.mem.
    rewrite Hget. rewrite (assign_present _ _ _ _ Hget).
    f_equal. apply set_get_id. rewrite Hget. f_equal.
    destruct st; simpl in *. subst. reflexivity.
Qed.

(** C10: [increment_task] and [decrement_task] on an address that the
    registry does not have return without an error and leave the registry
    as it is; so a request whose backend was removed while it ran
    decrements nothing when it ends. *)
Theorem task_accounting_ignores_absent :
  forall (servers : registry) (a : string),
    PyDict.get servers a = None ->
    increment_task a servers = (Return tt, servers) /\
    decrement_task a servers = (Return tt, servers) /\
    (forall (before : registry),
        servers = snd (remove_server a (snd (increment_task a before))) ->
        decrement_task a servers = (Return tt, servers)).
Proof.
  intros servers a H.
  assert (Hi : increment_task a servers = (Return tt, servers))
    by (unfold increment_task, PyDict.mem; now rewrite H).
  assert (Hd : decrement_task a servers = (Return tt, servers))
    by (unfold decrement_task, PyDict.mem; now rewrite H).
  auto.
Qed.

Lemma get_after_remove (servers : registry) a :
  PyDict.get (snd (remove_server a servers)) a = None.
Proof.
  unfold remove_server, PyDict.mem.
  destruct (PyDict.get servers a) eqn:E; simpl; [apply get_del_same | exact E].
Qed.

Lemma task_accounting_ignores_absent_witness :
  let removed := snd (remove_server "A" (snd (increment_task "A" one_backend))) in
  removed = [] /\
  increment_task "A" removed = (Return tt, removed) /\
  decrement_task "A" removed = (Return tt, removed).
Proof.
  split; [reflexivity|].
  destruct (task_accounting_ignores_absent
              (snd (remove_server "A" (snd (increment_task "A" one_backend)))) "A"
              (get_after_remove _ _)) as (Hi & Hd & _).
  split; assumption.
Defined.

End RegistryFacts.


(* ===================================================================== *)
(** * The rewrite of the image input *)
(* ===================================================================== *)

Module RewriteFacts.
Import ComfyuiTool PyDictFacts Rewrite.

(** ** The rewrite of [inputs], entry by entry *)

Lemma replace_items_from filename l acc changed :
  fold_left
    (fun (acc : list json * bool) (item : json) =>
       let (new_list, changed) := acc in
       match item with
       | JStr s =>
           if item_names_image s
           then (new_list ++ [JStr filename], true)
           else (new_list ++ [item], changed)
       | _ => (new_list ++ [item], changed)
       end) l (acc, changed) =
  (acc ++ map (replace_item filename) l, changed || existsb item_hit l).
Proof.
  revert acc changed.
  induction l as [|item l IH]; intros acc changed; simpl.
  - now rewrite app_nil_r, orb_false_r.
  - unfold replace_item at 1.
    destruct item as [|b|z|m e|s|l'|d]; simpl; try destruct (item_names_image s);
      rewrite IH, <- app_assoc; simpl; try reflexivity.
    now rewrite orb_true_r.
Qed.

Lemma replace_items_map filename l :
  replace_items filename l = (map (replace_item filename) l, existsb item_hit l).
Proof. unfold replace_items. now rewrite replace_items_from. Qed.

Lemma replace_item_unchanged filename l :
  existsb item_hit l = false -> map (replace_item filename) l = l.
Proof.
  induction l as [|item l IH]; simpl; [reflexivity|].
  intros H. apply orb_false_iff in H. destruct H as [H1 H2].
  unfold replace_item at 1. rewrite H1. now rewrite IH.
Qed.

Lemma replace_entry_middle filename (pre post : PyDict.t json) k v :
  ~ In k (PyDict.keys pre) ->
  replace_entry filename (pre ++ (k, v) :: post) (k, v) =
  pre ++ (k, replace_value filename v) :: post.
Proof.
  intros Hnot. unfold replace_entry, replace_value.
  destruct v as [|b|z|m e|s|l|d]; try reflexivity.
  - destruct (names_image s); [now apply set_middle | reflexivity].
  - rewrite replace_items_map.
    destruct (existsb item_hit l) eqn:E; [now apply set_middle|].
    now rewrite replace_item_unchanged.
Qed.

Lemma keys_replace_values filename (inputs : PyDict.t json) :
  PyDict.keys (replace_values filename inputs) = PyDict.keys inputs.
Proof.
  unfold PyDict.keys, replace_values. rewrite map_map. reflexivity.
Qed.

Lemma replace_entries_from filename (post pre : PyDict.t json) :
  NoDup (PyDict.keys (pre ++ post)) ->
  fold_left (replace_entry filename) post (replace_values filename pre ++ post) =
  replace_values filename (pre ++ post).
Proof.
  revert pre. induction post as [|[k v] post IH]; intros pre Hnd; cbn [fold_left].
  - now rewrite !app_nil_r.
  - rewrite replace_entry_middle.
    + change (replace_values filename pre ++ (k, replace_value filename v) :: post)
        with (replace_values filename pre ++
              replace_values filename [(k, v)] ++ post).
      rewrite app_assoc. unfold replace_values at 1 2. rewrite <- map_app.
      fold (replace_values filename (pre ++ [(k, v)])).
      rewrite IH; rewrite <- app_assoc; [reflexivity | exact Hnd].
    + rewrite keys_replace_values.
      unfold PyDict.keys in *. rewrite map_app in Hnd. simpl in Hnd.
      apply NoDup_remove_2 in Hnd. intros Hin. apply Hnd.
      apply in_or_app. now left.
Qed.

(** On a dictionary, the loop of the node-["10"] path replaces every value
    in place, and ["image"] is added last when it is not a key. *)
Lemma replace_inputs_map filename (inputs : PyDict.t json) :
  PyDict.wf inputs ->
  replace_inputs filename inputs =
  if PyDict.mem inputs "image" then replace_values filename inputs
  else replace_values filename inputs ++ [("image", JStr filename)].
Proof.
  intros Hwf. unfold replace_inputs.
  pose proof (replace_entries_from filename inputs [] Hwf) as E.
  cbn [replace_values map app] in E. fold (replace_values filename inputs) in E.
  cbv zeta. rewrite E. clear E.
  assert (Hmem : PyDict.mem (replace_values filename inputs) "image" =
                 PyDict.mem inputs "image").
  { destruct (PyDict.mem inputs "image") eqn:E.
    - apply mem_in_keys. rewrite keys_replace_values. now apply mem_in_keys.
    - destruct (PyDict.mem (replace_values filename inputs) "image") eqn:E';
        [|reflexivity].
      apply mem_in_keys in E'. rewrite keys_replace_values in E'.
      apply mem_in_keys in E'. congruence. }
  rewrite Hmem. destruct (PyDict.mem inputs "image") eqn:E; [reflexivity|].
  apply set_absent. now rewrite Hmem.
Qed.

Lemma get_replace_values filename (inputs : PyDict.t json) k :
  PyDict.get (replace_values filename inputs) k =
  option_map (replace_value filename) (PyDict.get inputs k).
Proof.
  unfold replace_values.
  induction inputs as [|[k0 v0] inputs IH]; simpl; [reflexivity|].
  destruct (String.eqb k0 k); [reflexivity | exact IH].
Qed.

Lemma get_app_absent {V} (d : PyDict.t V) k k' v :
  PyDict.get (d ++ [(k, v)]) k' =
  match PyDict.get d k' with
  | Some x => Some x
  | None => if String.eqb k k' then Some v else None
  end.
Proof.
  induction d as [|[k0 v0] d IH]; simpl; [reflexivity|].
  destruct (String.eqb k0 k'); [reflexivity | exact IH].
Qed.

(** The two tests, in words: a suffix [.png] or [.jpg], or [pasted/]
    somewhere in the string; on a value of [inputs] also [input] somewhere. *)
Lemma item_names_image_iff s :
  item_names_image s = true <->
  (exists p, s = p ++ ".png")%string \/ (exists p, s = p ++ ".jpg")%string \/
  (exists p q, s = p ++ "pasted/" ++ q)%string.
Proof.
  unfold item_names_image.
  rewrite !orb_true_iff, !PyStrFacts.endswith_iff, PyStrFacts.contains_iff.
  tauto.
Qed.

Lemma names_image_iff s :
  names_image s = true <->
  (exists p, s = p ++ ".png")%string \/ (exists p, s = p ++ ".jpg")%string \/
  (exists p q, s = p ++ "pasted/" ++ q)%string \/
  (exists p q, s = p ++ "input" ++ q)%string.
Proof.
  unfold names_image.
  rewrite !orb_true_iff, !PyStrFacts.endswith_iff, !PyStrFacts.contains_iff.
  tauto.
Qed.

(** ** The node that is rewritten *)

Lemma is_load_image_shaped node :
  node_shaped node -> is_load_image node = Return (load_image node).
Proof. destruct node; simpl; intros H; try contradiction. reflexivity. Qed.

Lemma replace_in_node_shaped filename n :
  node_shaped (JDict n) ->
  replace_in_node filename n =
  Return (PyDict.set n "inputs" (JDict (replace_inputs filename (inputs_of n)))).
Proof.
  unfold node_shaped, replace_in_node, setdefault_inputs, inputs_of.
  destruct (PyDict.get n "inputs") as [[]|]; intros H; try contradiction.
  - reflexivity.
  - now rewrite set_set.
Qed.

Lemma set_image_in_node_shaped filename n :
  node_shaped (JDict n) ->
  set_image_in_node filename n =
  Return (PyDict.set n "inputs"
            (JDict (PyDict.set (inputs_of n) "image" (JStr filename)))).
Proof.
  unfold node_shaped, set_image_in_node, setdefault_inputs, inputs_of.
  destruct (PyDict.get n "inputs") as [[]|]; intros H; try contradiction.
  - reflexivity.
  - now rewrite set_set.
Qed.

Lemma inputs_of_set n i : inputs_of (PyDict.set n "inputs" (JDict i)) = i.
Proof. unfold inputs_of. now rewrite get_set_same. Qed.

(** The fallback loop stops at the first [LoadImage] and changes it where
    it stands. *)
Lemma replace_first_load_image_at filename pre nid n post :
  graph_shaped (pre ++ (nid, JDict n) :: post) ->
  Forall (fun kv => load_image (snd kv) = false) pre ->
  load_image (JDict n) = true ->
  replace_first_load_image filename (pre ++ (nid, JDict n) :: post) =
  Return (pre ++
          (nid, JDict (PyDict.set n "inputs"
                         (JDict (PyDict.set (inputs_of n) "image" (JStr filename)))))
          :: post, true).
Proof.
  intros Hs Hpre Hn. induction Hpre as [|[k v] pre Hk Hpre IH].
  - cbn [app replace_first_load_image].
    inversion Hs as [|? ? Hnode _]; subst. cbn [snd] in Hnode.
    rewrite (is_load_image_shaped _ Hnode), Hn. cbn [rbind].
    now rewrite (set_image_in_node_shaped _ _ Hnode).
  - cbn [app replace_first_load_image].
    inversion Hs as [|? ? Hnode Hs']; subst. cbn [snd] in Hnode, Hk.
    rewrite (is_load_image_shaped _ Hnode), Hk. cbn [rbind].
    now rewrite (IH Hs').
Qed.

Lemma replace_first_load_image_none filename (wf : node_graph) :
  graph_shaped wf ->
  Forall (fun kv => load_image (snd kv) = false) wf ->
  replace_first_load_image filename wf = Return (wf, false).
Proof.
  intros Hs Hnone. induction Hnone as [|[k v] wf Hk Hnone IH].
  - reflexivity.
  - cbn [replace_first_load_image].
    inversion Hs as [|? ? Hnode Hs']; subst. cbn [snd] in Hnode, Hk.
    rewrite (is_load_image_shaped _ Hnode), Hk. cbn [rbind].
    now rewrite (IH Hs').
Qed.

Lemma shaped_at (wf : node_graph) nid node :
  graph_shaped wf -> PyDict.get wf nid = Some node -> node_shaped node.
Proof.
  intros Hs Hget. apply get_in in Hget.
  exact (proj1 (Forall_forall _ _) Hs _ Hget).
Qed.

Lemma rewrite_preferred filename (wf : node_graph) n :
  graph_shaped wf ->
  PyDict.get wf "10" = Some (JDict n) ->
  load_image (JDict n) = true ->
  rewrite_with_image wf filename =
  Return (PyDict.set wf "10"
            (JDict (PyDict.set n "inputs"
                      (JDict (replace_inputs filename (inputs_of n))))), true).
Proof.
  intros Hs Hget Hn. unfold rewrite_with_image. rewrite Hget.
  pose proof (shaped_at _ _ _ Hs Hget) as Hnode.
  assert (Ht : truthy (JDict n) = true).
  { destruct n; [discriminate Hn | reflexivity]. }
  rewrite Ht, (is_load_image_shaped _ Hnode), Hn. cbn [rbind].
  now rewrite (replace_in_node_shaped _ _ Hnode).
Qed.

Lemma rewrite_not_preferred filename (wf : node_graph) :
  graph_shaped wf ->
  preferred wf = false ->
  rewrite_with_image wf filename = replace_first_load_image filename wf.
Proof.
  intros Hs Hp. unfold rewrite_with_image. unfold preferred in Hp.
  destruct (PyDict.get wf "10") as [node|] eqn:Hget; [|reflexivity].
  destruct (truthy node); [|reflexivity].
  rewrite (is_load_image_shaped _ (shaped_at _ _ _ Hs Hget)), Hp. reflexivity.
Qed.

(** C2: on a graph of the data model's shape, when node ["10"] exists and
    is a [LoadImage] it is the node that is rewritten, and every other node
    is as before; otherwise the first [LoadImage] node in iteration order is
    rewritten where it stands; and when no node is a [LoadImage] the copy is
    returned unchanged with [replaced] false (a warning), and it is this
    copy that is submitted. *)
Theorem image_rewrite_target :
  forall (wf : node_graph) (filename : string),
    graph_shaped wf ->
    (forall n,
        PyDict.get wf "10" = Some (JDict n) -> load_image (JDict n) = true ->
        exists n',
          rewrite_with_image wf filename = Return (PyDict.set wf "10" (JDict n'), true) /\
          n' = PyDict.set n "inputs" (JDict (replace_inputs filename (inputs_of n))) /\
          PyDict.get (PyDict.set wf "10" (JDict n')) "10" = Some (JDict n') /\
          forall other, other <> "10" ->
            PyDict.get (PyDict.set wf "10" (JDict n')) other = PyDict.get wf other) /\
    (preferred wf = false ->
     forall pre nid n post,
       wf = pre ++ (nid, JDict n) :: post ->
       Forall (fun kv => load_image (snd kv) = false) pre ->
       load_image (JDict n) = true ->
       exists n',
         rewrite_with_image wf filename = Return (pre ++ (nid, JDict n') :: post, true) /\
         n' = PyDict.set n "inputs"
                (JDict (PyDict.set (inputs_of n) "image" (JStr filename)))) /\
    (Forall (fun kv => load_image (snd kv) = false) wf ->
     rewrite_with_image wf filename = Return (wf, false) /\
     forall py_eq io timeout,
       run_workflow_with_image py_eq io wf filename timeout =
       submit_and_wait py_eq io wf timeout).
Proof.
  intros wf filename Hs. repeat split.
  - intros n Hget Hn. eexists. split; [exact (rewrite_preferred _ _ _ Hs Hget Hn)|].
    split; [reflexivity|]. split; [apply get_set_same|].
    intros other Hne. apply get_set_other. congruence.
  - intros Hp pre nid n post -> Hpre Hn. eexists.
    rewrite (rewrite_not_preferred _ _ Hs Hp).
    split; [exact (replace_first_load_image_at _ _ _ _ _ Hs Hpre Hn) | reflexivity].
  - assert (Hp : preferred wf = false).
    { unfold preferred. destruct (PyDict.get wf "10") as [node|] eqn:Hget; [|reflexivity].
      apply get_in in Hget. exact (proj1 (Forall_forall _ _) H _ Hget). }
    rewrite (rewrite_not_preferred _ _ Hs Hp).
    now apply replace_first_load_image_none.
  - intros py_eq io timeout. unfold run_workflow_with_image.
    assert (Hp : preferred wf = false).
    { unfold preferred. destruct (PyDict.get wf "10") as [node|] eqn:Hget; [|reflexivity].
      apply get_in in Hget. exact (proj1 (Forall_forall _ _) H _ Hget). }
    rewrite (rewrite_not_preferred _ _ Hs Hp).
    now rewrite (replace_first_load_image_none _ _ Hs H).
Qed.

Lemma image_rewrite_target_witness :
  rewrite_with_image two_load_images "new.png" =
  Return ([("5", load_image_node (JStr "old.png"));
           ("10", load_image_node (JStr "new.png"))], true).
Proof.
  assert (Hs : graph_shaped two_load_images) by (repeat constructor).
  destruct (image_rewrite_target two_load_images "new.png" Hs) as (H10 & _ & _).
  destruct (H10 _ eq_refl eq_refl) as (n' & E & -> & _).
  exact E.
Defined.

(** ** What the rewrite does to [inputs] *)

Lemma get_replaced_inputs filename i k :
  PyDict.get (replaced_inputs filename i) k =
  match PyDict.get i k with
  | Some v => Some (replace_value filename v)
  | None => if String.eqb "image" k then Some (JStr filename) else None
  end.
Proof.
  unfold replaced_inputs, PyDict.mem.
  destruct (PyDict.get i "image") as [img|] eqn:Himg.
  - rewrite get_replace_values.
    destruct (PyDict.get i k) eqn:Hk; [reflexivity|]. cbn [option_map].
    destruct (String.eqb_spec "image" k) as [<-|_]; [congruence | reflexivity].
  - rewrite get_app_absent, get_replace_values.
    destruct (PyDict.get i k) eqn:Hk; reflexivity.
Qed.

(** C1, as amended: on a graph of the data model's shape, the node-["10"]
    path (a) replaces every string value of [inputs] that ends in [.png] or
    [.jpg] or contains [pasted/] or [input] by the target filename, (b) in
    every list value replaces each string item that ends in [.png] or
    [.jpg] or contains [pasted/] (the test on items has no [input]
    alternative) and keeps every other item in its place, and (c) adds
    ["image"] when it is not a key; the first-[LoadImage] fallback only sets
    ["image"] to the target filename and leaves every other entry of
    [inputs] as it is. *)
Theorem image_rewrite_inputs :
  forall (wf : node_graph) (filename : string),
    graph_shaped wf ->
    (forall n,
        PyDict.get wf "10" = Some (JDict n) -> load_image (JDict n) = true ->
        PyDict.wf (inputs_of n) ->
        exists wf' i',
          rewrite_with_image wf filename = Return (wf', true) /\
          inputs_at wf' "10" = Some i' /\
          i' = replaced_inputs filename (inputs_of n) /\
          (forall k s,
              PyDict.get (inputs_of n) k = Some (JStr s) -> names_image s = true ->
              PyDict.get i' k = Some (JStr filename)) /\
          (forall k l,
              PyDict.get (inputs_of n) k = Some (JList l) ->
              PyDict.get i' k = Some (JList (map (replace_item filename) l))) /\
          (PyDict.get (inputs_of n) "image" = None ->
           PyDict.get i' "image" = Some (JStr filename)) /\
          (forall k s,
              PyDict.get (inputs_of n) k = Some (JStr s) -> names_image s = false ->
              PyDict.get i' k = Some (JStr s))) /\
    (preferred wf = false ->
     forall pre nid n post,
       wf = pre ++ (nid, JDict n) :: post ->
       ~ In nid (PyDict.keys pre) ->
       Forall (fun kv => load_image (snd kv) = false) pre ->
       load_image (JDict n) = true ->
       exists wf' i',
         rewrite_with_image wf filename = Return (wf', true) /\
         inputs_at wf' nid = Some i' /\
         i' = PyDict.set (inputs_of n) "image" (JStr filename) /\
         PyDict.get i' "image" = Some (JStr filename) /\
         forall k, k <> "image" -> PyDict.get i' k = PyDict.get (inputs_of n) k).
Proof.
  intros wf filename Hs. split.
  - intros n Hget Hn Hwf.
    exists (PyDict.set wf "10"
              (JDict (PyDict.set n "inputs"
                        (JDict (replace_inputs filename (inputs_of n)))))).
    exists (replaced_inputs filename (inputs_of n)).
    split; [exact (rewrite_preferred _ _ _ Hs Hget Hn)|].
    split.
    { unfold inputs_at. rewrite get_set_same, inputs_of_set.
      now rewrite (replace_inputs_map _ _ Hwf). }
    split; [reflexivity|].
    repeat split.
    + intros k s Hk Hm. rewrite get_replaced_inputs, Hk. cbn [replace_value]. now rewrite Hm.
    + intros k l Hk. now rewrite get_replaced_inputs, Hk.
    + intros Hk. now rewrite get_replaced_inputs, Hk.
    + intros k s Hk Hm. rewrite get_replaced_inputs, Hk. cbn [replace_value]. now rewrite Hm.
  - intros Hp pre nid n post -> Hnot Hpre Hn.
    eexists. eexists.
    split.
    { rewrite (rewrite_not_preferred _ _ Hs Hp).
      exact (replace_first_load_image_at _ _ _ _ _ Hs Hpre Hn). }
    split.
    { unfold inputs_at. rewrite (get_middle _ _ _ _ Hnot).
      now rewrite inputs_of_set. }
    split; [reflexivity|]. split; [apply get_set_same|].
    intros k Hk. apply get_set_other. congruence.
Qed.

Lemma image_rewrite_inputs_witness :
  exists wf',
    rewrite_with_image ten_with_list "new.png" = Return (wf', true) /\
    inputs_at wf' "10" =
    Some [("image", JStr "new.png");
          ("pair", JList [JStr "input_photo"; JStr "new.png"; JInt 0])].
Proof.
  assert (Hs : graph_shaped ten_with_list) by (repeat constructor).
  destruct (image_rewrite_inputs ten_with_list "new.png" Hs) as (H10 & _).
  destruct (H10 _ eq_refl eq_refl) as (wf' & i' & E & Hi & -> & _).
  - unfold PyDict.wf. simpl. repeat constructor; simpl; intuition discriminate.
  - exists wf'. split; [exact E | exact Hi].
Defined.

(** The rule of the specification fails on the fallback path, which leaves
    a second file name of [inputs] alone, and on a list item that only
    contains [input]. *)
Lemma image_rewrite_rule_fails :
  ~ obeys_rule five_with_mask "new.png" /\ ~ obeys_rule ten_with_list "new.png".
Proof.
  split; intros H.
  - destruct (H "5" _ eq_refl eq_refl) as (wf' & replaced & E & Hi).
    vm_compute in E. injection E as <- <-. vm_compute in Hi. discriminate Hi.
  - destruct (H "10" _ eq_refl eq_refl) as (wf' & replaced & E & Hi).
    vm_compute in E. injection E as <- <-. vm_compute in Hi. discriminate Hi.
Qed.

End RewriteFacts.


(* ===================================================================== *)
(** * The watch loop *)
(* ===================================================================== *)

Module WatchFacts.
Import ComfyuiTool Watch.

Section Verdict.
Variable py_eq : json -> json -> bool.
Variable prompt_id : json.

Local Abbreviation verdict_of := (Watch.verdict_of py_eq prompt_id).
Local Abbreviation all_continue := (Watch.all_continue py_eq prompt_id).
Local Abbreviation times_out := (Watch.times_out py_eq prompt_id).

Lemma recv_loop_cons deadline now t out rest :
  recv_loop py_eq prompt_id deadline now ((t, out) :: rest) =
  if now <? deadline then
    match verdict_of out with
    | Completes => Return true
    | Fails e => Raise e
    | Continues => recv_loop py_eq prompt_id deadline t rest
    end
  else Return false.
Proof.
  cbn [recv_loop]. destruct (now <? deadline); [|reflexivity].
  destruct out as [[msg|]| |e]; try reflexivity.
  destruct msg as [|b|z|m e|s|l|msg]; try reflexivity.
  unfold verdict_of. cbn [py_get rbind py_get_default].
  destruct (is_str (PyDict.get msg "type") "progress").
  - destruct (PyDict.get msg "data") as [[]|]; reflexivity.
  - destruct (is_str (PyDict.get msg "type") "executing"); [|reflexivity].
    destruct (PyDict.get msg "data") as [[]|]; try reflexivity;
      cbn [py_get rbind PyDict.get is_none or_null andb];
      match goal with |- context [if ?c then _ else _] => destruct c end;
      reflexivity.
Qed.

Lemma recv_loop_true_iff deadline frames :
  forall start,
    recv_loop py_eq prompt_id deadline start frames = Return true <->
    exists pre t out post,
      frames = pre ++ (t, out) :: post /\
      verdict_of out = Completes /\
      all_continue pre /\
      Forall (fun clock => clock < deadline) (tests start pre).
Proof.
  induction frames as [|[t out] frames IH]; intros start.
  - cbn [recv_loop]. split.
    + destruct (start <? deadline); discriminate.
    + intros (pre & t & out & post & E & _). destruct pre; discriminate.
  - rewrite recv_loop_cons. split.
    + destruct (Z.ltb_spec start deadline) as [Hlt|]; [|discriminate].
      destruct (verdict_of out) eqn:Hv; try discriminate.
      * intros _. exists [], t, out, frames. repeat split; auto.
        -- constructor.
        -- constructor; [exact Hlt | constructor].
      * intros H. apply IH in H.
        destruct H as (pre & t' & out' & post & -> & Hc & Hpre & Ht).
        exists ((t, out) :: pre), t', out', post. repeat split; auto.
        -- constructor; assumption.
        -- constructor; assumption.
    + intros (pre & t' & out' & post & E & Hc & Hpre & Ht).
      inversion Ht as [|? ? Hstart Ht']; subst.
      destruct (Z.ltb_spec start deadline) as [_|]; [|lia].
      destruct pre as [|[t0 out0] pre]; simpl in E; injection E as -> -> ->.
      * now rewrite Hc.
      * inversion Hpre as [|? ? H0 Hpre']; subst. simpl in H0. rewrite H0.
        apply IH. exists pre, t', out', post. repeat split; auto.
Qed.

Lemma recv_loop_false_iff deadline frames :
  forall start,
    recv_loop py_eq prompt_id deadline start frames = Return false <->
    exists pre post, frames = pre ++ post /\ times_out deadline start pre.
Proof.
  induction frames as [|[t out] frames IH]; intros start.
  - cbn [recv_loop]. split.
    + destruct (Z.ltb_spec start deadline); [discriminate|]. intros _.
      exists [], []. split; [reflexivity | assumption].
    + intros (pre & post & E & Hto).
      destruct pre; [|discriminate]. simpl in Hto.
      destruct (Z.ltb_spec start deadline); [lia | reflexivity].
  - rewrite recv_loop_cons. split.
    + destruct (Z.ltb_spec start deadline) as [Hlt|Hge].
      * destruct (verdict_of out) eqn:Hv; try discriminate.
        intros H. apply IH in H. destruct H as (pre & post & -> & Hto).
        exists ((t, out) :: pre), post. split; [reflexivity|].
        simpl. auto.
      * intros _. exists [], ((t, out) :: frames). split; [reflexivity | assumption].
    + intros (pre & post & E & Hto).
      destruct pre as [|[t0 out0] pre].
      * simpl in Hto. destruct (Z.ltb_spec start deadline); [lia | reflexivity].
      * simpl in E. injection E as -> -> ->. simpl in Hto.
        destruct Hto as (Hlt & Hv & Hto).
        destruct (Z.ltb_spec start deadline); [|lia].
        rewrite Hv. apply IH. now exists pre, post.
Qed.

(** [recv] does not return once the frames are used up: the call stays in
    the loop when every frame came in time and none ended it. *)
Lemma recv_loop_hang_iff deadline frames :
  forall start,
    recv_loop py_eq prompt_id deadline start frames = Hang <->
    all_continue frames /\
    Forall (fun clock => clock < deadline) (tests start frames).
Proof.
  induction frames as [|[t out] frames IH]; intros start.
  - cbn [recv_loop]. unfold tests. simpl. split.
    + destruct (Z.ltb_spec start deadline); [|discriminate]. intros _.
      split; constructor; [assumption | constructor].
    + intros [_ H]. inversion H; subst.
      destruct (Z.ltb_spec start deadline); [reflexivity | lia].
  - rewrite recv_loop_cons. unfold tests in *. cbn [map fst]. split.
    + destruct (Z.ltb_spec start deadline) as [Hlt|Hge]; [|discriminate].
      destruct (verdict_of out) eqn:Hv; try discriminate.
      intros H. apply IH in H. destruct H as [Hc Ht].
      split; constructor; assumption.
    + intros [Hc Ht]. inversion Hc as [|? ? H0 Hc']; subst.
      inversion Ht as [|? ? Hlt Ht']; subst. simpl in H0.
      destruct (Z.ltb_spec start deadline); [|lia].
      rewrite H0. apply IH. split; assumption.
Qed.

End Verdict.

Lemma is_str_true v s : is_str v s = true <-> v = Some (JStr s).
Proof.
  destruct v as [[]|]; simpl; try (split; discriminate).
  rewrite String.eqb_eq. split; congruence.
Qed.

Lemma completes_iff py_eq job_id out :
  eq_on_str py_eq ->
  verdict_of py_eq (JStr job_id) out = Completes <-> completion_signal job_id out.
Proof.
  intros Heq. unfold completion_signal. split.
  - destruct out as [[msg|]| |e]; try discriminate.
    destruct msg as [|b|z|m e|s|l|msg]; try discriminate.
    unfold verdict_of.
    destruct (is_str (PyDict.get msg "type") "progress").
    { destruct (PyDict.get msg "data") as [[]|]; discriminate. }
    destruct (is_str (PyDict.get msg "type") "executing") eqn:Ht; [|discriminate].
    apply is_str_true in Ht.
    destruct (PyDict.get msg "data") as [[| | | | | |data]|] eqn:Hd; try discriminate.
    + destruct (is_none (PyDict.get data "node")) eqn:Hn; [|discriminate].
      destruct (py_eq (or_null (PyDict.get data "prompt_id")) (JStr job_id)) eqn:Hp;
        [|discriminate].
      intros _. apply Heq in Hp.
      exists msg, data. repeat split; auto.
      destruct (PyDict.get data "prompt_id"); simpl in Hp; congruence.
    + destruct (py_eq JNull (JStr job_id)) eqn:Hp; [|discriminate].
      apply Heq in Hp. discriminate.
  - intros (msg & data & -> & Ht & Hd & Hn & Hp).
    unfold verdict_of. rewrite Ht, Hd, Hn, Hp. simpl.
    assert (E : py_eq (JStr job_id) (JStr job_id) = true) by now apply Heq.
    now rewrite E.
Qed.

Lemma progress_never_completes py_eq prompt_id out :
  progress_frame out -> verdict_of py_eq prompt_id out <> Completes.
Proof.
  intros (msg & -> & Ht). unfold verdict_of. rewrite Ht. simpl.
  destruct (PyDict.get msg "data") as [[]|]; discriminate.
Qed.

Lemma wait_for_prompt_exec_run py_eq io prompt_id timeout start s :
  ws_connect io = Return start ->
  _wait_for_prompt_exec py_eq io prompt_id timeout s =
  match recv_loop py_eq prompt_id (start + timeout) start (ws_frames io) with
  | Hang => (Hang, WsOpen)
  | r => (r, WsCloseCalled)
  end.
Proof.
  intros Hc.
  unfold _wait_for_prompt_exec, bind, ws_create_connection, try_finally, lift,
    try_except, ws_close, ret.
  rewrite Hc.
  destruct (recv_loop py_eq prompt_id (start + timeout) start (ws_frames io));
    destruct (ws_close_raises io); reflexivity.
Qed.

(** C8, as amended: the deadline is tested between two receives only. The
    watch returns true exactly when some frame is the completion signal of
    the job, no earlier frame ended the loop, and the clock at the test
    before each of these receives (the start, then the arrival of the frame
    before) was before the deadline, whenever the signal itself arrives;
    a progress frame never completes the watch; it returns false exactly
    when, after frames that all continue the loop, a test finds the deadline
    reached; it does not return while frames that came in time are used up
    and nothing more arrives; and whenever it returns or raises after the
    connection was made, [close] has been called on the socket. *)
Theorem wait_for_prompt_exec_outcome :
  forall (py_eq : json -> json -> bool) (io : backend_io) (job_id : string)
         (timeout start : Z),
    eq_on_str py_eq ->
    ws_connect io = Return start ->
    let deadline := start + timeout in
    let run := _wait_for_prompt_exec py_eq io (JStr job_id) timeout NoSocket in
    (fst run = Return true <->
     exists pre t out post,
       ws_frames io = pre ++ (t, out) :: post /\
       completion_signal job_id out /\
       all_continue py_eq (JStr job_id) pre /\
       Forall (fun clock => clock < deadline) (tests start pre)) /\
    (forall out, progress_frame out ->
                 verdict_of py_eq (JStr job_id) out <> Completes) /\
    (fst run = Return false <->
     exists pre post,
       ws_frames io = pre ++ post /\
       times_out py_eq (JStr job_id) deadline start pre) /\
    (fst run = Hang <->
     all_continue py_eq (JStr job_id) (ws_frames io) /\
     Forall (fun clock => clock < deadline) (tests start (ws_frames io))) /\
    (fst run <> Hang -> snd run = WsCloseCalled) /\
    (fst run = Hang -> snd run = WsOpen).
Proof.
  intros py_eq io job_id timeout start Heq Hc deadline run.
  subst run. rewrite (wait_for_prompt_exec_run _ _ _ _ _ _ Hc). fold deadline.
  pose proof (recv_loop_true_iff py_eq (JStr job_id) deadline (ws_frames io) start) as Ht.
  pose proof (recv_loop_false_iff py_eq (JStr job_id) deadline (ws_frames io) start) as Hf.
  pose proof (recv_loop_hang_iff py_eq (JStr job_id) deadline (ws_frames io) start) as Hh.
  assert (Ht' : recv_loop py_eq (JStr job_id) deadline start (ws_frames io) = Return true <->
                exists pre t out post,
                  ws_frames io = pre ++ (t, out) :: post /\
                  completion_signal job_id out /\
                  Watch.all_continue py_eq (JStr job_id) pre /\
                  Forall (fun clock => clock < deadline) (tests start pre)).
  { rewrite Ht. split; intros (pre & t & out & post & H1 & H2 & H3);
      exists pre, t, out, post;
      [rewrite <- (completes_iff _ _ _ Heq) | rewrite (completes_iff _ _ _ Heq)]; auto. }
  clear Ht.
  destruct (recv_loop py_eq (JStr job_id) deadline start (ws_frames io)) as [b|e|];
    cbn [fst snd];
    (split; [exact Ht'|]);
    (split; [intros out; apply progress_never_completes|]);
    (split; [exact Hf|]); (split; [exact Hh|]);
    split; congruence.
Qed.

Lemma eq_scalars_on_str : eq_on_str eq_scalars.
Proof.
  intros v s. destruct v; simpl; try (split; discriminate).
  rewrite String.eqb_eq. split; congruence.
Qed.

Lemma wait_for_prompt_exec_outcome_witness :
  _wait_for_prompt_exec eq_scalars
    (socket_only (Return 1000)
       [(1003, progress 1 20); (1010, executing (JStr "7") "job");
        (1015, executing JNull "job"); (1020, progress 2 20)])
    (JStr "job") 120 NoSocket = (Return true, WsCloseCalled).
Proof.
  pose proof (wait_for_prompt_exec_outcome eq_scalars
                (socket_only (Return 1000)
                   [(1003, progress 1 20); (1010, executing (JStr "7") "job");
                    (1015, executing JNull "job"); (1020, progress 2 20)])
                "job" 120 1000 eq_scalars_on_str eq_refl) as H.
  cbv zeta in H. destruct H as (Ht & _ & _ & _ & Hclose & _).
  assert (E : fst (_wait_for_prompt_exec eq_scalars
                     (socket_only (Return 1000)
                        [(1003, progress 1 20); (1010, executing (JStr "7") "job");
                         (1015, executing JNull "job"); (1020, progress 2 20)])
                     (JStr "job") 120 NoSocket) = Return true).
  { apply Ht.
    exists [(1003, progress 1 20); (1010, executing (JStr "7") "job")],
           1015, (executing JNull "job"), [(1020, progress 2 20)].
    split; [reflexivity|]. split.
    - eexists. eexists. repeat split; reflexivity.
    - split; repeat constructor. }
  rewrite (surjective_pairing (_wait_for_prompt_exec _ _ _ _ _)).
  rewrite E, Hclose; [reflexivity|]. rewrite E. discriminate.
Defined.

(** The signal comes in at 500, long after the deadline of 120, while the
    call waits in [recv]: the watch returns true all the same.  And on a
    socket on which nothing arrives the call does not return false: it does
    not return. *)
Lemma watch_returns_true_after_deadline :
  ~ true_iff_signal_before_deadline eq_scalars
      (socket_only (Return 0) [(500, executing JNull "job")]) "job" 120 /\
  _wait_for_prompt_exec eq_scalars (socket_only (Return 0) []) (JStr "job") 120 NoSocket
  = (Hang, WsOpen).
Proof.
  split; [|reflexivity].
  intros [H _].
  destruct (H eq_refl) as (start & t & out & Hc & Hin & Hlt & _).
  cbn in Hc. injection Hc as <-.
  destruct Hin as [E|[]]. injection E as <- _. lia.
Qed.

End WatchFacts.


(* ===================================================================== *)
(** * The handlers *)
(* ===================================================================== *)

Module HandlerFacts.
Import ToolPool Routers Handlers.

(** ** Every dispatch is bracketed *)

Section Dispatch.
Variable env : environment.
Variable fs : filesystem.

Lemma get_tool_for_request_calls w :
  calls (snd (get_tool_for_request env w)) = calls w.
Proof.
  unfold get_tool_for_request.
  destruct (LoadBalancer.get_best_server _ _); [|reflexivity].
  destruct (String.eqb _ _); reflexivity.
Qed.

Lemma get_tool_for_request_no_hang w : fst (get_tool_for_request env w) <> Hang.
Proof.
  unfold get_tool_for_request.
  destruct (LoadBalancer.get_best_server _ _); [|discriminate].
  destruct (String.eqb _ _); discriminate.
Qed.

Lemma on_lb_calls {A} (m : M LoadBalancer.registry A) w :
  calls (snd (on_lb m w)) = calls w.
Proof. unfold on_lb. destruct (m (lb w)). reflexivity. Qed.

Lemma increment_task_returns a servers :
  fst (LoadBalancer.increment_task a servers) = Return tt.
Proof.
  unfold LoadBalancer.increment_task.
  now destruct (PyDict.mem servers a).
Qed.

Lemma decrement_task_returns a servers :
  fst (LoadBalancer.decrement_task a servers) = Return tt.
Proof.
  unfold LoadBalancer.decrement_task.
  now destruct (PyDict.mem servers a).
Qed.

Lemma call_increment_task_run a w :
  exists w', call_increment_task a w = (Return tt, w') /\
             calls w' = calls w ++ [CallIncrement a].
Proof.
  unfold call_increment_task, bind, log, modify, on_lb. cbn [lb].
  pose proof (increment_task_returns a (lb w)) as H.
  destruct (LoadBalancer.increment_task a (lb w)) as [r servers].
  simpl in H. subst r. eexists. split; reflexivity.
Qed.

Lemma call_decrement_task_run a w :
  exists w', call_decrement_task a w = (Return tt, w') /\
             calls w' = calls w ++ [CallDecrement a].
Proof.
  unfold call_decrement_task, bind, log, modify, on_lb. cbn [lb].
  pose proof (decrement_task_returns a (lb w)) as H.
  destruct (LoadBalancer.decrement_task a (lb w)) as [r servers].
  simpl in H. subst r. eexists. split; reflexivity.
Qed.

Lemma call_run_calls tool wf name timeout w :
  calls (snd (call_run env tool wf name timeout w)) =
  calls w ++ [CallRun (ComfyuiTool.server_address tool)].
Proof.
  unfold call_run, bind, log, modify, lift. reflexivity.
Qed.

(** The run and the extraction add at most the call of the run. *)
Lemma run_and_extract_calls video tool timeout w :
  (calls (snd (run_and_extract env fs video tool timeout w)) = calls w /\
   fst (run_and_extract env fs video tool timeout w) <> Hang) \/
  calls (snd (run_and_extract env fs video tool timeout w)) =
  calls w ++ [CallRun (ComfyuiTool.server_address tool)].
Proof.
  unfold run_and_extract.
  destruct (loaded (ComfyuiTool.workflow tool)); [|left; split; [reflexivity | discriminate]].
  destruct (ComfyuiTool.workflow tool) as [wf|];
    [|left; split; [reflexivity | discriminate]].
  right. unfold bind at 1.
  pose proof (call_run_calls tool wf (unique_filename fs) timeout w) as Hrun.
  destruct (call_run env tool wf (unique_filename fs) timeout w) as [[run|e|] w1];
    cbn [snd] in *; try exact Hrun.
  revert Hrun. generalize (calls w ++ [CallRun (ComfyuiTool.server_address tool)]).
  intros c Hc.
  assert (P : preserves (calls_are c)
                (bind (lift (outputs_of run)) (fun outputs =>
                 bind (lift (fetch_first video
                               (backend env (ComfyuiTool.server_address tool))
                               outputs None)) (fun bytes =>
                   match bytes with
                   | None | Some EmptyString =>
                       ret (NoOutput (unique_filename fs)
                                     (ComfyuiTool.server_address tool))
                   | Some b =>
                       if video then
                         bind (lift (write_processed fs)) (fun _ =>
                           ret (Processed (unique_filename fs) b (processed_filename fs)
                                          (ComfyuiTool.server_address tool)))
                       else
                         bind (lift (encode_png fs b)) (fun png =>
                         bind (lift (write_processed fs)) (fun _ =>
                           ret (Processed (unique_filename fs) png (processed_filename fs)
                                          (ComfyuiTool.server_address tool))))
                   end)))).
  { preserve. destruct a0 as [[|]|]; preserve. destruct video; preserve. }
  exact (P w1 Hc).
Qed.

Lemma dispatch_calls video timeout detail w r w' :
  dispatch env fs video timeout detail w = (r, w') ->
  (r <> Hang -> bracketed (calls w) (calls w')) /\
  (r = Hang -> left_open (calls w) (calls w')).
Proof.
  unfold dispatch, try_except, bind.
  pose proof (get_tool_for_request_calls w) as Htool.
  pose proof (get_tool_for_request_no_hang w) as Hnh.
  destruct (get_tool_for_request env w) as [[tool|e|] w1]; cbn [fst snd] in *;
    [| unfold raise; intros [= <- <-]; split; [intros _; left; exact Htool | discriminate]
     | congruence ].
  destruct (call_increment_task_run (ComfyuiTool.server_address tool) w1)
    as (w2 & -> & Hinc).
  unfold try_finally.
  pose proof (run_and_extract_calls video tool timeout w2) as Hrun.
  destruct (run_and_extract env fs video tool timeout w2) as [r0 w3];
    cbn [fst snd] in Hrun.
  destruct (call_decrement_task_run (ComfyuiTool.server_address tool) w3)
    as (w4 & Hdec & Hcalls).
  rewrite Hinc, Htool in Hrun.
  destruct r0 as [resp|e|]; rewrite ?Hdec; unfold raise; intros [= <- <-].
  - split; [|discriminate]. intros _. right.
    exists (ComfyuiTool.server_address tool). rewrite Hcalls.
    destruct Hrun as [[-> _] | ->]; rewrite <- !app_assoc; [left | right]; reflexivity.
  - split; [|discriminate]. intros _. right.
    exists (ComfyuiTool.server_address tool). rewrite Hcalls.
    destruct Hrun as [[-> _] | ->]; rewrite <- !app_assoc; [left | right]; reflexivity.
  - split; [congruence|]. intros _.
    exists (ComfyuiTool.server_address tool).
    destruct Hrun as [[_ Hrun] | ->]; [congruence | now rewrite <- app_assoc].
Qed.

Lemma reload_template_calls template mode w :
  calls (snd (reload_template fs template mode w)) = calls w.
Proof.
  unfold reload_template.
  destruct (match current_template (pool w) with
            | Some t => String.eqb template t
            | None => false
            end); [reflexivity|].
  destruct (read_template fs _ template) as [[[|]| |]|]; reflexivity.
Qed.

Lemma store_upload_calls w : calls (snd (store_upload env fs w)) = calls w.
Proof.
  unfold store_upload, bind, try_except, lift, raise.
  destruct (save_upload fs); try reflexivity.
  destruct (copy_to_input fs); reflexivity.
Qed.

Lemma prelude_then_dispatch_calls template mode video timeout detail w r w' :
  (reload_template fs template mode ;;
   store_upload env fs ;;
   dispatch env fs video timeout detail)%py w = (r, w') ->
  r <> Hang -> bracketed (calls w) (calls w').
Proof.
  unfold bind.
  pose proof (reload_template_calls template mode w) as H1.
  destruct (reload_template fs template mode w) as [[u|e|] w1]; cbn [snd] in H1.
  - pose proof (store_upload_calls w1) as H2.
    destruct (store_upload env fs w1) as [[u'|e|] w2]; cbn [snd] in H2.
    + intros Hd Hr. rewrite <- H1, <- H2.
      exact (proj1 (dispatch_calls _ _ _ _ _ _ Hd) Hr).
    + intros [= <- <-] _. left. congruence.
    + intros [= <- <-] Hr. congruence.
  - intros [= <- <-] _. left. congruence.
  - intros [= <- <-] Hr. congruence.
Qed.

Lemma process_image_calls image template mode w r w' :
  process_image env fs image template mode w = (r, w') ->
  r <> Hang -> bracketed (calls w) (calls w').
Proof.
  unfold process_image. destruct image as [img|].
  - apply prelude_then_dispatch_calls.
  - unfold raise. intros [= <- <-] _. now left.
Qed.

Lemma process_video_calls image template mode w r w' :
  process_video env fs image template mode w = (r, w') ->
  r <> Hang -> bracketed (calls w) (calls w').
Proof.
  unfold process_video. destruct image as [img|].
  - destruct (_ || _).
    + apply prelude_then_dispatch_calls.
    + unfold raise. intros [= <- <-] _. now left.
  - unfold raise. intros [= <- <-] _. now left.
Qed.

End Dispatch.

Lemma bracketed_added before after :
  bracketed before after ->
  exists added,
    after = before ++ added /\ bracket added /\
    forall b, In (CallIncrement b) added ->
              times (CallIncrement b) added = 1%nat /\
              times (CallDecrement b) added = 1%nat.
Proof.
  intros [-> | (b & [-> | ->])].
  - exists []. rewrite app_nil_r. split; [reflexivity|]. split; [now left|].
    intros b [].
  - eexists. split; [reflexivity|]. split; [right; exists b; now left|].
    intros b' [H|[H|[]]]; [|discriminate]. injection H as ->.
    unfold times. simpl. rewrite String.eqb_refl. split; reflexivity.
  - eexists. split; [reflexivity|]. split; [right; exists b; now right|].
    intros b' [H|[H|[H|[]]]]; try discriminate. injection H as ->.
    unfold times. simpl. rewrite String.eqb_refl. split; reflexivity.
Qed.

(** C5: for both handlers and whatever the backends, the files and the
    other threads do, a request that comes back (with a response or with an
    error) has added to the calls on the load balancer either nothing or
    one [increment_task(b)] followed, after the run, by one
    [decrement_task(b)]: every increment that was executed has exactly one
    matching decrement. *)
Theorem dispatch_is_bracketed :
  forall (env : environment) (fs : filesystem) (image : option upload)
         (template mode : string) (w : world),
    let image_run := process_image env fs image template mode w in
    let video_run := process_video env fs image template mode w in
    (fst image_run <> Hang ->
     exists added,
       calls (snd image_run) = calls w ++ added /\ bracket added /\
       forall b, In (CallIncrement b) added ->
                 times (CallIncrement b) added = 1%nat /\
                 times (CallDecrement b) added = 1%nat) /\
    (fst video_run <> Hang ->
     exists added,
       calls (snd video_run) = calls w ++ added /\ bracket added /\
       forall b, In (CallIncrement b) added ->
                 times (CallIncrement b) added = 1%nat /\
                 times (CallDecrement b) added = 1%nat).
Proof.
  intros env fs image template mode w image_run video_run. split; intros Hr.
  - apply bracketed_added.
    apply (process_image_calls env fs image template mode w (fst image_run));
      [apply surjective_pairing | exact Hr].
  - apply bracketed_added.
    apply (process_video_calls env fs image template mode w (fst video_run));
      [apply surjective_pairing | exact Hr].
Qed.

(** ** Preloading a template *)

Section Preload.
Variable env : environment.

Local Abbreviation outcome := (Handlers.outcome env).
Local Abbreviation report := (Handlers.report env).
Local Abbreviation results_of := (Handlers.results_of env).

(** The outcome of a preload does not depend on the tool it runs on, and
    it is never an exception. *)
Lemma preload_on_server_outcome wf addr tool :
  fst (preload_on_server env wf (preload_timeout (settings env)) (addr, tool)) =
  outcome wf addr.
Proof.
  unfold outcome, preload_on_server, ComfyuiTool.preload_full_workflow,
    try_except, bind, lift, ret, modify. cbn [fst snd].
  destruct wf as [|node wf]; [reflexivity|].
  destruct (negb _ && negb _); [reflexivity|].
  destruct (ComfyuiTool.rewrite_for_preload _ _) as [wf_copy|e|]; try reflexivity.
  destruct (ComfyuiTool.prompt_reply _ _) as [resp|e|]; try reflexivity.
  destruct (ComfyuiTool.prompt_id_of resp) as [[pid|]|e|]; try reflexivity.
  destruct (fst (ComfyuiTool._wait_for_prompt_exec _ _ _ _ _)) as [[|]|e|];
    reflexivity.
Qed.

Lemma outcome_not_raise wf addr e : outcome wf addr <> Raise e.
Proof.
  unfold outcome, preload_on_server, ComfyuiTool.preload_full_workflow,
    try_except, bind, lift, ret, modify. cbn [fst snd].
  destruct wf as [|node wf]; [discriminate|].
  destruct (negb _ && negb _); [discriminate|].
  destruct (ComfyuiTool.rewrite_for_preload _ _) as [wf_copy|e'|]; try discriminate.
  destruct (ComfyuiTool.prompt_reply _ _) as [resp|e'|]; try discriminate.
  destruct (ComfyuiTool.prompt_id_of resp) as [[pid|]|e'|]; try discriminate.
  destruct (fst (ComfyuiTool._wait_for_prompt_exec _ _ _ _ _)) as [[|]|e'|];
    discriminate.
Qed.

Lemma outcome_report wf addr :
  outcome wf addr <> Hang -> outcome wf addr = Return (report wf addr).
Proof.
  unfold report. pose proof (outcome_not_raise wf addr) as Hr.
  destruct (outcome wf addr); congruence.
Qed.

Lemma collect_reports wf addrs acc :
  collect (map (fun a => (a, Return (report wf a))) addrs) acc =
  Return (fold_left (fun acc a => PyDict.set acc a (report wf a)) addrs acc).
Proof.
  revert acc. induction addrs as [|a addrs IH]; intros acc; simpl; [reflexivity|].
  apply IH.
Qed.

Lemma get_fold_reports wf addrs acc a :
  PyDict.get (fold_left (fun acc a => PyDict.set acc a (report wf a)) addrs acc) a =
  if existsb (String.eqb a) addrs then Some (report wf a) else PyDict.get acc a.
Proof.
  revert acc. induction addrs as [|x addrs IH]; intros acc; simpl; [reflexivity|].
  rewrite IH, PyDictFacts.get_set.
  destruct (String.eqb_spec a x) as [->|Hne].
  - simpl. rewrite String.eqb_refl. now destruct (existsb _ addrs).
  - simpl. destruct (existsb _ addrs); [reflexivity|].
    destruct (String.eqb_spec x a); [congruence | reflexivity].
Qed.

Lemma existsb_eqb_in a addrs : existsb (String.eqb a) addrs = true <-> In a addrs.
Proof.
  rewrite existsb_exists. split.
  - intros (x & Hin & E). apply String.eqb_eq in E. now subst.
  - intros H. exists a. split; [assumption | apply String.eqb_refl].
Qed.

Lemma get_results_of wf addrs a :
  (In a addrs -> PyDict.get (results_of wf addrs) a = Some (report wf a)) /\
  (~ In a addrs -> PyDict.get (results_of wf addrs) a = None).
Proof.
  unfold results_of. rewrite get_fold_reports. split; intros H.
  - apply existsb_eqb_in in H. now rewrite H.
  - destruct (existsb (String.eqb a) addrs) eqn:E; [|reflexivity].
    apply existsb_eqb_in in E. contradiction.
Qed.

Lemma in_set_inv {V} (d : PyDict.t V) k v k' v' :
  In (k, v) (PyDict.set d k' v') -> In (k, v) d \/ (k = k' /\ v = v').
Proof.
  induction d as [|[k0 v0] d IH]; simpl.
  - intros [H|[]]. injection H as <- <-. now right.
  - destruct (String.eqb_spec k0 k') as [->|Hne]; simpl.
    + intros [H|H]; [injection H as <- <-; now right | left; now right].
    + intros [H|H]; [left; now left|].
      destruct (IH H) as [H'|H']; [left; now right | now right].
Qed.

Lemma in_results_of wf addrs k v :
  In (k, v) (results_of wf addrs) -> In k addrs /\ v = report wf k.
Proof.
  unfold results_of.
  assert (G : forall acc,
             In (k, v) (fold_left (fun acc a => PyDict.set acc a (report wf a)) addrs acc) ->
             In (k, v) acc \/ (In k addrs /\ v = report wf k)).
  { induction addrs as [|a addrs IH]; intros acc; simpl; [now left|].
    intros H. destruct (IH _ H) as [H'|[H1 H2]].
    - destruct (in_set_inv _ _ _ _ _ H') as [H''|[-> ->]]; [now left|].
      right. split; [now left | reflexivity].
    - right. split; [now right | assumption]. }
  intros H. destruct (G [] H) as [[]|H']. exact H'.
Qed.

(** No result is a success exactly when no preload succeeded. *)
Lemma success_count_zero wf addrs :
  (success_count (results_of wf addrs) =? 0) = true <->
  forall a, In a addrs -> fst (report wf a) = false.
Proof.
  unfold success_count. rewrite Z.eqb_eq. split.
  - intros H a Ha.
    destruct (fst (report wf a)) eqn:E; [|reflexivity].
    assert (Hin : In (a, report wf a)
                     (filter (fun kv : string * (bool * ComfyuiTool.preload_info) =>
                                fst (snd kv)) (results_of wf addrs))).
    { apply filter_In. split; [|exact E].
      apply PyDictFacts.get_in. now apply get_results_of. }
    destruct (filter _ (results_of wf addrs)); [contradiction | discriminate H].
  - intros H.
    destruct (filter (fun kv : string * (bool * ComfyuiTool.preload_info) =>
                        fst (snd kv)) (results_of wf addrs)) as [|[k v] l] eqn:E;
      [reflexivity|].
    assert (Hin : In (k, v) (filter (fun kv : string * (bool * ComfyuiTool.preload_info) =>
                                       fst (snd kv)) (results_of wf addrs)))
      by (rewrite E; now left).
    apply filter_In in Hin. destruct Hin as [Hin Hok]. simpl in Hok.
    apply in_results_of in Hin. destruct Hin as [Hk ->].
    rewrite (H k Hk) in Hok. discriminate.
Qed.

Lemma keys_load_workflow wf name w :
  PyDict.keys (tools (pool (snd (load_workflow wf name w)))) =
  PyDict.keys (tools (pool w)).
Proof.
  unfold load_workflow, modify, PyDict.keys. cbn. rewrite map_map. reflexivity.
Qed.

(** The fan-out: every tool gets its job, and the results are read once
    each job has ended. *)
Lemma preload_all_servers_run wf w :
  tools (pool w) <> [] ->
  (forall a, In a (PyDict.keys (tools (pool w))) -> outcome wf a <> Hang) ->
  fst (preload_all_servers env wf (preload_timeout (settings env)) w) =
  Return (results_of wf (PyDict.keys (tools (pool w)))) /\
  calls (snd (preload_all_servers env wf (preload_timeout (settings env)) w)) =
  calls w ++ map CallPreload (PyDict.keys (tools (pool w))).
Proof.
  intros Hne Hnh. unfold preload_all_servers.
  destruct (tools (pool w)) as [|kv t] eqn:Et; [congruence|].
  cbn [fst snd calls]. split; [|reflexivity].
  rewrite map_map. cbn [fst snd].
  rewrite (map_ext_in _ (fun kv => (fst kv, Return (report wf (fst kv))))).
  - rewrite <- (map_map fst (fun a => (a, Return (report wf a)))).
    rewrite collect_reports. reflexivity.
  - intros [a tool] Hin. cbn [fst snd]. f_equal.
    rewrite preload_on_server_outcome. apply outcome_report. apply Hnh.
    unfold PyDict.keys. change a with (fst (a, tool)). now apply in_map.
Qed.

Lemma load_template_image fs template w wf :
  read_template fs (String.eqb "image" "video") template = Some (Return wf) ->
  wf <> [] ->
  tools (pool w) <> [] ->
  (forall a, In a (PyDict.keys (tools (pool w))) -> outcome wf a <> Hang) ->
  let results := results_of wf (PyDict.keys (tools (pool w))) in
  exists w',
    load_template env fs template "image" w =
    (if success_count results =? 0
     then Raise (HTTPException 500
                   ("Preload failed on all servers: " ++ str_results env results)%string)
     else Return (TemplateLoaded "image" (Some results)), w') /\
    calls w' = calls w ++ map CallPreload (PyDict.keys (tools (pool w))).
Proof.
  intros Hread Hwf Hne Hnh results. unfold load_template. rewrite Hread.
  destruct wf as [|node wf]; [congruence|].
  unfold bind at 1.
  set (w1 := snd (load_workflow (node :: wf) template w)).
  assert (E1 : load_workflow (node :: wf) template w = (Return tt, w1)) by reflexivity.
  rewrite E1. clear E1.
  assert (Hk : PyDict.keys (tools (pool w1)) = PyDict.keys (tools (pool w)))
    by apply keys_load_workflow.
  assert (Hc : calls w1 = calls w) by reflexivity.
  change (String.eqb "image" "image") with true. cbv iota.
  unfold bind.
  destruct (preload_all_servers_run (node :: wf) w1) as [Hres Hcalls].
  - intros E. apply (f_equal (@PyDict.keys _)) in E. rewrite Hk in E.
    destruct (tools (pool w)); [congruence | discriminate].
  - rewrite Hk. exact Hnh.
  - rewrite Hk, Hc in *.
    destruct (preload_all_servers env (node :: wf) (preload_timeout (settings env)) w1)
      as [r w2]; cbn [fst snd] in *. subst r. fold results.
    unfold raise, ret. exists w2.
    destruct (success_count results =? 0); split; auto.
Qed.

Lemma preload_all_servers_calls wf timeout w :
  tools (pool w) <> [] ->
  calls (snd (preload_all_servers env wf timeout w)) =
  calls w ++ map CallPreload (PyDict.keys (tools (pool w))).
Proof.
  intros Hne. unfold preload_all_servers.
  destruct (tools (pool w)) as [|kv t]; [congruence | reflexivity].
Qed.

(** The results are read in the order of submission: a job that does not
    come back keeps the reader waiting, whatever the others did. *)
Lemma collect_hang outcomes :
  forall acc,
    (forall a r, In (a, r) outcomes -> forall e, r <> Raise e) ->
    (exists a, In (a, Hang) outcomes) ->
    collect outcomes acc = Hang.
Proof.
  induction outcomes as [|[a r] rest IH]; intros acc Hnr (b & Hin); [contradiction|].
  cbn [collect]. destruct r as [x|e|].
  - apply IH.
    + intros a' r' H. apply (Hnr a' r'). now right.
    + destruct Hin as [Heq|Hin]; [discriminate | now exists b].
  - exfalso. now apply (Hnr a (Raise e) (or_introl eq_refl) e).
  - reflexivity.
Qed.

Lemma preload_all_servers_hang wf w a :
  In a (PyDict.keys (tools (pool w))) ->
  outcome wf a = Hang ->
  fst (preload_all_servers env wf (preload_timeout (settings env)) w) = Hang.
Proof.
  intros Hin Hhang. unfold preload_all_servers.
  destruct (tools (pool w)) as [|kv t] eqn:Et; [contradiction|].
  cbn [fst]. rewrite map_map. cbn [fst snd].
  apply collect_hang.
  - intros a' r Hr e. apply in_map_iff in Hr. destruct Hr as ([k tool] & Heq & _).
    cbn [fst] in Heq. injection Heq as <- <-.
    rewrite preload_on_server_outcome. apply outcome_not_raise.
  - exists a. unfold PyDict.keys in Hin. apply in_map_iff in Hin.
    destruct Hin as ([k tool] & Heq & Hin). cbn [fst] in Heq. subst k.
    apply in_map_iff. exists (a, tool). split; [|exact Hin].
    cbn [fst]. now rewrite preload_on_server_outcome, Hhang.
Qed.

(** [load_template] in image mode, once the template is read. *)
Lemma load_template_image_run fs template w wf :
  read_template fs (String.eqb "image" "video") template = Some (Return wf) ->
  wf <> [] ->
  load_template env fs template "image" w =
  match preload_all_servers env wf (preload_timeout (settings env))
          (snd (load_workflow wf template w)) with
  | (Return results, w') =>
      (if success_count results =? 0
       then Raise (HTTPException 500
                     ("Preload failed on all servers: " ++ str_results env results)%string)
       else Return (TemplateLoaded "image" (Some results)), w')
  | (Raise e, w') => (Raise e, w')
  | (Hang, w') => (Hang, w')
  end.
Proof.
  intros Hread Hwf. unfold load_template. rewrite Hread.
  destruct wf as [|node wf]; [congruence|].
  unfold bind at 1.
  change (load_workflow (node :: wf) template w)
    with (Return tt, snd (load_workflow (node :: wf) template w)).
  cbv iota. change (String.eqb "image" "image") with true. cbv iota.
  unfold bind.
  destruct (preload_all_servers env (node :: wf) (preload_timeout (settings env)) _)
    as [[results|e|] w']; try reflexivity.
  unfold raise, ret. now destruct (success_count results =? 0).
Qed.

(** C9: once the template file is read, [load_template] in image mode
    starts one preload per tool of the pool (every registered backend has
    one between two handlers, and so has a backend that was removed) and
    waits for all of them: when one does not come back, neither does
    [load_template]; when all come back it fails exactly when none
    succeeded, with the 500 of [Preload failed on all servers: {results}]
    (an empty pool is refused before that), and with at least one success
    it returns the result of every tool; in any other mode no preload is
    started. *)
Theorem load_template_preloads :
  forall (fs : filesystem) (template mode : string) (w : world)
         (wf : ComfyuiTool.node_graph),
    read_template fs (String.eqb mode "video") template = Some (Return wf) ->
    wf <> [] ->
    let run := load_template env fs template mode w in
    let addrs := PyDict.keys (tools (pool w)) in
    (mode = "image" ->
     ((exists a, In a addrs /\ outcome wf a = Hang) -> fst run = Hang) /\
     ((forall a, In a addrs -> outcome wf a <> Hang) ->
      ((forall a, In a addrs -> fst (report wf a) = false) <->
       exists e, fst run = Raise e) /\
      (addrs <> [] -> (forall a, In a addrs -> fst (report wf a) = false) ->
       fst run = Raise (HTTPException 500
                          ("Preload failed on all servers: " ++
                           str_results env (results_of wf addrs))%string)) /\
      ((exists a, In a addrs /\ fst (report wf a) = true) ->
       exists results,
         fst run = Return (TemplateLoaded mode (Some results)) /\
         (forall a, In a addrs -> PyDict.get results a = Some (report wf a)) /\
         (forall a, ~ In a addrs -> PyDict.get results a = None))) /\
     (addrs <> [] -> calls (snd run) = calls w ++ map CallPreload addrs) /\
     (covered w -> addrs <> [] ->
      forall a, In a (PyDict.keys (lb w)) -> In (CallPreload a) (calls (snd run)))) /\
    (mode <> "image" ->
     fst run = Return (TemplateLoaded mode None) /\
     calls (snd run) = calls w /\
     forall a, option_map ComfyuiTool.preloaded (PyDict.get (tools (pool (snd run))) a) =
               option_map ComfyuiTool.preloaded (PyDict.get (tools (pool w)) a)).
Proof.
  intros fs template mode w wf Hread Hwf run addrs. split.
  - intros ->.
    assert (Hk : PyDict.keys (tools (pool (snd (load_workflow wf template w)))) = addrs)
      by apply keys_load_workflow.
    assert (Hcalls : addrs <> [] ->
                     calls (snd run) = calls w ++ map CallPreload addrs).
    { intros Hne. subst run.
      rewrite (load_template_image_run fs template w wf Hread Hwf).
      pose proof (preload_all_servers_calls wf (preload_timeout (settings env))
                    (snd (load_workflow wf template w))) as Hc.
      rewrite Hk in Hc.
      destruct (preload_all_servers env wf (preload_timeout (settings env)) _)
        as [[results|e|] w']; cbn [snd] in *; apply Hc;
        intros E; apply Hne; rewrite <- Hk, E; reflexivity. }
    split; [|split; [|split]].
    + (* one preload does not come back *)
      intros (a & Ha & Hhang). subst run.
      rewrite (load_template_image_run fs template w wf Hread Hwf).
      pose proof (preload_all_servers_hang wf (snd (load_workflow wf template w)) a)
        as Hh.
      rewrite Hk in Hh. specialize (Hh Ha Hhang).
      destruct (preload_all_servers env wf (preload_timeout (settings env)) _)
        as [[results|e|] w']; cbn [fst] in *; congruence.
    + (* every preload comes back *)
      intros Hnh.
      assert (Hd : {tools (pool w) = []} + {tools (pool w) <> []})
        by (destruct (tools (pool w)); [left; reflexivity | right; discriminate]).
      destruct Hd as [Et|Hne].
      * (* no tool: the executor is refused *)
        assert (E : fst run = Raise ValueError).
        { subst run. unfold load_template. rewrite Hread.
          destruct wf as [|node wf]; [congruence|].
          unfold bind, load_workflow, modify, preload_all_servers. cbn.
          rewrite Et. reflexivity. }
        subst addrs. rewrite Et. cbn [PyDict.keys map].
        split; [|split].
        -- split; [intros _; eexists; exact E | intros _ a []].
        -- congruence.
        -- intros (a & [] & _).
      * destruct (load_template_image fs template w wf Hread Hwf Hne Hnh)
          as (w' & Hrun & _).
        assert (Hres : fst run =
                       if success_count (results_of wf addrs) =? 0
                       then Raise (HTTPException 500
                                     ("Preload failed on all servers: " ++
                                      str_results env (results_of wf addrs))%string)
                       else Return (TemplateLoaded "image" (Some (results_of wf addrs))))
          by (subst run addrs; now rewrite Hrun).
        clear Hrun.
        pose proof (success_count_zero wf addrs) as Hz.
        split; [|split].
        -- split.
           ++ intros Hall. rewrite (proj2 Hz Hall) in Hres. eexists. exact Hres.
           ++ intros (e & He). rewrite He in Hres. apply Hz.
              destruct (Bool.bool_dec (success_count (results_of wf addrs) =? 0) true)
                as [E|E]; [exact E|].
              apply not_true_is_false in E. rewrite E in Hres. discriminate.
        -- intros _ Hall. now rewrite (proj2 Hz Hall) in Hres.
        -- intros (a & Ha & Hok). exists (results_of wf addrs).
           destruct (Bool.bool_dec (success_count (results_of wf addrs) =? 0) true)
             as [E|E].
           ++ rewrite (proj1 Hz E a Ha) in Hok. discriminate.
           ++ apply not_true_is_false in E. rewrite E in Hres.
              split; [exact Hres|]. split; intros a'; apply get_results_of.
    + exact Hcalls.
    + intros Hcov Hne a Ha. rewrite (Hcalls Hne). apply in_or_app. right.
      apply in_map. apply Hcov. exact Ha.
  - intros Hmode. subst run. unfold load_template. rewrite Hread.
    destruct wf as [|node wf]; [congruence|].
    assert (E : String.eqb mode "image" = false).
    { destruct (String.eqb_spec mode "image"); [contradiction | reflexivity]. }
    unfold bind, load_workflow, modify, ret. rewrite E. cbn [fst snd].
    repeat split.
    intros a. cbn. induction (tools (pool w)) as [|[k tool] t IH]; [reflexivity|].
    cbn. destruct (String.eqb k a); [reflexivity | exact IH].
Qed.

(** ** Every registered backend has a tool *)

Lemma in_keys_set {V} (d : PyDict.t V) k v a :
  In a (PyDict.keys (PyDict.set d k v)) <-> In a (PyDict.keys d) \/ a = k.
Proof.
  destruct (PyDict.mem d k) eqn:E.
  - rewrite PyDictFacts.keys_set_present by assumption.
    split; [now left | intros [H| ->]; [assumption | now apply PyDictFacts.mem_in_keys]].
  - rewrite PyDictFacts.keys_set_absent by assumption. rewrite in_app_iff. simpl.
    split.
    + intros [H|[<-|[]]]; [now left | now right].
    + intros [H| ->]; [now left | right; now left].
Qed.

Lemma keys_within_assign known a f :
  preserves (keys_within known) (LoadBalancer.assign a f).
Proof.
  intros servers H. unfold LoadBalancer.assign, modify. cbn [snd].
  destruct (PyDict.get servers a) eqn:E; [|exact H].
  intros x Hx. apply H. apply in_keys_set in Hx. destruct Hx as [Hx| ->]; [assumption|].
  apply PyDictFacts.mem_in_keys. unfold PyDict.mem. now rewrite E.
Qed.

Lemma keys_within_getitem known a :
  preserves (keys_within known) (LoadBalancer.getitem a).
Proof.
  intros servers H. unfold LoadBalancer.getitem. now destruct (PyDict.get servers a).
Qed.

Lemma keys_within_mark_server_error known settings a :
  preserves (keys_within known) (LoadBalancer._mark_server_error settings a).
Proof.
  unfold LoadBalancer._mark_server_error. preserve.
  - apply keys_within_getitem.
  - apply keys_within_assign.
  - destruct (max_error_count settings <=? _); preserve. apply keys_within_assign.
Qed.

Lemma keys_within_run_op known settings o :
  not_add o = true -> preserves (keys_within known) (LoadBalancer.run_op settings o).
Proof.
  destruct o as [a|a|a reply now|a|a]; simpl; intros Hna; try discriminate.
  - intros servers H. unfold LoadBalancer.remove_server.
    destruct (PyDict.mem servers a); cbn [snd]; [|exact H].
    intros x Hx. apply H. unfold PyDict.keys, PyDict.del in *.
    apply in_map_iff in Hx. destruct Hx as (kv & <- & Hin).
    apply filter_In in Hin. apply in_map. tauto.
  - unfold LoadBalancer._update_server_status. preserve.
    + destruct reply as [e|code body]; preserve.
      destruct (code =? 200); [|apply keys_within_mark_server_error].
      preserve; try apply keys_within_getitem; apply keys_within_assign.
    + apply keys_within_mark_server_error.
  - intros servers H. unfold LoadBalancer.increment_task.
    destruct (PyDict.mem servers a); [|exact H]. now apply keys_within_assign.
  - intros servers H. unfold LoadBalancer.decrement_task.
    destruct (PyDict.mem servers a); [|exact H]. now apply keys_within_assign.
Qed.

Lemma keys_within_run_ops known settings ops servers :
  forallb not_add ops = true ->
  keys_within known servers ->
  keys_within known (LoadBalancer.run_ops settings ops servers).
Proof.
  revert servers. induction ops as [|o ops IH]; intros servers Hna H; simpl; [exact H|].
  simpl in Hna. apply andb_prop in Hna. destruct Hna as [Ho Hops].
  apply IH; [exact Hops|]. now apply keys_within_run_op.
Qed.

(** A step that leaves the pool alone and adds no address to the registry
    keeps every registered backend covered. *)
Lemma covered_on_lb {A} (m : M LoadBalancer.registry A) :
  (forall known, preserves (keys_within known) m) -> preserves covered (on_lb m).
Proof.
  intros Hm w Hc. unfold on_lb.
  pose proof (Hm (PyDict.keys (lb w)) (lb w) (fun a H => H)) as Hk.
  destruct (m (lb w)) as [r servers]. cbn [snd] in *.
  intros a Ha. apply Hc. now apply Hk.
Qed.

Lemma covered_log c : preserves covered (log c).
Proof. intros w Hc. exact Hc. Qed.

Lemma covered_get_tool_for_request : preserves covered (get_tool_for_request env).
Proof.
  intros w Hc. unfold get_tool_for_request.
  destruct (LoadBalancer.get_best_server _ _) as [best|]; [|exact Hc].
  destruct (String.eqb best ""); [exact Hc|]. cbn [snd].
  intros a Ha. cbn. apply in_keys_set. left. now apply Hc.
Qed.

Lemma covered_load_workflow wf name : preserves covered (load_workflow wf name).
Proof.
  intros w Hc a Ha. rewrite keys_load_workflow. now apply Hc.
Qed.

Lemma covered_preload_all_servers wf timeout :
  preserves covered (preload_all_servers env wf timeout).
Proof.
  intros w Hc. unfold preload_all_servers.
  destruct (tools (pool w)) as [|kv t] eqn:Et; [exact Hc|]. cbn [snd].
  intros a Ha. cbn [lb] in Ha. specialize (Hc a Ha). rewrite Et in Hc.
  cbn [pool tools]. unfold PyDict.keys in *. rewrite !map_map. cbn [fst].
  exact Hc.
Qed.

Section Handlers.
Variable fs : filesystem.
Hypothesis no_addition : forallb not_add (meanwhile env) = true.

Lemma covered_call_run tool wf name timeout :
  preserves covered (call_run env tool wf name timeout).
Proof.
  unfold call_run. preserve.
  - apply covered_log.
  - intros w Hc x Hx. cbn in Hx. apply Hc.
    revert x Hx. apply keys_within_run_ops; [exact no_addition | intros x H; exact H].
Qed.

Lemma covered_run_and_extract video tool timeout :
  preserves covered (run_and_extract env fs video tool timeout).
Proof.
  unfold run_and_extract.
  repeat (preserve;
          try match goal with
              | |- preserves _ (match ?x with _ => _ end) => destruct x
              end).
  apply covered_call_run.
Qed.

Lemma covered_dispatch video timeout detail :
  preserves covered (dispatch env fs video timeout detail).
Proof.
  unfold dispatch, call_increment_task, call_decrement_task. preserve.
  - apply covered_get_tool_for_request.
  - apply covered_log.
  - apply covered_on_lb. intros known servers H. unfold LoadBalancer.increment_task.
    destruct (PyDict.mem servers _); [|exact H]. now apply keys_within_assign.
  - apply covered_run_and_extract.
  - apply covered_log.
  - apply covered_on_lb. intros known servers H. unfold LoadBalancer.decrement_task.
    destruct (PyDict.mem servers _); [|exact H]. now apply keys_within_assign.
Qed.

Lemma covered_reload_template template mode :
  preserves covered (reload_template fs template mode).
Proof.
  intros w Hc. unfold reload_template.
  destruct (match current_template (pool w) with
            | Some t => String.eqb template t
            | None => false
            end); [exact Hc|].
  destruct (read_template fs _ template) as [[[|node wf]| |]|]; try exact Hc.
  now apply covered_load_workflow.
Qed.

(** The world of [main.py] is covered, and every handler keeps it so. *)
Lemma covered_started server_addresses :
  covered (mkWorld (LoadBalancer.init server_addresses)
                   (ToolPool.init (LoadBalancer.init server_addresses)) []).
Proof.
  intros a Ha. unfold ToolPool.init. cbn [lb pool tools] in *.
  revert Ha. generalize (PyDict.keys (LoadBalancer.init server_addresses)).
  intros ks Ha.
  assert (G : forall (acc : PyDict.t ComfyuiTool.ComfyUITool),
             In a (PyDict.keys acc) \/ In a ks ->
             In a (PyDict.keys (fold_left (fun t addr =>
                     PyDict.set t addr (ComfyuiTool.new_tool addr)) ks acc))).
  { clear Ha. induction ks as [|k ks IH]; intros acc H; cbn [fold_left].
    - destruct H as [H|[]]. exact H.
    - apply IH. destruct H as [H|[->|H]].
      + left. apply in_keys_set. now left.
      + left. apply in_keys_set. now right.
      + now right. }
  apply G. now right.
Qed.

Lemma covered_handlers image template mode address :
  preserves covered (process_image env fs image template mode) /\
  preserves covered (process_video env fs image template mode) /\
  preserves covered (load_template env fs template mode) /\
  preserves covered (Routers.add_server address) /\
  preserves covered (Routers.remove_server address).
Proof.
  repeat split.
  - unfold process_image. destruct image; preserve.
    + apply covered_reload_template.
    + unfold store_upload. preserve.
    + apply covered_dispatch.
  - unfold process_video. destruct image; preserve. destruct (_ || _); preserve.
    + apply covered_reload_template.
    + unfold store_upload. preserve.
    + apply covered_dispatch.
  - intros w Hc. unfold load_template.
    destruct (read_template fs _ template) as [[[|node wf]| |]|]; try exact Hc.
    revert w Hc.
    apply (MonadFacts.preserves_bind covered); [apply covered_load_workflow | intros _].
    destruct (String.eqb mode "image"); preserve.
    + apply covered_preload_all_servers.
    + match goal with |- preserves _ (if ?c then _ else _) => destruct c end; preserve.
  - intros w Hc.
    unfold Routers.add_server, ToolPool.add_server, add_server_register,
      add_server_tool, bind, on_lb, modify, ret, LoadBalancer.add_server.
    destruct (PyDict.mem (lb w) address) eqn:Em; cbn [fst snd set_lb lb pool];
      destruct (PyDict.mem (tools (pool w)) address) eqn:Et;
      intros x Hx; cbn [lb pool tools set_lb set_tools set_pool] in *.
    + now apply Hc.
    + apply in_keys_set. left. now apply Hc.
    + apply in_keys_set in Hx.
      destruct Hx as [Hx| ->]; [now apply Hc | now apply PyDictFacts.mem_in_keys].
    + apply in_keys_set. apply in_keys_set in Hx.
      destruct Hx as [Hx| ->]; [left; now apply Hc | now right].
  - unfold Routers.remove_server. preserve.
    apply covered_on_lb. intros known. apply (keys_within_run_op known default_settings
                                                 (LoadBalancer.OpRemove address)).
    reflexivity.
Qed.

End Handlers.
End Preload.

(** ** Three backends, one of which refuses the submission *)

Lemma load_template_preloads_witness :
  exists results,
    fst (load_template (three_backends []) files "swap.json" "image" started) =
    Return (TemplateLoaded "image" (Some results)) /\
    PyDict.get results "A" = Some (true, ComfyuiTool.Preloaded (JStr "job")) /\
    PyDict.get results "B" = Some (false, ComfyuiTool.PreloadException URLError) /\
    PyDict.get results "C" = Some (true, ComfyuiTool.Preloaded (JStr "job")).
Proof.
  destruct (load_template_preloads (three_backends []) files "swap.json" "image"
              started swap_workflow eq_refl) as [Himage _]; [discriminate|].
  destruct (Himage eq_refl) as (_ & Hback & _).
  destruct Hback as (_ & _ & Hsome).
  - intros a Ha. vm_compute in Ha.
    destruct Ha as [<-|[<-|[<-|[]]]]; vm_compute; discriminate.
  - destruct Hsome as (results & E & Hin & _).
    + exists "A". split; [now left | reflexivity].
    + exists results. split; [exact E|].
      split; [|split].
      * rewrite (Hin "A"); [reflexivity | vm_compute; auto].
      * rewrite (Hin "B"); [reflexivity | vm_compute; auto].
      * rewrite (Hin "C"); [reflexivity | vm_compute; auto].
Defined.

(** Scenario 6 of the specification, run. *)
Example preload_two_of_three :
  exists results w',
    load_template (three_backends []) files "swap.json" "image" started =
    (Return (TemplateLoaded "image" (Some results)), w') /\
    success_count results = 2 /\
    calls w' = [CallPreload "A"; CallPreload "B"; CallPreload "C"].
Proof.
  eexists. eexists.
  split; [vm_compute; reflexivity | split; vm_compute; reflexivity].
Qed.

(** A request served by the backend the shuffle puts first among equally
    loaded ones; then one whose backend is removed from the registry while
    the job runs: the decrement is called all the same, on a registry that
    no longer has the backend. *)
Example process_image_run :
  exists w',
    process_image (three_backends []) files (Some (mkUpload "me.png" "..."))
                  "swap.json" "image" loaded_world =
    (Return (Processed "upload.png" "PNG" "processed.png" "C"), w') /\
    calls w' = [CallIncrement "C"; CallRun "C"; CallDecrement "C"] /\
    lb w' = lb loaded_world.
Proof.
  eexists. split; [vm_compute; reflexivity | split; vm_compute; reflexivity].
Qed.

Example process_image_backend_removed :
  exists w',
    process_image (three_backends [LoadBalancer.OpRemove "C"]) files
                  (Some (mkUpload "me.png" "...")) "swap.json" "image" loaded_world =
    (Return (Processed "upload.png" "PNG" "processed.png" "C"), w') /\
    calls w' = [CallIncrement "C"; CallRun "C"; CallDecrement "C"] /\
    PyDict.keys (lb w') = ["A"; "B"].
Proof.
  eexists. split; [vm_compute; reflexivity | split; vm_compute; reflexivity].
Qed.

(** The first frame comes in at 700, after the deadline of 600: the run
    ends in a timeout, the handler in a 500, and the decrement is called. *)
Example process_image_timeout :
  exists w',
    process_image slow_backends files (Some (mkUpload "me.png" "..."))
                  "swap.json" "image" loaded_world =
    (Raise (HTTPException 500
              ("Processing error: " ++
               str_exn slow_backends
                 (RuntimeError "workflow run timeout or ws error, resp="
                               (Some (JDict [("prompt_id", JStr "job")]))))%string),
     w') /\
    calls w' = [CallIncrement "C"; CallRun "C"; CallDecrement "C"] /\
    lb w' = lb loaded_world.
Proof.
  eexists. split; [vm_compute; reflexivity | split; vm_compute; reflexivity].
Qed.

Lemma dispatch_is_bracketed_witness :
  exists added,
    calls (snd (process_image (three_backends []) files
                  (Some (mkUpload "me.png" "...")) "swap.json" "image" loaded_world)) =
    calls loaded_world ++ added /\
    bracket added /\
    forall b, In (CallIncrement b) added ->
              times (CallIncrement b) added = 1%nat /\
              times (CallDecrement b) added = 1%nat.
Proof.
  refine (proj1 (dispatch_is_bracketed (three_backends []) files
                   (Some (mkUpload "me.png" "...")) "swap.json" "image" loaded_world) _).
  vm_compute. discriminate.
Defined.

End HandlerFacts.


(* ===================================================================== *)
(** * The health check and the task accounting, further *)
(* ===================================================================== *)

Module HangFacts.
Section Facts.
Context {S : Type}.

Lemma no_hang_ret {A} (a : A) : no_hang (@ret S A a).
Proof. intros s; discriminate. Qed.

Lemma no_hang_raise {A} e : no_hang (@raise S A e).
Proof. intros s; discriminate. Qed.

Lemma no_hang_lift {A} (r : result A) : r <> Hang -> no_hang (@lift S A r).
Proof. intros H s; exact H. Qed.

Lemma no_hang_modify (f : S -> S) : no_hang (modify f).
Proof. intros s; discriminate. Qed.

Lemma no_hang_bind {A B} (m : M S A) (f : A -> M S B) :
  no_hang m -> (forall a, no_hang (f a)) -> no_hang (bind m f).
Proof.
  intros Hm Hf s. unfold bind. specialize (Hm s).
  destruct (m s) as [[a|e|] s']; cbn in *; [apply Hf | discriminate | congruence].
Qed.

Lemma no_hang_try_except {A} (m : M S A) (h : exn -> M S A) :
  no_hang m -> (forall e, no_hang (h e)) -> no_hang (try_except m h).
Proof.
  intros Hm Hh s. unfold try_except. specialize (Hm s).
  destruct (m s) as [[a|e|] s']; cbn in *; [discriminate | apply Hh | congruence].
Qed.

(** A body that comes back, under a handler that returns wherever the body
    may have left the state. *)
Lemma try_except_returns (I : S -> Prop) (body : M S unit) (h : exn -> M S unit) :
  preserves I body -> no_hang body ->
  (forall e s, I s -> fst (h e s) = Return tt) ->
  forall s, I s -> fst (try_except body h s) = Return tt.
Proof.
  intros Hp Hn Hh s Hs. unfold try_except.
  specialize (Hp s Hs). specialize (Hn s).
  destruct (body s) as [[[]|e|] s']; cbn in *;
    [reflexivity | apply Hh; exact Hp | congruence].
Qed.

End Facts.
End HangFacts.

Ltac never_hangs :=
  repeat match goal with
         | |- no_hang (bind _ _) => apply HangFacts.no_hang_bind; [|intros ?]
         | |- no_hang (try_except _ _) => apply HangFacts.no_hang_try_except; [|intros ?]
         | |- no_hang (ret _) => apply HangFacts.no_hang_ret
         | |- no_hang (raise _) => apply HangFacts.no_hang_raise
         | |- no_hang (modify _) => apply HangFacts.no_hang_modify
         end.

Module ProbeFacts.
Import LoadBalancer PyDictFacts Registry HealthCheck.

Lemma py_get_default_no_hang v k d : py_get_default v k d <> Hang.
Proof. destruct v; discriminate. Qed.

Lemma py_len_no_hang v : py_len v <> Hang.
Proof. destruct v; discriminate. Qed.

Lemma no_hang_getitem a : no_hang (getitem a).
Proof. intros s. unfold getitem. destruct (PyDict.get s a); discriminate. Qed.

Lemma no_hang_assign a f : no_hang (assign a f).
Proof. apply HangFacts.no_hang_modify. Qed.

Lemma no_hang_mark_server_error settings a : no_hang (_mark_server_error settings a).
Proof.
  unfold _mark_server_error. never_hangs.
  - apply no_hang_getitem.
  - apply no_hang_assign.
  - destruct (max_error_count settings <=? error_count a0 + 1);
      [apply no_hang_assign | apply HangFacts.no_hang_ret].
Qed.

Lemma no_hang_update_server_status settings reply now a :
  no_hang (_update_server_status settings reply now a).
Proof.
  unfold _update_server_status.
  apply HangFacts.no_hang_try_except; [|intros ?; apply no_hang_mark_server_error].
  destruct reply as [e|code body]; [apply HangFacts.no_hang_raise|].
  destruct (code =? 200); [|apply no_hang_mark_server_error].
  never_hangs;
    try apply no_hang_assign; try apply no_hang_getitem;
    apply HangFacts.no_hang_lift;
    first [ apply py_get_default_no_hang | apply py_len_no_hang
          | destruct body; discriminate ].
Qed.

(** ** What a probe leaves alone *)

Lemma same_tasks_refl st : same_tasks st st.
Proof. split; reflexivity. Qed.

Lemma same_tasks_trans st1 st2 st3 :
  same_tasks st1 st2 -> same_tasks st2 st3 -> same_tasks st1 st3.
Proof. intros [A1 T1] [A2 T2]. split; congruence. Qed.

Lemma probe_frame_refl a servers : probe_frame a servers servers.
Proof.
  split; [reflexivity|]. split; [reflexivity|].
  intros st H. exists st. split; [exact H | apply same_tasks_refl].
Qed.

Lemma frame_assign a servers f :
  (forall st, same_tasks st (f st)) ->
  preserves (probe_frame a servers) (assign a f).
Proof.
  intros Hf s Hs. unfold assign, modify. cbn [snd].
  destruct (PyDict.get s a) as [st1|] eqn:E; [|exact Hs].
  destruct Hs as (Hk & Ho & Ha).
  split; [|split].
  - rewrite keys_set_present; [exact Hk|]. unfold PyDict.mem. now rewrite E.
  - intros b Hb. rewrite get_set_other by congruence. now apply Ho.
  - intros st Hst. destruct (Ha st Hst) as (st' & G & T).
    rewrite G in E. injection E as ->.
    exists (f st1). split; [apply get_set_same|].
    eapply same_tasks_trans; [exact T | apply Hf].
Qed.

Lemma frame_getitem a b servers : preserves (probe_frame a servers) (getitem b).
Proof.
  intros s H. unfold getitem. destruct (PyDict.get s b); exact H.
Qed.

Lemma frame_mark_server_error settings a servers :
  preserves (probe_frame a servers) (_mark_server_error settings a).
Proof.
  unfold _mark_server_error. preserve.
  - apply frame_getitem.
  - apply frame_assign. intros st; split; reflexivity.
  - destruct (max_error_count settings <=? error_count a0 + 1); preserve.
    apply frame_assign. intros st; split; reflexivity.
Qed.

Lemma frame_update_server_status settings reply now a servers :
  preserves (probe_frame a servers) (_update_server_status settings reply now a).
Proof.
  unfold _update_server_status.
  apply MonadFacts.preserves_try_except;
    [|intros ?; apply frame_mark_server_error].
  destruct reply as [e|code body]; [apply MonadFacts.preserves_raise|].
  destruct (code =? 200); [|apply frame_mark_server_error].
  preserve;
    first [ apply frame_getitem
          | apply frame_assign; intros st; split; reflexivity ].
Qed.

(** A probe of a registered backend returns, whatever the reply. *)
Lemma update_present_returns settings reply now a (servers : registry) :
  PyDict.mem servers a = true ->
  fst (_update_server_status settings reply now a servers) = Return tt.
Proof.
  intros Hm. unfold _update_server_status.
  apply HangFacts.try_except_returns with (I := probe_frame a servers).
  - destruct reply as [e|code body]; [apply MonadFacts.preserves_raise|].
    destruct (code =? 200); [|apply frame_mark_server_error].
    preserve;
      first [ apply frame_getitem
            | apply frame_assign; intros st; split; reflexivity ].
  - destruct reply as [e|code body]; [apply HangFacts.no_hang_raise|].
    destruct (code =? 200); [|apply no_hang_mark_server_error].
    never_hangs;
      try apply no_hang_assign; try apply no_hang_getitem;
      apply HangFacts.no_hang_lift;
      first [ apply py_get_default_no_hang | apply py_len_no_hang
            | destruct body; discriminate ].
  - intros e s (Hk & _ & _).
    assert (Hs : PyDict.mem s a = true).
    { apply mem_in_keys. rewrite Hk. now apply mem_in_keys. }
    unfold PyDict.mem in Hs. destruct (PyDict.get s a) as [st|] eqn:E; [|discriminate].
    now rewrite (RegistryFacts.mark_server_error_present settings a s st E).
  - apply probe_frame_refl.
Qed.

(** A probe of an address that is not registered raises [KeyError]: the
    handler of the probe looks the address up again. *)
Lemma update_absent_raises settings reply now a (servers : registry) :
  PyDict.get servers a = None ->
  _update_server_status settings reply now a servers = (Raise KeyError, servers).
Proof.
  intros H.
  assert (Hmark : _mark_server_error settings a servers = (Raise KeyError, servers)).
  { unfold _mark_server_error, bind, getitem. now rewrite H. }
  unfold _update_server_status, try_except.
  destruct reply as [e|code body]; [exact Hmark|].
  destruct (code =? 200); [|now rewrite Hmark].
  destruct body as [d|]; [|exact Hmark].
  unfold bind, lift, getitem. rewrite H. exact Hmark.
Qed.

Lemma bind_modify {S B} (f : S -> S) (k : unit -> M S B) s :
  bind (modify f) k s = k tt (f s).
Proof. reflexivity. Qed.

Lemma bind_return {S A B} (m : M S A) (k : A -> M S B) s a s' :
  m s = (Return a, s') -> bind m k s = k a s'.
Proof. intros H. unfold bind. now rewrite H. Qed.

Lemma bind_raise {S A B} (m : M S A) (k : A -> M S B) s e s' :
  m s = (Raise e, s') -> bind m k s = (Raise e, s').
Proof. intros H. unfold bind. now rewrite H. Qed.

Lemma get_none_iff {V} (d : PyDict.t V) k :
  PyDict.get d k = None <-> ~ In k (PyDict.keys d).
Proof.
  rewrite <- mem_in_keys. unfold PyDict.mem.
  destruct (PyDict.get d k).
  - split; [discriminate | intros H; exfalso; now apply H].
  - split; [intros _ H; discriminate | reflexivity].
Qed.

Lemma tasks_at_frame a (servers servers' : registry) b :
  probe_frame a servers servers' -> tasks_at servers' b = tasks_at servers b.
Proof.
  intros (Hk & Ho & Ha). unfold tasks_at.
  destruct (String.eqb_spec b a) as [->|Hne]; [|now rewrite Ho].
  destruct (PyDict.get servers a) as [st|] eqn:E.
  - destruct (Ha st eq_refl) as (st' & G & _ & T). rewrite G. cbn. now rewrite T.
  - apply get_none_iff in E. rewrite <- Hk in E. apply get_none_iff in E.
    now rewrite E.
Qed.

(** The probes of a round up to [snapshot]'s end, when no other thread
    interferes and every address is still registered. *)
Lemma probe_all_quiet settings round snapshot :
  forall s : registry,
    quiet_until round snapshot ->
    (forall b, In b snapshot -> PyDict.mem s b = true) ->
    exists s',
      probe_all settings round snapshot s = (Return tt, s') /\
      PyDict.keys s' = PyDict.keys s /\
      (forall b, ~ In b snapshot -> PyDict.get s' b = PyDict.get s b) /\
      (forall b, tasks_at s' b = tasks_at s b).
Proof.
  induction snapshot as [|addr rest IH]; intros s Hq Hm.
  - exists s. repeat split; reflexivity.
  - cbn [probe_all]. rewrite bind_modify.
    rewrite (Hq addr (or_introl eq_refl)). cbn [run_ops fold_left].
    pose proof (update_present_returns settings (probe_reply (at_probe round addr))
                  (probe_now (at_probe round addr)) addr s
                  (Hm addr (or_introl eq_refl))) as Hr.
    pose proof (frame_update_server_status settings
                  (probe_reply (at_probe round addr))
                  (probe_now (at_probe round addr)) addr s s
                  (probe_frame_refl addr s)) as Hf.
    destruct (_update_server_status settings (probe_reply (at_probe round addr))
                (probe_now (at_probe round addr)) addr s) as [r s1] eqn:E.
    cbn [fst snd] in Hr, Hf. subst r.
    rewrite (bind_return _ _ _ _ _ E).
    destruct (IH s1) as (s' & Hrun & Hk & Ho & Ht).
    + intros b Hb. apply Hq. now right.
    + intros b Hb. apply mem_in_keys. destruct Hf as (Hk1 & _). rewrite Hk1.
      apply mem_in_keys. apply Hm. now right.
    + exists s'. split; [exact Hrun|]. destruct Hf as (Hk1 & Ho1 & Ha1).
      split; [congruence|]. split.
      * intros b Hb. rewrite Ho by (intros Hin; apply Hb; now right).
        apply Ho1. intros ->. apply Hb. now left.
      * intros b. rewrite Ht.
        exact (tasks_at_frame addr s s1 b (conj Hk1 (conj Ho1 Ha1))).
Qed.

Lemma get_remove_other (servers : registry) a b :
  b <> a -> PyDict.get (snd (remove_server a servers)) b = PyDict.get servers b.
Proof.
  intros Hne. unfold remove_server.
  destruct (PyDict.mem servers a); cbn [snd]; [|reflexivity].
  apply get_del_other. congruence.
Qed.

(** The probes of a round when [a] is removed just before its turn. *)
Lemma probe_all_removed settings round a post pre :
  forall s : registry,
    quiet_until round pre ->
    (forall b, In b pre -> PyDict.mem s b = true) ->
    ~ In a pre ->
    probe_before (at_probe round a) = [OpRemove a] ->
    exists s',
      probe_all settings round (pre ++ a :: post) s = (Raise KeyError, s') /\
      PyDict.get s' a = None /\
      forall b, ~ In b pre -> b <> a -> PyDict.get s' b = PyDict.get s b.
Proof.
  induction pre as [|addr rest IH]; intros s Hq Hm Ha Hrm.
  - cbn [app probe_all]. rewrite bind_modify. rewrite Hrm. cbn [run_ops fold_left run_op].
    exists (snd (remove_server a s)).
    pose proof (RegistryFacts.get_after_remove s a) as Hnone.
    rewrite (bind_raise _ _ _ _ _ (update_absent_raises settings _ _ a _ Hnone)).
    split; [reflexivity|]. split; [exact Hnone|].
    intros b _ Hb. now apply get_remove_other.
  - cbn [app probe_all]. rewrite bind_modify.
    rewrite (Hq addr (or_introl eq_refl)). cbn [run_ops fold_left].
    pose proof (update_present_returns settings (probe_reply (at_probe round addr))
                  (probe_now (at_probe round addr)) addr s
                  (Hm addr (or_introl eq_refl))) as Hr.
    pose proof (frame_update_server_status settings
                  (probe_reply (at_probe round addr))
                  (probe_now (at_probe round addr)) addr s s
                  (probe_frame_refl addr s)) as Hf.
    destruct (_update_server_status settings (probe_reply (at_probe round addr))
                (probe_now (at_probe round addr)) addr s) as [r s1] eqn:E.
    cbn [fst snd] in Hr, Hf. subst r.
    rewrite (bind_return _ _ _ _ _ E).
    destruct Hf as (Hk1 & Ho1 & _).
    destruct (IH s1) as (s' & Hrun & Hnone & Ho).
    + intros b Hb. apply Hq. now right.
    + intros b Hb. apply mem_in_keys. rewrite Hk1. apply mem_in_keys.
      apply Hm. now right.
    + intros Hin. apply Ha. now right.
    + exact Hrm.
    + exists s'. split; [exact Hrun|]. split; [exact Hnone|].
      intros b Hb Hba. rewrite Ho; [|intros Hin; apply Hb; now right|exact Hba].
      apply Ho1. intros ->. apply Hb. now left.
Qed.

Lemma NoDup_app_disjoint {A} (l l' : list A) :
  NoDup (l ++ l') -> forall x, In x l -> ~ In x l'.
Proof.
  induction l as [|y l IH]; intros Hnd x Hin; [contradiction|].
  cbn in Hnd. inversion Hnd as [|z m Hy Hnd']; subst.
  destruct Hin as [->|Hin]; [|now apply IH].
  intros Hin'. apply Hy. apply in_or_app. now right.
Qed.

(** Increment, then decrement: the status is the one before. *)
Lemma decrement_increment a (servers : registry) :
  tasks_nonneg servers ->
  snd (decrement_task a (snd (increment_task a servers))) = servers.
Proof.
  intros Hnn. unfold increment_task.
  destruct (PyDict.mem servers a) eqn:Hm.
  - unfold PyDict.mem in Hm.
    destruct (PyDict.get servers a) as [st|] eqn:E; [|discriminate].
    rewrite (RegistryFacts.assign_present _ _ _ _ E). cbn [snd].
    unfold decrement_task.
    assert (Hm' : PyDict.mem (PyDict.set servers a
                                (set_current_tasks (current_tasks st + 1) st)) a = true).
    { unfold PyDict.mem. now rewrite get_set_same. }
    rewrite Hm'.
    rewrite (RegistryFacts.assign_present _ _ _ _ (get_set_same _ _ _)). cbn [snd].
    rewrite set_set. apply set_get_id. rewrite E. f_equal.
    assert (H0 : 0 <= current_tasks st).
    { unfold tasks_nonneg in Hnn. rewrite Forall_forall in Hnn.
      exact (Hnn _ (get_in _ _ _ E)). }
    destruct st as [addr av qr qp ct lc ec]. unfold set_current_tasks. cbn in *.
    f_equal. lia.
  - cbn [snd]. unfold decrement_task. now rewrite Hm.
Qed.

(** X1: a health probe raises exactly when its address is not in the
    registry, and then it raises [KeyError] and leaves the registry as it
    is; on a registered backend it returns whatever the backend replies, a
    failure of any kind being counted in [error_count]. *)
Theorem probe_raises_iff_unregistered :
  forall (settings : Settings) (reply : http_reply) (now : Z) (a : string)
         (servers : registry),
    fst (_update_server_status settings reply now a servers) =
      (if PyDict.mem servers a then Return tt else Raise KeyError) /\
    (PyDict.mem servers a = false ->
     snd (_update_server_status settings reply now a servers) = servers).
Proof.
  intros settings reply now a servers.
  destruct (PyDict.mem servers a) eqn:Hm.
  - split; [now apply update_present_returns | discriminate].
  - assert (H : PyDict.get servers a = None).
    { unfold PyDict.mem in Hm. now destruct (PyDict.get servers a). }
    rewrite (update_absent_raises settings reply now a servers H).
    split; reflexivity.
Qed.

(** X2: a health probe of [a] keeps the addresses of the registry and
    their order, keeps the status of every other backend, and keeps the
    address and the in-flight count of [a]; so no sequence of probes changes
    any in-flight count. *)
Theorem probe_keeps_tasks_and_others :
  forall (settings : Settings) (servers : registry),
    (forall reply now a,
        let servers' := snd (_update_server_status settings reply now a servers) in
        PyDict.keys servers' = PyDict.keys servers /\
        (forall b, b <> a -> PyDict.get servers' b = PyDict.get servers b) /\
        (forall st, PyDict.get servers a = Some st ->
                    exists st', PyDict.get servers' a = Some st' /\
                                server_address st' = server_address st /\
                                current_tasks st' = current_tasks st)) /\
    (forall ops b,
        forallb is_probe ops = true ->
        PyDict.keys (run_ops settings ops servers) = PyDict.keys servers /\
        tasks_at (run_ops settings ops servers) b = tasks_at servers b).
Proof.
  intros settings servers. split.
  - intros reply now a.
    exact (frame_update_server_status settings reply now a servers servers
             (probe_frame_refl a servers)).
  - intros ops b. revert servers.
    induction ops as [|o ops IH]; intros servers Hp; [split; reflexivity|].
    cbn [forallb] in Hp. apply andb_prop in Hp. destruct Hp as [Ho Hp].
    destruct o as [x|x|x reply now|x|x]; try discriminate.
    change (run_ops settings (OpProbe x reply now :: ops) servers)
      with (run_ops settings ops
              (snd (_update_server_status settings reply now x servers))).
    destruct (IH (snd (_update_server_status settings reply now x servers)) Hp)
      as [Hk Ht].
    pose proof (frame_update_server_status settings reply now x servers servers
                  (probe_frame_refl x servers)) as Hf.
    split.
    + rewrite Hk. exact (proj1 Hf).
    + rewrite Ht. exact (tasks_at_frame x _ _ b Hf).
Qed.

(** X3: when a backend that is in the snapshot of a health-check round is
    removed before the round reaches it, its probe raises [KeyError], which
    nothing catches: the round and the loop end there, the backends after
    it in the snapshot keep the status they had, and no later round runs. *)
Theorem check_loop_ends_on_removal :
  forall (settings : Settings) (round : round_env) (rest : list round_env)
         (servers : registry) (pre : list string) (a : string) (post : list string),
    PyDict.wf servers ->
    PyDict.keys servers = pre ++ a :: post ->
    quiet_until round pre ->
    probe_before (at_probe round a) = [OpRemove a] ->
    exists servers',
      check_loop settings (round :: rest) servers = (Raise KeyError, servers') /\
      PyDict.get servers' a = None /\
      forall b, In b post -> PyDict.get servers' b = PyDict.get servers b.
Proof.
  intros settings round rest servers pre a post Hwf Hkeys Hq Hrm.
  unfold PyDict.wf in Hwf. rewrite Hkeys in Hwf.
  assert (Ha : ~ In a pre).
  { intros Hin. apply NoDup_remove_2 in Hwf. apply Hwf. apply in_or_app. now left. }
  destruct (probe_all_removed settings round a post pre servers Hq) as (s' & Hrun & Hnone & Ho).
  - intros b Hb. apply mem_in_keys. rewrite Hkeys. apply in_or_app. now left.
  - exact Ha.
  - exact Hrm.
  - exists s'. split; [|split; [exact Hnone|]].
    + cbn [check_loop]. unfold bind at 1. unfold check_round.
      rewrite Hkeys. unfold bind at 1. now rewrite Hrun.
    + intros b Hb. apply Ho.
      * intros Hin. apply (NoDup_app_disjoint _ _ Hwf b Hin). now right.
      * intros ->. apply NoDup_remove_2 in Hwf. apply Hwf. apply in_or_app. now right.
Qed.

Lemma check_loop_ends_on_removal_witness :
  exists servers',
    check_loop default_settings [removal_round "B"; removal_round "B"]
               (init ["A"; "B"; "C"]) = (Raise KeyError, servers') /\
    PyDict.get servers' "B" = None /\
    forall b, In b ["C"] -> PyDict.get servers' b = PyDict.get (init ["A"; "B"; "C"]) b.
Proof.
  apply (check_loop_ends_on_removal default_settings (removal_round "B")
           [removal_round "B"] (init ["A"; "B"; "C"]) ["A"] "B" ["C"]).
  - vm_compute. repeat constructor; cbn; intuition discriminate.
  - reflexivity.
  - intros b [<-|[]]. reflexivity.
  - reflexivity.
Defined.

(** X4: on a registry without negative counters, [decrement_task] after
    [increment_task] on the same address gives back the registry as it
    was, whether the address is registered or not. *)
Theorem decrement_undoes_increment :
  forall (servers : registry) (a : string),
    tasks_nonneg servers ->
    fst (increment_task a servers) = Return tt /\
    decrement_task a (snd (increment_task a servers)) = (Return tt, servers).
Proof.
  intros servers a Hnn.
  split; [apply HandlerFacts.increment_task_returns|].
  pose proof (HandlerFacts.decrement_task_returns a (snd (increment_task a servers))) as Hr.
  pose proof (decrement_increment a servers Hnn) as Hs.
  destruct (decrement_task a (snd (increment_task a servers))) as [r s].
  cbn [fst snd] in Hr, Hs. now subst.
Qed.

Lemma decrement_undoes_increment_witness :
  decrement_task "A" (snd (increment_task "A" one_backend)) = (Return tt, one_backend) /\
  decrement_task "Z" (snd (increment_task "Z" one_backend)) = (Return tt, one_backend).
Proof.
  assert (H : tasks_nonneg one_backend).
  { repeat constructor. cbn. lia. }
  split.
  - exact (proj2 (decrement_undoes_increment one_backend "A" H)).
  - exact (proj2 (decrement_undoes_increment one_backend "Z" H)).
Defined.

(** X5: removing a backend and adding it again gives it a fresh status (no
    job in flight, no error, available) at the end of the registry, and
    leaves every other backend as it is; adding an address that is
    registered changes nothing. *)
Theorem readding_resets_status :
  forall (servers : registry) (a : string),
    let servers' := snd (add_server a (snd (remove_server a servers))) in
    PyDict.get servers' a = Some (new_status a) /\
    PyDict.keys servers' =
      filter (fun k => negb (String.eqb k a)) (PyDict.keys servers) ++ [a] /\
    (forall b, b <> a -> PyDict.get servers' b = PyDict.get servers b) /\
    (PyDict.mem servers a = true -> add_server a servers = (Return tt, servers)).
Proof.
  intros servers a servers'.
  assert (Hnone : PyDict.get (snd (remove_server a servers)) a = None)
    by apply RegistryFacts.get_after_remove.
  assert (Hadd : servers' = PyDict.set (snd (remove_server a servers)) a (new_status a)).
  { unfold servers', add_server, PyDict.mem. now rewrite Hnone. }
  assert (Hkeys : PyDict.keys (snd (remove_server a servers)) =
                  filter (fun k => negb (String.eqb k a)) (PyDict.keys servers)).
  { unfold remove_server. destruct (PyDict.mem servers a) eqn:Hm; cbn [snd].
    - unfold PyDict.del, PyDict.keys. clear.
      induction servers as [|[k v] d IH]; [reflexivity|].
      cbn. destruct (String.eqb k a); cbn; [exact IH | now rewrite IH].
    - assert (Hn : ~ In a (PyDict.keys servers)).
      { rewrite <- mem_in_keys. now rewrite Hm. }
      revert Hn. clear. generalize (PyDict.keys servers). intros l Hn.
      induction l as [|k l IH]; [reflexivity|].
      cbn. destruct (String.eqb_spec k a) as [->|Hne].
      + exfalso. apply Hn. now left.
      + cbn. f_equal. apply IH. intros Hin. apply Hn. now right. }
  split; [|split; [|split]].
  - rewrite Hadd. apply get_set_same.
  - rewrite Hadd. rewrite keys_set_absent; [now rewrite Hkeys|].
    unfold PyDict.mem. now rewrite Hnone.
  - intros b Hb. rewrite Hadd. rewrite get_set_other by congruence.
    now apply get_remove_other.
  - intros Hm. unfold add_server. now rewrite Hm.
Qed.

Lemma check_round_quiet settings round (s : registry) :
  quiet_round round ->
  exists s',
    check_round settings round s = (Return tt, s') /\
    PyDict.keys s' = PyDict.keys s /\
    forall b, tasks_at s' b = tasks_at s b.
Proof.
  intros [Hq Hs].
  destruct (probe_all_quiet settings round (PyDict.keys s) s)
    as (s' & Hrun & Hk & _ & Ht).
  - intros b _. apply Hq.
  - intros b Hb. now apply mem_in_keys.
  - exists s'. split; [|split; assumption].
    unfold check_round. rewrite (bind_return _ _ _ _ _ Hrun).
    unfold modify. now rewrite Hs.
Qed.

(** X20: as long as no other thread touches the registry, the
    health-check loop runs all its rounds and returns, whatever the backends
    reply; the registry keeps its addresses in their order, and every
    in-flight count. *)
Theorem check_loop_survives_quiet_rounds :
  forall (settings : Settings) (rounds : list round_env) (servers : registry),
    Forall quiet_round rounds ->
    exists servers',
      check_loop settings rounds servers = (Return tt, servers') /\
      PyDict.keys servers' = PyDict.keys servers /\
      forall b, tasks_at servers' b = tasks_at servers b.
Proof.
  intros settings rounds. induction rounds as [|round rest IH]; intros servers Hq.
  - exists servers. repeat split; reflexivity.
  - inversion Hq as [|x l Hround Hrest]; subst.
    destruct (check_round_quiet settings round servers Hround) as (s1 & Hrun & Hk1 & Ht1).
    destruct (IH s1 Hrest) as (s' & Hloop & Hk & Ht).
    exists s'. split; [|split].
    + cbn [check_loop]. now rewrite (bind_return _ _ _ _ _ Hrun).
    + congruence.
    + intros b. now rewrite Ht, Ht1.
Qed.

Lemma check_loop_survives_quiet_rounds_witness :
  exists servers',
    check_loop default_settings [failing_round; failing_round; failing_round]
               one_backend = (Return tt, servers') /\
    PyDict.keys servers' = PyDict.keys one_backend /\
    forall b, tasks_at servers' b = tasks_at one_backend b.
Proof.
  apply (check_loop_survives_quiet_rounds default_settings
           [failing_round; failing_round; failing_round] one_backend).
  repeat constructor.
Defined.

(** Filling a dictionary from a list of keys. *)
Lemma fold_set_keys {V} (f : string -> V) ks :
  forall acc : PyDict.t V,
    NoDup (PyDict.keys acc ++ ks) ->
    PyDict.keys (fold_left (fun t a => PyDict.set t a (f a)) ks acc) =
    PyDict.keys acc ++ ks.
Proof.
  induction ks as [|k ks IH]; intros acc Hnd; cbn [fold_left].
  - now rewrite app_nil_r.
  - assert (Hk : PyDict.mem acc k = false).
    { destruct (PyDict.mem acc k) eqn:E; [|reflexivity].
      apply mem_in_keys in E. exfalso.
      apply (NoDup_app_disjoint _ _ Hnd k E). now left. }
    rewrite IH; rewrite (keys_set_absent acc k (f k) Hk).
    + now rewrite <- app_assoc.
    + now rewrite <- app_assoc.
Qed.

Lemma fold_set_in {V} (f : string -> V) ks a :
  forall acc : PyDict.t V,
    In a (PyDict.keys (fold_left (fun t a => PyDict.set t a (f a)) ks acc)) <->
    In a (PyDict.keys acc) \/ In a ks.
Proof.
  induction ks as [|k ks IH]; intros acc; cbn [fold_left].
  - cbn. tauto.
  - rewrite IH, HandlerFacts.in_keys_set. cbn. intuition congruence.
Qed.

Lemma fold_set_get {V} (f : string -> V) ks :
  forall acc : PyDict.t V,
    (forall a v, PyDict.get acc a = Some v -> v = f a) ->
    forall a v,
      PyDict.get (fold_left (fun t a => PyDict.set t a (f a)) ks acc) a = Some v ->
      v = f a.
Proof.
  induction ks as [|k ks IH]; intros acc Hacc; cbn [fold_left]; [exact Hacc|].
  apply IH. intros a v. rewrite get_set.
  destruct (String.eqb_spec k a) as [->|_]; [|apply Hacc].
  intros H. now injection H as <-.
Qed.

Lemma fold_set_wf {V} (f : string -> V) ks :
  forall acc : PyDict.t V,
    PyDict.wf acc -> PyDict.wf (fold_left (fun t a => PyDict.set t a (f a)) ks acc).
Proof.
  induction ks as [|k ks IH]; intros acc Hacc; cbn [fold_left]; [exact Hacc|].
  apply IH. now apply wf_set.
Qed.

(** X21: the registry that [__init__] builds has every configured address
    exactly once (an address listed twice is registered once), each with a
    fresh status; the pool built from it has a tool for exactly these
    addresses, in the same order, each a fresh tool with no workflow. *)
Theorem init_registers_each_once :
  forall server_addresses : list string,
    let servers := init server_addresses in
    let tools := ToolPool.tools (ToolPool.init servers) in
    PyDict.wf servers /\
    (forall a, In a (PyDict.keys servers) <-> In a server_addresses) /\
    (forall a st, PyDict.get servers a = Some st -> st = new_status a) /\
    PyDict.keys tools = PyDict.keys servers /\
    (forall a tool, PyDict.get tools a = Some tool -> tool = ComfyuiTool.new_tool a).
Proof.
  intros server_addresses servers tools.
  assert (Hwf : PyDict.wf servers).
  { apply (fold_set_wf new_status). constructor. }
  split; [exact Hwf|]. split; [|split; [|split]].
  - intros a. unfold servers, init. rewrite (fold_set_in new_status). cbn. tauto.
  - apply (fold_set_get new_status). intros a v H. discriminate.
  - unfold tools, ToolPool.init. cbn [ToolPool.tools].
    rewrite (fold_set_keys ComfyuiTool.new_tool); [reflexivity|exact Hwf].
  - unfold tools, ToolPool.init. cbn [ToolPool.tools].
    apply (fold_set_get ComfyuiTool.new_tool). intros a v H. discriminate.
Qed.

End ProbeFacts.


(* ===================================================================== *)
(** * The rewrites, further *)
(* ===================================================================== *)

Module VideoFacts.
Import ComfyuiTool PyDictFacts Rewrite Video.

Lemma is_load_video_dict n : is_load_video (JDict n) = Return (load_video (JDict n)).
Proof. reflexivity. Qed.

Lemma set_video_in_node_shaped filename n :
  node_shaped (JDict n) ->
  set_video_in_node filename n =
  Return (PyDict.set n "inputs" (JDict (video_inputs filename (inputs_of n)))).
Proof.
  unfold node_shaped, set_video_in_node, setdefault_inputs, inputs_of, video_inputs.
  destruct (PyDict.get n "inputs") as [[]|]; try contradiction; intros _.
  - reflexivity.
  - now rewrite set_set.
Qed.

Lemma rewrite_with_video_at filename target n post pre :
  ~ In target (PyDict.keys pre) ->
  node_shaped (JDict n) ->
  load_video (JDict n) = true ->
  rewrite_with_video filename target (pre ++ (target, JDict n) :: post) =
  Return (pre ++
          (target, JDict (PyDict.set n "inputs"
                            (JDict (video_inputs filename (inputs_of n))))) :: post).
Proof.
  intros Hpre Hshape Hload.
  induction pre as [|[k v] pre IH].
  - cbn [app rewrite_with_video]. rewrite String.eqb_refl. cbn [negb].
    rewrite is_load_video_dict, Hload. cbn [rbind].
    now rewrite (set_video_in_node_shaped filename n Hshape).
  - cbn [app rewrite_with_video].
    destruct (String.eqb_spec k target) as [->|Hne].
    + exfalso. apply Hpre. now left.
    + cbn [negb]. rewrite IH; [reflexivity|].
      intros Hin. apply Hpre. now right.
Qed.

Lemma rewrite_with_video_none filename target (wf : node_graph) :
  no_video_target target wf -> rewrite_with_video filename target wf = Return wf.
Proof.
  induction wf as [|[k v] wf IH]; intros Hno; [reflexivity|].
  assert (Hrest : rewrite_with_video filename target wf = Return wf).
  { apply IH. intros node Hin. apply Hno. now right. }
  cbn [rewrite_with_video].
  destruct (String.eqb_spec k target) as [->|Hne]; cbn [negb].
  - destruct (Hno v (or_introl eq_refl)) as (Hload & n & ->).
    rewrite is_load_video_dict, Hload. cbn [rbind]. now rewrite Hrest.
  - now rewrite Hrest.
Qed.

(** X6: when the node with the target id is a video loader, the video
    rewrite changes that node only, and only its [inputs]: the file name
    goes under ["video"] when that key is there, else under ["video_path"]
    when that one is there, else under a new key ["video"].  The nodes
    before and after it are not looked at. *)
Theorem video_rewrite_target :
  forall (filename target : string) (pre : node_graph) (n : PyDict.t json)
         (post : node_graph),
    ~ In target (PyDict.keys pre) ->
    node_shaped (JDict n) ->
    load_video (JDict n) = true ->
    exists n',
      rewrite_with_video filename target (pre ++ (target, JDict n) :: post) =
      Return (pre ++ (target, JDict n') :: post) /\
      (forall k, k <> "inputs" -> PyDict.get n' k = PyDict.get n k) /\
      (PyDict.mem (inputs_of n) "video" = true ->
       inputs_of n' = PyDict.set (inputs_of n) "video" (JStr filename)) /\
      (PyDict.mem (inputs_of n) "video" = false ->
       PyDict.mem (inputs_of n) "video_path" = true ->
       inputs_of n' = PyDict.set (inputs_of n) "video_path" (JStr filename) /\
       PyDict.get (inputs_of n') "video" = None) /\
      (PyDict.mem (inputs_of n) "video" = false ->
       PyDict.mem (inputs_of n) "video_path" = false ->
       inputs_of n' = inputs_of n ++ [("video", JStr filename)]).
Proof.
  intros filename target pre n post Hpre Hshape Hload.
  exists (PyDict.set n "inputs" (JDict (video_inputs filename (inputs_of n)))).
  split; [now apply rewrite_with_video_at|].
  rewrite RewriteFacts.inputs_of_set. unfold video_inputs.
  split; [intros k Hk; apply get_set_other; congruence|].
  split; [intros ->; reflexivity|].
  split.
  - intros Hv Hp. rewrite Hv, Hp. split; [reflexivity|].
    rewrite get_set_other by discriminate.
    unfold PyDict.mem in Hv. now destruct (PyDict.get (inputs_of n) "video").
  - intros Hv Hp. rewrite Hv, Hp. now apply set_absent.
Qed.

Lemma video_rewrite_target_witness :
  exists n',
    rewrite_with_video "new.mp4" "2" video_workflow =
    Return [("1", JNull); ("2", JDict n');
            ("3", JDict [("class_type", JStr "LoadVideo");
                         ("inputs", JDict [("video", JStr "other.mp4")])])] /\
    inputs_of n' = [("video_path", JStr "new.mp4"); ("fps", JInt 8)] /\
    PyDict.get (inputs_of n') "video" = None.
Proof.
  destruct (video_rewrite_target "new.mp4" "2" [("1", JNull)]
              [("class_type", JStr "VHS_LoadVideo");
               ("inputs", JDict [("video_path", JStr "old.mp4"); ("fps", JInt 8)])]
              [("3", JDict [("class_type", JStr "LoadVideo");
                            ("inputs", JDict [("video", JStr "other.mp4")])])])
    as (n' & Hrun & _ & _ & Hpath & _).
  - cbn. intros [H|[]]. discriminate.
  - exact I.
  - reflexivity.
  - exists n'. split; [exact Hrun|]. exact (Hpath eq_refl eq_refl).
Defined.

(** X7: when no node with the target id is a video loader (there is no
    such node, or it is of another class), the video rewrite returns the
    workflow as it is, whatever the other entries are, and
    [run_workflow_with_video] submits the template unchanged: the uploaded
    file name is not used. *)
Theorem video_rewrite_without_target :
  forall (py_eq : json -> json -> bool) (io : backend_io) (wf : node_graph)
         (filename target : string) (timeout : Z),
    no_video_target target wf ->
    rewrite_with_video filename target wf = Return wf /\
    run_workflow_with_video py_eq io wf filename timeout target =
    submit_and_wait py_eq io wf timeout.
Proof.
  intros py_eq io wf filename target timeout Hno.
  pose proof (rewrite_with_video_none filename target wf Hno) as H.
  split; [exact H|]. unfold run_workflow_with_video. now rewrite H.
Qed.

Lemma video_rewrite_without_target_witness :
  rewrite_with_video "new.mp4" "7" video_workflow = Return video_workflow /\
  run_workflow_with_video Watch.eq_scalars Handlers.backend_ok video_workflow
                          "new.mp4" 600 "7" =
  submit_and_wait Watch.eq_scalars Handlers.backend_ok video_workflow 600.
Proof.
  apply (video_rewrite_without_target Watch.eq_scalars Handlers.backend_ok
           video_workflow "new.mp4" "7" 600).
  intros node Hin. cbn in Hin.
  destruct Hin as [H|[H|[H|[]]]]; discriminate.
Defined.

End VideoFacts.

Module ImageFacts.
Import ComfyuiTool PyDictFacts Rewrite Preload.

Lemma replace_item_idem filename item :
  replace_item filename (replace_item filename item) = replace_item filename item.
Proof.
  unfold replace_item. destruct (item_hit item) eqn:E.
  - now destruct (item_hit (JStr filename)).
  - now rewrite E.
Qed.

Lemma replace_value_idem filename v :
  replace_value filename (replace_value filename v) = replace_value filename v.
Proof.
  destruct v as [| | | |s|l|d]; try reflexivity.
  - cbn [replace_value]. destruct (names_image s) eqn:E; cbn [replace_value].
    + now destruct (names_image filename).
    + now rewrite E.
  - cbn [replace_value]. f_equal. rewrite map_map.
    apply map_ext. intros item. apply replace_item_idem.
Qed.

Lemma replace_values_idem filename (i : PyDict.t json) :
  replace_values filename (replace_values filename i) = replace_values filename i.
Proof.
  unfold replace_values. rewrite map_map. apply map_ext.
  intros [k v]. cbn [fst snd]. now rewrite replace_value_idem.
Qed.

Lemma mem_replace_values filename (i : PyDict.t json) k :
  PyDict.mem (replace_values filename i) k = PyDict.mem i k.
Proof.
  unfold PyDict.mem. rewrite RewriteFacts.get_replace_values.
  now destruct (PyDict.get i k).
Qed.

Lemma replaced_inputs_idem filename (i : PyDict.t json) :
  replaced_inputs filename (replaced_inputs filename i) = replaced_inputs filename i.
Proof.
  unfold replaced_inputs at 2. destruct (PyDict.mem i "image") eqn:E.
  - unfold replaced_inputs. rewrite mem_replace_values, E.
    apply replace_values_idem.
  - unfold replaced_inputs.
    assert (Hm : PyDict.mem (replace_values filename i ++ [("image", JStr filename)])
                            "image" = true).
    { unfold PyDict.mem. rewrite RewriteFacts.get_app_absent.
      now destruct (PyDict.get (replace_values filename i) "image"). }
    rewrite Hm. unfold replace_values at 1. rewrite map_app.
    fold (replace_values filename (replace_values filename i)).
    rewrite replace_values_idem. cbn [map fst snd replace_value]. rewrite E.
    now destruct (names_image filename).
Qed.

Lemma wf_replaced_inputs filename (i : PyDict.t json) :
  PyDict.wf i -> PyDict.wf (replaced_inputs filename i).
Proof.
  intros Hwf. unfold replaced_inputs, PyDict.wf.
  destruct (PyDict.mem i "image") eqn:E.
  - now rewrite RewriteFacts.keys_replace_values.
  - unfold PyDict.keys. rewrite map_app.
    fold (PyDict.keys (replace_values filename i)).
    rewrite RewriteFacts.keys_replace_values. cbn [map fst].
    apply NoDup_app_remove_l with (l := []). cbn.
    apply Permutation_NoDup with (l := "image" :: PyDict.keys i).
    + apply Permutation_cons_append.
    + constructor; [|exact Hwf]. rewrite <- mem_in_keys. now rewrite E.
Qed.

Lemma replace_inputs_closed filename (i : PyDict.t json) :
  PyDict.wf i -> replace_inputs filename i = replaced_inputs filename i.
Proof. intros H. now rewrite RewriteFacts.replace_inputs_map. Qed.

Lemma replace_inputs_idem filename (i : PyDict.t json) :
  PyDict.wf i ->
  replace_inputs filename (replace_inputs filename i) = replace_inputs filename i.
Proof.
  intros Hwf. rewrite (replace_inputs_closed filename i Hwf).
  rewrite replace_inputs_closed by now apply wf_replaced_inputs.
  apply replaced_inputs_idem.
Qed.

Lemma load_image_set_inputs n v :
  load_image (JDict (PyDict.set n "inputs" v)) = load_image (JDict n).
Proof. unfold load_image. now rewrite get_set_other by discriminate. Qed.

Lemma node_shaped_set_inputs n i : node_shaped (JDict (PyDict.set n "inputs" (JDict i))).
Proof. unfold node_shaped. now rewrite get_set_same. Qed.

(** The first [LoadImage] node of a graph, when there is one. *)
Lemma first_load_image (wf : node_graph) :
  Forall (fun kv => load_image (snd kv) = false) wf \/
  exists pre nid n post,
    wf = pre ++ (nid, JDict n) :: post /\
    Forall (fun kv => load_image (snd kv) = false) pre /\
    load_image (JDict n) = true.
Proof.
  induction wf as [|[k v] wf IH]; [left; constructor|].
  destruct (load_image v) eqn:E.
  - right. destruct v as [| | | | | |n]; try discriminate.
    exists [], k, n, wf. repeat split; [constructor | exact E].
  - destruct IH as [H|(pre & nid & n & post & -> & Hpre & Hn)].
    + left. constructor; [exact E | exact H].
    + right. exists ((k, v) :: pre), nid, n, post.
      repeat split; [constructor; [exact E | exact Hpre] | exact Hn].
Qed.

(** Whether node ["10"] is preferred does not depend on the [inputs] of a
    node. *)
Lemma preferred_middle (pre post : node_graph) nid n v :
  preferred (pre ++ (nid, JDict (PyDict.set n "inputs" v)) :: post) =
  preferred (pre ++ (nid, JDict n) :: post).
Proof.
  unfold preferred.
  induction pre as [|[k x] pre IH]; cbn [app PyDict.get].
  - destruct (String.eqb nid "10"); [apply load_image_set_inputs | reflexivity].
  - destruct (String.eqb k "10"); [reflexivity | exact IH].
Qed.

Lemma graph_shaped_middle (pre post : node_graph) nid node node' :
  graph_shaped (pre ++ (nid, node) :: post) -> node_shaped node' ->
  graph_shaped (pre ++ (nid, node') :: post).
Proof.
  unfold graph_shaped. intros H Hn.
  apply Forall_app in H. destruct H as [Hpre Hpost].
  apply Forall_app. split; [exact Hpre|].
  inversion Hpost; subst. now constructor.
Qed.

Lemma get_map_values {V W} (g : V -> W) (d : PyDict.t V) k :
  PyDict.get (map (fun kv => (fst kv, g (snd kv))) d) k =
  option_map g (PyDict.get d k).
Proof.
  induction d as [|[k' v] d IH]; [reflexivity|].
  cbn. destruct (String.eqb k' k); [reflexivity | exact IH].
Qed.

Lemma rewrite_for_preload_map placeholder (wf : node_graph) :
  graph_shaped wf ->
  rewrite_for_preload placeholder wf =
  Return (map (fun kv => (fst kv, preload_node placeholder (snd kv))) wf).
Proof.
  induction wf as [|[k v] wf IH]; intros Hs; [reflexivity|].
  inversion Hs as [|x l Hv Hrest]; subst. cbn [snd] in Hv.
  cbn [rewrite_for_preload map fst snd].
  rewrite (RewriteFacts.is_load_image_shaped v Hv). cbn [rbind].
  rewrite (IH Hrest).
  destruct v as [| | | | | |n]; try contradiction.
  unfold preload_node. destruct (load_image (JDict n)); [|reflexivity].
  now rewrite (RewriteFacts.replace_in_node_shaped placeholder n Hv).
Qed.

(** X8: the rewrite of [run_workflow_with_image] is idempotent: applied to
    the graph it returned, with the same file name, it returns that graph
    again, with the same flag. *)
Theorem image_rewrite_idempotent :
  forall (wf wf' : node_graph) (filename : string) (replaced : bool),
    graph_shaped wf ->
    (forall n, PyDict.get wf "10" = Some (JDict n) -> PyDict.wf (inputs_of n)) ->
    rewrite_with_image wf filename = Return (wf', replaced) ->
    rewrite_with_image wf' filename = Return (wf', replaced).
Proof.
  intros wf wf' filename replaced Hs Hwf Hrun.
  destruct (preferred wf) eqn:Hp.
  - unfold preferred in Hp.
    destruct (PyDict.get wf "10") as [node|] eqn:E; [|discriminate].
    destruct node as [| | | | | |n]; try discriminate.
    rewrite (RewriteFacts.rewrite_preferred filename wf n Hs E Hp) in Hrun.
    injection Hrun as <- <-.
    set (i1 := replace_inputs filename (inputs_of n)).
    set (n1 := PyDict.set n "inputs" (JDict i1)).
    assert (Hs1 : graph_shaped (PyDict.set wf "10" (JDict n1))).
    { apply Forall_set; [exact Hs|]. intros k. apply node_shaped_set_inputs. }
    rewrite (RewriteFacts.rewrite_preferred filename _ n1 Hs1 (get_set_same _ _ _)).
    + f_equal. f_equal. rewrite set_set. f_equal. f_equal.
      unfold n1 at 2. rewrite RewriteFacts.inputs_of_set.
      unfold n1. rewrite set_set. unfold i1.
      now rewrite (replace_inputs_idem filename _ (Hwf n eq_refl)).
    + unfold n1. now rewrite load_image_set_inputs.
  - rewrite (RewriteFacts.rewrite_not_preferred filename wf Hs Hp) in Hrun.
    destruct (first_load_image wf) as [Hnone|(pre & nid & n & post & -> & Hpre & Hn)].
    + rewrite (RewriteFacts.replace_first_load_image_none filename wf Hs Hnone) in Hrun.
      injection Hrun as <- <-.
      rewrite (RewriteFacts.rewrite_not_preferred filename wf Hs Hp).
      now apply RewriteFacts.replace_first_load_image_none.
    + rewrite (RewriteFacts.replace_first_load_image_at filename pre nid n post Hs Hpre Hn)
        in Hrun.
      injection Hrun as <- <-.
      set (i1 := PyDict.set (inputs_of n) "image" (JStr filename)).
      set (n1 := PyDict.set n "inputs" (JDict i1)).
      assert (Hs1 : graph_shaped (pre ++ (nid, JDict n1) :: post)).
      { eapply graph_shaped_middle; [exact Hs | apply node_shaped_set_inputs]. }
      assert (Hp1 : preferred (pre ++ (nid, JDict n1) :: post) = false).
      { unfold n1. now rewrite preferred_middle. }
      rewrite (RewriteFacts.rewrite_not_preferred filename _ Hs1 Hp1).
      rewrite (RewriteFacts.replace_first_load_image_at filename pre nid n1 post Hs1 Hpre).
      * f_equal. f_equal. f_equal. f_equal. f_equal.
        unfold n1 at 2. rewrite RewriteFacts.inputs_of_set.
        unfold n1. rewrite set_set. unfold i1. now rewrite set_set.
      * unfold n1. now rewrite load_image_set_inputs.
Qed.

Lemma image_rewrite_idempotent_witness :
  rewrite_with_image
    [("10", JDict [("class_type", JStr "LoadImage");
                   ("inputs", JDict [("image", JStr "new.png");
                                     ("pair", JList [JStr "input_photo"; JStr "new.png";
                                                     JInt 0])])])]
    "new.png" =
  Return ([("10", JDict [("class_type", JStr "LoadImage");
                         ("inputs", JDict [("image", JStr "new.png");
                                           ("pair", JList [JStr "input_photo";
                                                           JStr "new.png"; JInt 0])])])],
          true).
Proof.
  apply (image_rewrite_idempotent ten_with_list _ "new.png" true).
  - repeat constructor.
  - intros n H. vm_compute in H. injection H as <-. vm_compute.
    repeat constructor; cbn; intuition discriminate.
  - vm_compute. reflexivity.
Defined.

(** X9: on a graph of well-formed nodes the preload rewrite returns a
    graph with the same node ids in the same order, in which every
    [LoadImage] node (not only the first, or node ["10"]) has had its
    [inputs] rewritten with the placeholder, and every other node is as it
    was. *)
Theorem preload_rewrites_every_load_image :
  forall (placeholder : string) (wf : node_graph),
    graph_shaped wf ->
    exists wf',
      rewrite_for_preload placeholder wf = Return wf' /\
      PyDict.keys wf' = PyDict.keys wf /\
      (forall nid n,
          PyDict.get wf nid = Some (JDict n) -> load_image (JDict n) = true ->
          inputs_at wf' nid = Some (replace_inputs placeholder (inputs_of n)) /\
          (PyDict.wf (inputs_of n) ->
           inputs_at wf' nid = Some (replaced_inputs placeholder (inputs_of n)))) /\
      (forall nid node,
          PyDict.get wf nid = Some node -> load_image node = false ->
          PyDict.get wf' nid = Some node).
Proof.
  intros placeholder wf Hs.
  exists (map (fun kv => (fst kv, preload_node placeholder (snd kv))) wf).
  split; [now apply rewrite_for_preload_map|].
  split; [unfold PyDict.keys; rewrite map_map; reflexivity|].
  split.
  - intros nid n Hget Hload.
    assert (H : inputs_at (map (fun kv => (fst kv, preload_node placeholder (snd kv))) wf)
                          nid = Some (replace_inputs placeholder (inputs_of n))).
    { unfold inputs_at. rewrite get_map_values, Hget. cbn [option_map].
      unfold preload_node. rewrite Hload. now rewrite RewriteFacts.inputs_of_set. }
    split; [exact H|]. intros Hwf. rewrite H.
    now rewrite (replace_inputs_closed placeholder _ Hwf).
  - intros nid node Hget Hload. rewrite get_map_values, Hget. cbn [option_map].
    unfold preload_node. destruct node; try reflexivity. now rewrite Hload.
Qed.

Lemma preload_rewrites_every_load_image_witness :
  exists wf',
    rewrite_for_preload "preload_white.png" two_load_images = Return wf' /\
    inputs_at wf' "5" = Some [("image", JStr "preload_white.png")] /\
    inputs_at wf' "10" = Some [("image", JStr "preload_white.png")].
Proof.
  destruct (preload_rewrites_every_load_image "preload_white.png" two_load_images)
    as (wf' & Hrun & _ & Hload & _).
  - repeat constructor.
  - exists wf'. split; [exact Hrun|]. split.
    + exact (proj1 (Hload "5" _ eq_refl eq_refl)).
    + exact (proj1 (Hload "10" _ eq_refl eq_refl)).
Defined.

End ImageFacts.


(* ===================================================================== *)
(** * The pool and the handlers, further *)
(* ===================================================================== *)

Module PoolFacts.
Import ToolPool Routers Handlers Pool.

Ltac split_cases :=
  repeat (preserve;
          try match goal with
              | |- preserves _ (match ?x with _ => _ end) => destruct x
              end).

(** ** One tool *)

(** How [preload_full_workflow] ends: it does not raise; it sets
    [preloaded] when it reports success, and otherwise leaves the tool as
    it is. *)
Lemma preload_full_workflow_ends py_eq settings dir io wf timeout tool :
  (exists pid,
      ComfyuiTool.preload_full_workflow py_eq settings dir io wf timeout tool =
      (Return (true, ComfyuiTool.Preloaded pid), ComfyuiTool.set_preloaded true tool)) \/
  (exists info,
      ComfyuiTool.preload_full_workflow py_eq settings dir io wf timeout tool =
      (Return (false, info), tool)) \/
  ComfyuiTool.preload_full_workflow py_eq settings dir io wf timeout tool = (Hang, tool).
Proof.
  unfold ComfyuiTool.preload_full_workflow, try_except.
  destruct wf as [|node wf]; [right; left; eexists; reflexivity|].
  destruct (negb (ComfyuiTool.placeholder_exists dir) &&
            negb (ComfyuiTool.create_placeholder_image dir));
    [right; left; eexists; reflexivity|].
  unfold bind, lift, ret, modify.
  destruct (ComfyuiTool.rewrite_for_preload _ _) as [wf_copy|e|];
    [|right; left; eexists; reflexivity|right; right; reflexivity].
  destruct (ComfyuiTool.prompt_reply io wf_copy) as [resp|e|];
    [|right; left; eexists; reflexivity|right; right; reflexivity].
  destruct (ComfyuiTool.prompt_id_of resp) as [[pid|]|e|];
    [|right; left; eexists; reflexivity|right; left; eexists; reflexivity
     |right; right; reflexivity].
  destruct (fst (ComfyuiTool._wait_for_prompt_exec py_eq io pid timeout
                   ComfyuiTool.NoSocket)) as [[|]|e|].
  - left. eexists. reflexivity.
  - right; left; eexists; reflexivity.
  - right; left; eexists; reflexivity.
  - right; right; reflexivity.
Qed.

Lemma preload_full_workflow_tool py_eq settings dir io wf timeout tool :
  ComfyuiTool.server_address
    (snd (ComfyuiTool.preload_full_workflow py_eq settings dir io wf timeout tool)) =
  ComfyuiTool.server_address tool /\
  ComfyuiTool.workflow
    (snd (ComfyuiTool.preload_full_workflow py_eq settings dir io wf timeout tool)) =
  ComfyuiTool.workflow tool.
Proof.
  destruct (preload_full_workflow_ends py_eq settings dir io wf timeout tool)
    as [(pid & ->)|[(info & ->)| ->]]; split; reflexivity.
Qed.

Section Invariants.
Variable env : environment.

(** ** Every tool under its own address *)

Lemma pool_only_keyed : pool_only keyed.
Proof. intros w w' Hp Hk a tool. rewrite Hp. apply Hk. Qed.

Lemma pool_only_synced : pool_only synced.
Proof. intros w w' Hp Hs. unfold synced. rewrite Hp. exact Hs. Qed.

Lemma keyed_get_tool_for_request : preserves keyed (get_tool_for_request env).
Proof.
  intros w Hk. unfold get_tool_for_request.
  destruct (LoadBalancer.get_best_server _ _) as [best|]; [|exact Hk].
  destruct (String.eqb best ""); [exact Hk|]. cbn [snd].
  intros a tool Hin. cbn [pool tools set_tools set_pool] in Hin.
  apply HandlerFacts.in_set_inv in Hin. destruct Hin as [Hin|[-> ->]]; [now apply Hk|].
  assert (H : ComfyuiTool.server_address
                match PyDict.get (tools (pool w)) best with
                | Some tool => tool
                | None => ComfyuiTool.new_tool best
                end = best).
  { destruct (PyDict.get (tools (pool w)) best) as [tool|] eqn:E; [|reflexivity].
    apply Hk. now apply PyDictFacts.get_in. }
  destruct (loaded (workflow (pool w))); exact H.
Qed.

Lemma keyed_load_workflow wf name : preserves keyed (load_workflow wf name).
Proof.
  intros w Hk a tool Hin. cbn in Hin. apply in_map_iff in Hin.
  destruct Hin as ([k t] & Heq & Hin). injection Heq as <- <-.
  cbn. now apply Hk.
Qed.

Lemma keyed_preload_all_servers wf timeout :
  preserves keyed (preload_all_servers env wf timeout).
Proof.
  intros w Hk. unfold preload_all_servers.
  destruct (tools (pool w)) as [|kv t] eqn:Et; [exact Hk|]. cbn [snd].
  intros a tool Hin. cbn [pool tools] in Hin. rewrite map_map in Hin.
  apply in_map_iff in Hin. destruct Hin as ([k t0] & Heq & Hin).
  cbn [fst snd] in Heq. injection Heq as <- <-.
  unfold preload_on_server. cbn [fst snd].
  rewrite (proj1 (preload_full_workflow_tool _ _ _ _ _ _ _)).
  apply Hk. now rewrite Et.
Qed.

Lemma keyed_add_server a : preserves keyed (ToolPool.add_server a).
Proof.
  intros w Hk. unfold ToolPool.add_server, add_server_register, add_server_tool,
    bind, on_lb, modify.
  destruct (LoadBalancer.add_server a (lb w)) as [[[]|e|] servers]; cbn [snd];
    try exact Hk.
  cbn [pool set_lb]. destruct (PyDict.mem (tools (pool w)) a); [exact Hk|].
  intros b tool Hin. cbn [pool tools set_tools set_pool set_lb] in Hin.
  apply HandlerFacts.in_set_inv in Hin. destruct Hin as [Hin|[-> ->]]; [now apply Hk|].
  now destruct (loaded (workflow (pool w))).
Qed.

Lemma keyed_startup server_addresses : keyed (startup server_addresses).
Proof.
  unfold keyed, startup, ToolPool.init. cbn [pool tools].
  generalize (PyDict.keys (LoadBalancer.init server_addresses)). intros ks.
  assert (G : forall acc : PyDict.t ComfyuiTool.ComfyUITool,
             (forall a tool, In (a, tool) acc -> ComfyuiTool.server_address tool = a) ->
             forall a tool,
               In (a, tool) (fold_left (fun t addr =>
                               PyDict.set t addr (ComfyuiTool.new_tool addr)) ks acc) ->
               ComfyuiTool.server_address tool = a).
  { induction ks as [|k ks IH]; intros acc Hacc; [exact Hacc|].
    cbn [fold_left]. apply IH. intros a tool Hin.
    apply HandlerFacts.in_set_inv in Hin.
    destruct Hin as [Hin|[-> ->]]; [now apply Hacc | reflexivity]. }
  apply G. intros a tool [].
Qed.

(** ** Every tool with the loaded workflow *)

Lemma synced_get_tool_for_request : preserves synced (get_tool_for_request env).
Proof.
  intros w Hs. unfold get_tool_for_request.
  destruct (LoadBalancer.get_best_server _ _) as [best|]; [|exact Hs].
  destruct (String.eqb best ""); [exact Hs|]. cbn [snd].
  intros Hl a tool Hin. cbn [pool tools workflow set_tools set_pool] in *.
  apply HandlerFacts.in_set_inv in Hin.
  destruct Hin as [Hin|[-> ->]]; [now apply (Hs Hl a)|].
  now rewrite Hl.
Qed.

Lemma synced_load_workflow wf name : preserves synced (load_workflow wf name).
Proof.
  intros w Hs Hl a tool Hin. cbn in *. apply in_map_iff in Hin.
  destruct Hin as ([k t] & Heq & Hin). now injection Heq as <- <-.
Qed.

Lemma synced_preload_all_servers wf timeout :
  preserves synced (preload_all_servers env wf timeout).
Proof.
  intros w Hs. unfold preload_all_servers.
  destruct (tools (pool w)) as [|kv t] eqn:Et; [exact Hs|]. cbn [snd].
  intros Hl a tool Hin. cbn [pool tools workflow] in *. rewrite map_map in Hin.
  apply in_map_iff in Hin. destruct Hin as ([k t0] & Heq & Hin).
  cbn [fst snd] in Heq. injection Heq as <- <-.
  unfold preload_on_server. cbn [fst snd].
  rewrite (proj2 (preload_full_workflow_tool _ _ _ _ _ _ _)).
  apply (Hs Hl k). now rewrite Et.
Qed.

Lemma synced_add_server a : preserves synced (ToolPool.add_server a).
Proof.
  intros w Hs. unfold ToolPool.add_server, add_server_register, add_server_tool,
    bind, on_lb, modify.
  destruct (LoadBalancer.add_server a (lb w)) as [[[]|e|] servers]; cbn [snd];
    try exact Hs.
  cbn [pool set_lb]. destruct (PyDict.mem (tools (pool w)) a); [exact Hs|].
  intros Hl b tool Hin. cbn [pool tools workflow set_tools set_pool set_lb] in *.
  apply HandlerFacts.in_set_inv in Hin.
  destruct Hin as [Hin|[-> ->]]; [now apply (Hs Hl b)|].
  now rewrite Hl.
Qed.

Lemma synced_startup server_addresses : synced (startup server_addresses).
Proof. intros Hl. discriminate. Qed.

(** ** From the pool to the handlers *)

Section PoolInvariant.
Variable fs : filesystem.
Variable I : world -> Prop.
Hypothesis I_pool : pool_only I.
Hypothesis I_get_tool : preserves I (get_tool_for_request env).
Hypothesis I_load : forall wf name, preserves I (load_workflow wf name).
Hypothesis I_preload : forall wf timeout, preserves I (preload_all_servers env wf timeout).
Hypothesis I_add : forall a, preserves I (ToolPool.add_server a).

Lemma invariant_log c : preserves I (log c).
Proof. intros w H. now apply (I_pool w). Qed.

Lemma invariant_on_lb {A} (m : M LoadBalancer.registry A) : preserves I (on_lb m).
Proof.
  intros w H. unfold on_lb. destruct (m (lb w)) as [r servers].
  now apply (I_pool w).
Qed.

Lemma invariant_call_run tool wf name timeout :
  preserves I (call_run env tool wf name timeout).
Proof.
  unfold call_run. preserve; [apply invariant_log|].
  apply MonadFacts.preserves_modify. intros w H. now apply (I_pool w).
Qed.

Lemma invariant_run_and_extract video tool timeout :
  preserves I (run_and_extract env fs video tool timeout).
Proof. unfold run_and_extract. split_cases. apply invariant_call_run. Qed.

Lemma invariant_dispatch video timeout detail :
  preserves I (dispatch env fs video timeout detail).
Proof.
  unfold dispatch, call_increment_task, call_decrement_task. preserve;
    first [ exact I_get_tool | apply invariant_log | apply invariant_on_lb
          | apply invariant_run_and_extract ].
Qed.

Lemma invariant_reload_template template mode :
  preserves I (reload_template fs template mode).
Proof.
  intros w H. unfold reload_template.
  destruct (match current_template (pool w) with
            | Some t => String.eqb template t
            | None => false
            end); [exact H|].
  destruct (read_template fs _ template) as [[[|node wf]| |]|]; try exact H.
  now apply I_load.
Qed.

Lemma invariant_handlers image template mode address :
  preserves I (process_image env fs image template mode) /\
  preserves I (process_video env fs image template mode) /\
  preserves I (load_template env fs template mode) /\
  preserves I (Routers.add_server address) /\
  preserves I (Routers.remove_server address).
Proof.
  repeat split.
  - unfold process_image. destruct image; preserve.
    + apply invariant_reload_template.
    + unfold store_upload. preserve.
    + apply invariant_dispatch.
  - unfold process_video. destruct image; preserve. destruct (_ || _); preserve.
    + apply invariant_reload_template.
    + unfold store_upload. preserve.
    + apply invariant_dispatch.
  - intros w H. unfold load_template.
    destruct (read_template fs _ template) as [[[|node wf]| |]|]; try exact H.
    revert w H.
    apply (MonadFacts.preserves_bind I); [apply I_load | intros _].
    destruct (String.eqb mode "image"); preserve.
    + apply I_preload.
    + match goal with |- preserves _ (if ?c then _ else _) => destruct c end; preserve.
  - unfold Routers.add_server. preserve. apply I_add.
  - unfold Routers.remove_server. preserve. apply invariant_on_lb.
Qed.

End PoolInvariant.

(** ** The tool of a request *)

Lemma get_tool_for_request_run w b :
  LoadBalancer.get_best_server (shuffle env) (lb w) = Some b ->
  b <> "" ->
  let tool0 := match PyDict.get (tools (pool w)) b with
               | Some tool => tool
               | None => ComfyuiTool.new_tool b
               end in
  let tool := if loaded (workflow (pool w))
              then ComfyuiTool.set_workflow (workflow (pool w)) tool0
              else tool0 in
  get_tool_for_request env w =
  (Return tool, set_tools (PyDict.set (tools (pool w)) b tool) w).
Proof.
  intros Hb Hne. unfold get_tool_for_request. rewrite Hb.
  destruct (String.eqb_spec b "") as [->|_]; [now contradiction Hne | reflexivity].
Qed.

End Invariants.

(** X10: [get_tool_for_request] on a registry whose selected backend is
    [b] returns a tool that is stored under [b] in the pool afterwards,
    creating it when the pool has none for [b]; it holds the workflow of the
    pool when one is loaded, and addresses [b] when the pool stores every
    tool under its own address.  The registry, the other tools and the
    template of the pool are as they were. *)
Theorem get_tool_for_request_selected :
  forall (env : environment) (w : world) (b : string),
    LoadBalancer.get_best_server (shuffle env) (lb w) = Some b ->
    b <> "" ->
    exists tool w',
      get_tool_for_request env w = (Return tool, w') /\
      PyDict.get (tools (pool w')) b = Some tool /\
      (forall other, other <> b ->
         PyDict.get (tools (pool w')) other = PyDict.get (tools (pool w)) other) /\
      lb w' = lb w /\
      workflow (pool w') = workflow (pool w) /\
      current_template (pool w') = current_template (pool w) /\
      (loaded (workflow (pool w)) = true ->
       ComfyuiTool.workflow tool = workflow (pool w)) /\
      (PyDict.get (tools (pool w)) b = None ->
       ComfyuiTool.server_address tool = b /\ ComfyuiTool.preloaded tool = false) /\
      (keyed w -> ComfyuiTool.server_address tool = b).
Proof.
  intros env w b Hb Hne.
  pose proof (get_tool_for_request_run env w b Hb Hne) as Hrun. cbv zeta in Hrun.
  eexists. eexists. split; [exact Hrun|].
  cbn [pool tools lb workflow current_template set_tools set_pool].
  split; [apply PyDictFacts.get_set_same|].
  split; [intros other Ho; apply PyDictFacts.get_set_other; congruence|].
  split; [reflexivity|]. split; [reflexivity|]. split; [reflexivity|].
  split; [intros Hl; now rewrite Hl|].
  split.
  - intros Hnone. rewrite Hnone. now destruct (loaded (workflow (pool w))).
  - intros Hk.
    assert (H : ComfyuiTool.server_address
                  match PyDict.get (tools (pool w)) b with
                  | Some tool => tool
                  | None => ComfyuiTool.new_tool b
                  end = b).
    { destruct (PyDict.get (tools (pool w)) b) as [tool|] eqn:E; [|reflexivity].
      apply Hk. now apply PyDictFacts.get_in. }
    destruct (loaded (workflow (pool w))); exact H.
Qed.

Lemma get_tool_for_request_selected_witness :
  exists tool w',
    get_tool_for_request (three_backends []) loaded_world = (Return tool, w') /\
    PyDict.get (tools (pool w')) "C" = Some tool /\
    ComfyuiTool.workflow tool = Some swap_workflow /\
    ComfyuiTool.server_address tool = "C".
Proof.
  destruct (get_tool_for_request_selected (three_backends []) loaded_world "C")
    as (tool & w' & Hrun & Hget & _ & _ & _ & _ & Hwf & _ & Hk).
  - vm_compute. reflexivity.
  - discriminate.
  - exists tool, w'. split; [exact Hrun|]. split; [exact Hget|]. split.
    + exact (Hwf eq_refl).
    + apply Hk. intros a t Hin. vm_compute in Hin.
      destruct Hin as [H|[H|[H|[]]]]; injection H as <- <-; reflexivity.
Defined.

(** X11: the pool stores every tool under its own address, and once a
    workflow is loaded every tool holds it: both hold of the world that
    [main.py] builds and are kept by every handler (image and video
    requests, loading a template, adding and removing a backend), whatever
    the backends and the files do. *)
Theorem tools_stay_keyed_and_synced :
  forall (env : environment) (fs : filesystem) (server_addresses : list string)
         (image : option upload) (template mode address : string),
    (keyed (startup server_addresses) /\ synced (startup server_addresses)) /\
    (preserves keyed (process_image env fs image template mode) /\
     preserves keyed (process_video env fs image template mode) /\
     preserves keyed (load_template env fs template mode) /\
     preserves keyed (Routers.add_server address) /\
     preserves keyed (Routers.remove_server address)) /\
    (preserves synced (process_image env fs image template mode) /\
     preserves synced (process_video env fs image template mode) /\
     preserves synced (load_template env fs template mode) /\
     preserves synced (Routers.add_server address) /\
     preserves synced (Routers.remove_server address)).
Proof.
  intros env fs server_addresses image template mode address.
  split; [split; [apply keyed_startup | apply synced_startup]|].
  split.
  - apply invariant_handlers.
    + apply pool_only_keyed.
    + apply keyed_get_tool_for_request.
    + apply keyed_load_workflow.
    + apply keyed_preload_all_servers.
    + apply keyed_add_server.
  - apply invariant_handlers.
    + apply pool_only_synced.
    + apply synced_get_tool_for_request.
    + apply synced_load_workflow.
    + apply synced_preload_all_servers.
    + apply synced_add_server.
Qed.

(** X12: [preload_full_workflow] never raises: it returns a pair or does
    not come back.  It reports success exactly when the workflow is not
    empty, the placeholder is there or could be created, the backend took
    the rewritten workflow and answered with a job id, and the watch of
    that job returned true; the report then carries that id, and
    [preloaded] is set.  In every other case the tool is as it was.  On an
    empty workflow it reports failure at once. *)
Theorem preload_full_workflow_outcome :
  forall (py_eq : json -> json -> bool) (settings : Settings)
         (dir : ComfyuiTool.input_dir) (io : ComfyuiTool.backend_io)
         (wf : ComfyuiTool.node_graph) (timeout : Z) (tool : ComfyuiTool.ComfyUITool),
    let run := ComfyuiTool.preload_full_workflow py_eq settings dir io wf timeout tool in
    (forall e, fst run <> Raise e) /\
    (forall info,
        fst run = Return (true, info) <->
        wf <> [] /\
        (ComfyuiTool.placeholder_exists dir = true \/
         ComfyuiTool.create_placeholder_image dir = true) /\
        exists wf_copy resp pid,
          ComfyuiTool.rewrite_for_preload (preload_placeholder_name settings) wf =
          Return wf_copy /\
          ComfyuiTool.prompt_reply io wf_copy = Return resp /\
          ComfyuiTool.prompt_id_of resp = Return (Some pid) /\
          fst (ComfyuiTool._wait_for_prompt_exec py_eq io pid timeout
                 ComfyuiTool.NoSocket) = Return true /\
          info = ComfyuiTool.Preloaded pid) /\
    (forall info, fst run = Return (true, info) ->
                  snd run = ComfyuiTool.set_preloaded true tool) /\
    (forall info, fst run = Return (false, info) -> snd run = tool) /\
    (fst run = Hang -> snd run = tool) /\
    (wf = [] -> run = (Return (false, ComfyuiTool.EmptyWorkflow), tool)).
Proof.
  intros py_eq settings dir io wf timeout tool run.
  assert (Hempty : wf = [] -> run = (Return (false, ComfyuiTool.EmptyWorkflow), tool)).
  { intros ->. reflexivity. }
  revert Hempty. unfold run. clear run.
  unfold ComfyuiTool.preload_full_workflow, try_except.
  destruct wf as [|node wf].
  { intros Hempty. cbn [fst snd ret].
    split; [intros e; discriminate|].
    split; [intros info; split; [discriminate | intros (Hne & _); congruence]|].
    split; [discriminate|]. split; [reflexivity|]. split; [reflexivity | exact Hempty]. }
  destruct (ComfyuiTool.placeholder_exists dir) eqn:Ep;
    destruct (ComfyuiTool.create_placeholder_image dir) eqn:Ec; cbn [negb andb];
    try (intros Hempty; cbn [fst snd ret];
         split; [intros e; discriminate|];
         split; [intros info; split;
                 [discriminate | intros (_ & [H|H] & _); discriminate]|];
         split; [discriminate|]; split; [reflexivity|];
         split; [reflexivity | exact Hempty]);
    unfold bind, lift, ret, modify;
    (destruct (ComfyuiTool.rewrite_for_preload _ _) as [wf_copy|e|] eqn:E1;
     [|intros Hempty; cbn [fst snd];
       split; [intros e'; discriminate|];
       split; [intros info; split;
               [discriminate
               | intros (_ & _ & wc & rs & pd & H1 & _); discriminate]|];
       split; [discriminate|]; split; [reflexivity|];
       split; [reflexivity | exact Hempty]..]);
    (destruct (ComfyuiTool.prompt_reply io wf_copy) as [resp|e|] eqn:E2;
     [|intros Hempty; cbn [fst snd];
       split; [intros e'; discriminate|];
       split; [intros info; split;
               [discriminate
               | intros (_ & _ & wc & rs & pd & H1 & H2 & _); congruence]|];
       split; [discriminate|]; split; [reflexivity|];
       split; [reflexivity | exact Hempty]..]);
    (destruct (ComfyuiTool.prompt_id_of resp) as [[pid|]|e|] eqn:E3;
     [|intros Hempty; cbn [fst snd];
       split; [intros e'; discriminate|];
       split; [intros info; split;
               [discriminate
               | intros (_ & _ & wc & rs & pd & H1 & H2 & H3 & _); congruence]|];
       split; [discriminate|]; split; [reflexivity|];
       split; [reflexivity | exact Hempty]..]);
    (destruct (fst (ComfyuiTool._wait_for_prompt_exec py_eq io pid timeout
                      ComfyuiTool.NoSocket)) as [[|]|e|] eqn:E4;
     [|intros Hempty; cbn [fst snd];
       split; [intros e'; discriminate|];
       split; [intros info; split;
               [discriminate
               | intros (_ & _ & wc & rs & pd & H1 & H2 & H3 & H4 & _); congruence]|];
       split; [discriminate|]; split; [reflexivity|];
       split; [reflexivity | exact Hempty]..]);
    intros Hempty; cbn [fst snd];
    (split; [intros e; discriminate|]);
    (split;
     [intros info; split;
      [intros H; injection H as <-;
       split; [discriminate|];
       split; [first [now left | now right]|];
       exists wf_copy, resp, pid; repeat split; assumption
      |intros (_ & _ & wc & rs & pd & H1 & H2 & H3 & H4 & ->);
       do 3 f_equal; congruence]|]);
    (split; [reflexivity|]);
    (split; [discriminate|]);
    (split; [discriminate | exact Hempty]).
Qed.

End PoolFacts.

Module RequestFacts.
Import ToolPool Routers Handlers Pool.

Section Requests.
Variable env : environment.
Variable fs : filesystem.

(** ** The steps of a dispatch, one by one *)

Lemma call_increment_task_world a w :
  call_increment_task a w =
  (Return tt, mkWorld (snd (LoadBalancer.increment_task a (lb w))) (pool w)
                      (calls w ++ [CallIncrement a])).
Proof.
  unfold call_increment_task, log. rewrite ProbeFacts.bind_modify.
  unfold on_lb. cbn [lb pool calls].
  pose proof (HandlerFacts.increment_task_returns a (lb w)) as Hr.
  destruct (LoadBalancer.increment_task a (lb w)) as [r servers].
  cbn [fst snd] in *. now subst r.
Qed.

Lemma call_decrement_task_world a w :
  call_decrement_task a w =
  (Return tt, mkWorld (snd (LoadBalancer.decrement_task a (lb w))) (pool w)
                      (calls w ++ [CallDecrement a])).
Proof.
  unfold call_decrement_task, log. rewrite ProbeFacts.bind_modify.
  unfold on_lb. cbn [lb pool calls].
  pose proof (HandlerFacts.decrement_task_returns a (lb w)) as Hr.
  destruct (LoadBalancer.decrement_task a (lb w)) as [r servers].
  cbn [fst snd] in *. now subst r.
Qed.

(** With no other thread at work, a run leaves the registry and the pool
    as they are. *)
Lemma run_and_extract_world video tool timeout w :
  meanwhile env = [] ->
  lb (snd (run_and_extract env fs video tool timeout w)) = lb w /\
  pool (snd (run_and_extract env fs video tool timeout w)) = pool w.
Proof.
  intros Hm.
  assert (P : preserves (fun w' => lb w' = lb w /\ pool w' = pool w)
                        (run_and_extract env fs video tool timeout)).
  { unfold run_and_extract. PoolFacts.split_cases.
    unfold call_run, log. preserve.
    - apply MonadFacts.preserves_modify. intros w' H. exact H.
    - apply MonadFacts.preserves_modify. intros w' H. rewrite Hm. exact H. }
  exact (P w (conj eq_refl eq_refl)).
Qed.

(** The response of a run names the backend of the tool. *)
Lemma run_and_extract_server video tool timeout w r :
  fst (run_and_extract env fs video tool timeout w) = Return r ->
  server_used r = Some (ComfyuiTool.server_address tool).
Proof.
  unfold run_and_extract.
  destruct (loaded (ComfyuiTool.workflow tool)); [|discriminate].
  destruct (ComfyuiTool.workflow tool) as [wf|]; [|discriminate].
  unfold bind, lift, ret.
  destruct (call_run env tool wf (unique_filename fs) timeout w) as [[run|e|] w1];
    try discriminate.
  destruct (outputs_of run) as [outputs|e|]; try discriminate.
  destruct (fetch_first video (backend env (ComfyuiTool.server_address tool))
                        outputs None) as [[[|c b]|]|e|]; try discriminate;
    cbn [fst]; try (intros H; injection H as <-; reflexivity).
  destruct video.
  - destruct (write_processed fs) as [[]|e|]; try discriminate.
    intros H. injection H as <-. reflexivity.
  - destruct (encode_png fs (String c b)) as [png|e|]; try discriminate.
    destruct (write_processed fs) as [[]|e|]; try discriminate.
    intros H. injection H as <-. reflexivity.
Qed.

Lemma get_tool_for_request_lb w :
  lb (snd (get_tool_for_request env w)) = lb w /\
  calls (snd (get_tool_for_request env w)) = calls w.
Proof.
  unfold get_tool_for_request.
  destruct (LoadBalancer.get_best_server _ _) as [best|]; [|split; reflexivity].
  destruct (String.eqb best ""); split; reflexivity.
Qed.

Lemma get_tool_for_request_raises w e w1 :
  get_tool_for_request env w = (Raise e, w1) -> w1 = w.
Proof.
  unfold get_tool_for_request.
  destruct (LoadBalancer.get_best_server _ _) as [best|];
    [|intros H; now injection H].
  destruct (String.eqb best ""); intros H; [now injection H | discriminate].
Qed.

(** A dispatch whose tool is [tool]: the increment, the run and, when the
    run comes back, the decrement. *)
Lemma dispatch_run video timeout detail w tool w1 :
  get_tool_for_request env w = (Return tool, w1) ->
  dispatch env fs video timeout detail w =
  match run_and_extract env fs video tool timeout
          (snd (call_increment_task (ComfyuiTool.server_address tool) w1)) with
  | (Hang, w3) => (Hang, w3)
  | (Return x, w3) =>
      (Return x, snd (call_decrement_task (ComfyuiTool.server_address tool) w3))
  | (Raise e, w3) =>
      (Raise (HTTPException 500 (detail ++ ": " ++ str_exn env e)%string),
       snd (call_decrement_task (ComfyuiTool.server_address tool) w3))
  end.
Proof.
  intros Htool. unfold dispatch, try_except.
  unfold bind at 1. rewrite Htool.
  unfold bind at 1. rewrite call_increment_task_world. cbn [snd].
  unfold try_finally.
  destruct (run_and_extract env fs video tool timeout _) as [[x|e|] w3];
    rewrite ?call_decrement_task_world; reflexivity.
Qed.

Lemma dispatch_no_tool video timeout detail w e w1 :
  get_tool_for_request env w = (Raise e, w1) ->
  dispatch env fs video timeout detail w =
  (Raise (HTTPException 500 (detail ++ ": " ++ str_exn env e)%string), w).
Proof.
  intros Htool. unfold dispatch, try_except. unfold bind at 1. rewrite Htool.
  now rewrite (get_tool_for_request_raises w e w1 Htool).
Qed.

Lemma selected_tool_address w b :
  keyed w ->
  ComfyuiTool.server_address
    (if loaded (workflow (pool w))
     then ComfyuiTool.set_workflow (workflow (pool w))
            match PyDict.get (tools (pool w)) b with
            | Some tool => tool
            | None => ComfyuiTool.new_tool b
            end
     else match PyDict.get (tools (pool w)) b with
          | Some tool => tool
          | None => ComfyuiTool.new_tool b
          end) = b.
Proof.
  intros Hk.
  assert (H : ComfyuiTool.server_address
                match PyDict.get (tools (pool w)) b with
                | Some tool => tool
                | None => ComfyuiTool.new_tool b
                end = b).
  { destruct (PyDict.get (tools (pool w)) b) as [tool|] eqn:E; [|reflexivity].
    apply Hk. now apply PyDictFacts.get_in. }
  destruct (loaded (workflow (pool w))); exact H.
Qed.

(** The registry after a dispatch that comes back, with no other thread at
    work. *)
Lemma dispatch_restores video timeout detail w :
  meanwhile env = [] ->
  Registry.tasks_nonneg (lb w) ->
  fst (dispatch env fs video timeout detail w) <> Hang ->
  lb (snd (dispatch env fs video timeout detail w)) = lb w.
Proof.
  intros Hm Hnn Hr.
  destruct (get_tool_for_request env w) as [[tool|e|] w1] eqn:Htool.
  - pose proof (get_tool_for_request_lb w) as [Hlb _]. rewrite Htool in Hlb.
    cbn [snd] in Hlb.
    rewrite (dispatch_run video timeout detail w tool w1 Htool) in *.
    rewrite call_increment_task_world in *. cbn [snd] in *.
    pose proof (run_and_extract_world video tool timeout
                  (mkWorld (snd (LoadBalancer.increment_task
                                   (ComfyuiTool.server_address tool) (lb w1)))
                           (pool w1)
                           (calls w1 ++ [CallIncrement (ComfyuiTool.server_address tool)]))
                  Hm) as [Hl3 _].
    destruct (run_and_extract env fs video tool timeout _) as [[x|e|] w3];
      cbn [fst snd lb] in *; try (now contradiction Hr);
      rewrite call_decrement_task_world; cbn [snd lb]; rewrite Hl3, Hlb;
      apply ProbeFacts.decrement_increment; exact Hnn.
  - rewrite (dispatch_no_tool video timeout detail w e w1 Htool). reflexivity.
  - exfalso. apply (HandlerFacts.get_tool_for_request_no_hang env w).
    now rewrite Htool.
Qed.

Lemma reload_template_lb template mode w :
  lb (snd (reload_template fs template mode w)) = lb w.
Proof.
  unfold reload_template.
  destruct (match current_template (pool w) with
            | Some t => String.eqb template t
            | None => false
            end); [reflexivity|].
  destruct (read_template fs _ template) as [[[|node wf]| |]|]; reflexivity.
Qed.

Lemma store_upload_state w : snd (store_upload env fs w) = w.
Proof.
  unfold store_upload, bind, lift, try_except, raise.
  destruct (save_upload fs) as [[]|e|]; try reflexivity.
  destruct (copy_to_input fs) as [[]|e|]; reflexivity.
Qed.

(** The prelude of both handlers, then the dispatch. *)
Lemma prelude_then_dispatch_restores template mode video timeout detail w :
  meanwhile env = [] ->
  Registry.tasks_nonneg (lb w) ->
  fst ((reload_template fs template mode ;;
        store_upload env fs ;;
        dispatch env fs video timeout detail)%py w) <> Hang ->
  lb (snd ((reload_template fs template mode ;;
            store_upload env fs ;;
            dispatch env fs video timeout detail)%py w)) = lb w.
Proof.
  intros Hm Hnn. unfold bind at 1 3.
  pose proof (reload_template_lb template mode w) as H1.
  destruct (reload_template fs template mode w) as [[[]|e|] w1]; cbn [snd] in H1;
    try (intros _; exact H1).
  unfold bind.
  pose proof (store_upload_state w1) as H2.
  destruct (store_upload env fs w1) as [[[]|e|] w2]; cbn [snd] in H2; subst w2;
    try (intros _; exact H1).
  intros Hr. rewrite <- H1.
  apply dispatch_restores; [exact Hm | now rewrite H1 | exact Hr].
Qed.

End Requests.

(** X13: a request is charged to the backend that was selected for it:
    when [get_best_server] selects [b] and the pool stores every tool under
    its own address, the first call the dispatch adds is the increment of
    [b], every later one is the run or the decrement on [b], and a response
    names [b] as the server used. *)
Theorem request_charges_selected_backend :
  forall (env : environment) (fs : filesystem) (video : bool) (timeout : Z)
         (detail : string) (w : world) (b : string),
    keyed w ->
    LoadBalancer.get_best_server (shuffle env) (lb w) = Some b ->
    b <> "" ->
    let run := dispatch env fs video timeout detail w in
    (exists tail,
        calls (snd run) = calls w ++ CallIncrement b :: tail /\
        Forall (fun c => c = CallRun b \/ c = CallDecrement b) tail) /\
    (forall r, fst run = Return r -> server_used r = Some b).
Proof.
  intros env fs video timeout detail w b Hk Hb Hne run.
  pose proof (PoolFacts.get_tool_for_request_run env w b Hb Hne) as Htool.
  cbv zeta in Htool.
  pose proof (selected_tool_address w b Hk) as Haddr.
  revert Htool Haddr.
  generalize (if loaded (workflow (pool w))
              then ComfyuiTool.set_workflow (workflow (pool w))
                     match PyDict.get (tools (pool w)) b with
                     | Some tool => tool
                     | None => ComfyuiTool.new_tool b
                     end
              else match PyDict.get (tools (pool w)) b with
                   | Some tool => tool
                   | None => ComfyuiTool.new_tool b
                   end).
  intros tool Htool Haddr.
  unfold run. rewrite (dispatch_run env fs video timeout detail w tool _ Htool).
  rewrite Haddr. rewrite call_increment_task_world. cbn [snd].
  set (w2 := mkWorld _ _ _).
  assert (Hc2 : calls w2 = calls w ++ [CallIncrement b]) by reflexivity.
  pose proof (HandlerFacts.run_and_extract_calls env fs video tool timeout w2) as Hcalls.
  pose proof (run_and_extract_server env fs video tool timeout w2) as Hserver.
  rewrite Haddr in Hcalls, Hserver.
  destruct (run_and_extract env fs video tool timeout w2) as [[x|e|] w3];
    cbn [fst snd] in *; rewrite ?call_decrement_task_world; cbn [fst snd calls].
  - split.
    + destruct Hcalls as [[-> _]| ->]; rewrite Hc2, <- !app_assoc; cbn [app].
      * exists [CallDecrement b]. split; [reflexivity|]. constructor; [now right | constructor].
      * exists [CallRun b; CallDecrement b]. split; [reflexivity|].
        constructor; [now left|]. constructor; [now right | constructor].
    + intros r H. injection H as <-. now apply Hserver.
  - split; [|discriminate].
    destruct Hcalls as [[-> _]| ->]; rewrite Hc2, <- !app_assoc; cbn [app].
    + exists [CallDecrement b]. split; [reflexivity|]. constructor; [now right | constructor].
    + exists [CallRun b; CallDecrement b]. split; [reflexivity|].
      constructor; [now left|]. constructor; [now right | constructor].
  - split; [|discriminate].
    destruct Hcalls as [[_ Hh]| ->]; [now contradiction Hh|].
    rewrite Hc2, <- !app_assoc; cbn [app].
    exists [CallRun b]. split; [reflexivity|]. constructor; [now left | constructor].
Qed.

Lemma request_charges_selected_backend_witness :
  (exists tail,
      calls (snd (dispatch (three_backends []) files false 600 "Processing error"
                           loaded_world)) =
      calls loaded_world ++ CallIncrement "C" :: tail /\
      Forall (fun c => c = CallRun "C" \/ c = CallDecrement "C") tail) /\
  (forall r, fst (dispatch (three_backends []) files false 600 "Processing error"
                           loaded_world) = Return r ->
             server_used r = Some "C").
Proof.
  apply (request_charges_selected_backend (three_backends []) files false 600
           "Processing error" loaded_world "C").
  - intros a t Hin. vm_compute in Hin.
    destruct Hin as [H|[H|[H|[]]]]; injection H as <- <-; reflexivity.
  - vm_compute. reflexivity.
  - discriminate.
Defined.

(** X14: when no other thread touches the registry during the job and no
    counter is negative, a request that comes back (with a response or with
    an error) leaves the registry exactly as it found it: every in-flight
    count is the one before the request. *)
Theorem completed_request_restores_registry :
  forall (env : environment) (fs : filesystem) (image : option upload)
         (template mode : string) (w : world),
    meanwhile env = [] ->
    Registry.tasks_nonneg (lb w) ->
    (fst (process_image env fs image template mode w) <> Hang ->
     lb (snd (process_image env fs image template mode w)) = lb w) /\
    (fst (process_video env fs image template mode w) <> Hang ->
     lb (snd (process_video env fs image template mode w)) = lb w).
Proof.
  intros env fs image template mode w Hm Hnn. split.
  - unfold process_image. destruct image as [img|]; [|reflexivity].
    now apply prelude_then_dispatch_restores.
  - unfold process_video. destruct image as [img|]; [|reflexivity].
    destruct (_ || _); [|reflexivity].
    now apply prelude_then_dispatch_restores.
Qed.

Lemma completed_request_restores_registry_witness :
  lb (snd (process_image slow_backends files (Some (mkUpload "me.png" "..."))
                         "swap.json" "image" loaded_world)) = lb loaded_world /\
  lb (snd (process_video (three_backends []) files (Some (mkUpload "me.png" "..."))
                         "swap.json" "video" loaded_world)) = lb loaded_world.
Proof.
  destruct (completed_request_restores_registry slow_backends files
              (Some (mkUpload "me.png" "...")) "swap.json" "image" loaded_world
              eq_refl (RegistryFacts.tasks_nonneg_init ["A"; "B"; "C"])) as [Hi _].
  destruct (completed_request_restores_registry (three_backends []) files
              (Some (mkUpload "me.png" "...")) "swap.json" "video" loaded_world
              eq_refl (RegistryFacts.tasks_nonneg_init ["A"; "B"; "C"])) as [_ Hv].
  split.
  - apply Hi. vm_compute. discriminate.
  - apply Hv. vm_compute. discriminate.
Defined.

(** X15: a dispatch that does not come back (the backend took the job and
    its socket then stays silent) has incremented the counter of its
    backend and never decrements it: with no other thread at work, the
    registry is left as [increment_task] made it. *)
Theorem hung_dispatch_keeps_increment :
  forall (env : environment) (fs : filesystem) (video : bool) (timeout : Z)
         (detail : string) (w : world),
    meanwhile env = [] ->
    fst (dispatch env fs video timeout detail w) = Hang ->
    exists b,
      calls (snd (dispatch env fs video timeout detail w)) =
      calls w ++ [CallIncrement b; CallRun b] /\
      lb (snd (dispatch env fs video timeout detail w)) =
      snd (LoadBalancer.increment_task b (lb w)).
Proof.
  intros env fs video timeout detail w Hm Hr.
  destruct (get_tool_for_request env w) as [[tool|e|] w1] eqn:Htool.
  - pose proof (get_tool_for_request_lb env w) as [Hlb Hcalls]. rewrite Htool in Hlb, Hcalls.
    cbn [snd] in Hlb, Hcalls.
    rewrite (dispatch_run env fs video timeout detail w tool w1 Htool) in *.
    rewrite call_increment_task_world in *. cbn [snd] in *.
    set (w2 := mkWorld _ _ _) in *.
    pose proof (run_and_extract_world env fs video tool timeout w2 Hm) as [Hl3 _].
    pose proof (HandlerFacts.run_and_extract_calls env fs video tool timeout w2) as Hc3.
    destruct (run_and_extract env fs video tool timeout w2) as [[x|e|] w3];
      cbn [fst snd] in *; try discriminate.
    exists (ComfyuiTool.server_address tool). split.
    + destruct Hc3 as [[_ Hh]| ->]; [now contradiction Hh|].
      unfold w2. cbn [calls]. rewrite Hcalls, <- app_assoc. reflexivity.
    + rewrite Hl3. unfold w2. cbn [lb]. now rewrite Hlb.
  - rewrite (dispatch_no_tool env fs video timeout detail w e w1 Htool) in Hr.
    discriminate.
  - exfalso. apply (HandlerFacts.get_tool_for_request_no_hang env w).
    now rewrite Htool.
Qed.

Lemma hung_dispatch_keeps_increment_witness :
  exists b,
    calls (snd (dispatch silent_backends files false 600 "Processing error"
                         loaded_world)) =
    calls loaded_world ++ [CallIncrement b; CallRun b] /\
    lb (snd (dispatch silent_backends files false 600 "Processing error" loaded_world)) =
    snd (LoadBalancer.increment_task b (lb loaded_world)).
Proof.
  apply (hung_dispatch_keeps_increment silent_backends files false 600
           "Processing error" loaded_world).
  - reflexivity.
  - vm_compute. reflexivity.
Defined.

(** X16: whatever goes wrong between the selection of a backend and the
    end of the job, a dispatch raises nothing but [HTTPException] with
    status 500, whose detail is the text of the handler, a colon and what
    [str] makes of the exception that was caught: the one of
    [get_tool_for_request], or the one of the run.  When no backend can be
    selected it does so without any increment and leaves the world as it
    is; on an empty registry the exception caught is the [RuntimeError] of
    [No available ComfyUI servers]. *)
Theorem dispatch_errors_are_500 :
  forall (env : environment) (fs : filesystem) (video : bool) (timeout : Z)
         (detail : string) (w : world),
    (forall e, fst (dispatch env fs video timeout detail w) = Raise e ->
       exists cause,
         e = HTTPException 500 (detail ++ ": " ++ str_exn env cause)%string /\
         (fst (get_tool_for_request env w) = Raise cause \/
          exists tool w1,
            get_tool_for_request env w = (Return tool, w1) /\
            fst (run_and_extract env fs video tool timeout
                   (snd (call_increment_task (ComfyuiTool.server_address tool) w1))) =
            Raise cause)) /\
    (forall cause,
        fst (get_tool_for_request env w) = Raise cause ->
        dispatch env fs video timeout detail w =
        (Raise (HTTPException 500 (detail ++ ": " ++ str_exn env cause)%string), w)) /\
    (lb w = [] ->
     dispatch env fs video timeout detail w =
     (Raise (HTTPException 500
               (detail ++ ": " ++
                str_exn env (RuntimeError "No available ComfyUI servers" None))%string),
      w)).
Proof.
  intros env fs video timeout detail w. split; [|split].
  - intros e.
    destruct (get_tool_for_request env w) as [[tool|cause|] w1] eqn:Htool.
    + rewrite (dispatch_run env fs video timeout detail w tool w1 Htool).
      destruct (run_and_extract env fs video tool timeout _) as [[x|cause|] w3] eqn:Hrun;
        cbn [fst]; intros H; try discriminate.
      injection H as <-. exists cause. split; [reflexivity|].
      right. exists tool, w1. split; [reflexivity|]. now rewrite Hrun.
    + rewrite (dispatch_no_tool env fs video timeout detail w cause w1 Htool).
      cbn [fst]. intros H. injection H as <-. exists cause.
      split; [reflexivity | now left].
    + exfalso. apply (HandlerFacts.get_tool_for_request_no_hang env w).
      now rewrite Htool.
  - intros cause Hc.
    destruct (get_tool_for_request env w) as [r w1] eqn:Htool. cbn [fst] in Hc. subst r.
    exact (dispatch_no_tool env fs video timeout detail w cause w1 Htool).
  - intros Hempty.
    apply (dispatch_no_tool env fs video timeout detail w
             (RuntimeError "No available ComfyUI servers" None) w).
    unfold get_tool_for_request. now rewrite Hempty.
Qed.

Lemma dispatch_errors_are_500_witness :
  dispatch (three_backends []) files false 600 "Processing error"
           (startup []) =
  (Raise (HTTPException 500 "Processing error: No available ComfyUI servers"),
   startup []).
Proof.
  exact (proj2 (proj2 (dispatch_errors_are_500 (three_backends []) files false 600
                         "Processing error" (startup []))) eq_refl).
Defined.

(** X17: removing a backend takes it out of the registry only: its tool
    stays in the pool, so the next preload of a template is still sent to
    the removed backend. *)
Theorem removed_backend_keeps_tool :
  forall (env : environment) (a : string) (w : world)
         (wf : ComfyuiTool.node_graph) (timeout : Z),
    In a (PyDict.keys (tools (pool w))) ->
    let w1 := snd (Routers.remove_server a w) in
    fst (Routers.remove_server a w) = Return (ServerAction a) /\
    ~ In a (PyDict.keys (lb w1)) /\
    pool w1 = pool w /\
    In (CallPreload a) (calls (snd (preload_all_servers env wf timeout w1))).
Proof.
  intros env a w wf timeout Hin w1.
  assert (Hw1 : w1 = set_lb (snd (LoadBalancer.remove_server a (lb w))) w).
  { unfold w1, Routers.remove_server, bind, on_lb, LoadBalancer.remove_server.
    destruct (PyDict.mem (lb w) a); reflexivity. }
  split; [|split; [|split]].
  - unfold Routers.remove_server, bind, on_lb, LoadBalancer.remove_server.
    destruct (PyDict.mem (lb w) a); reflexivity.
  - rewrite Hw1. cbn [lb set_lb]. apply ProbeFacts.get_none_iff.
    apply RegistryFacts.get_after_remove.
  - now rewrite Hw1.
  - unfold preload_all_servers.
    assert (Hp : pool w1 = pool w) by now rewrite Hw1.
    rewrite Hp.
    destruct (tools (pool w)) as [|kv t] eqn:Et; [contradiction|].
    cbn [snd calls]. apply in_or_app. right.
    apply in_map. exact Hin.
Qed.

Lemma removed_backend_keeps_tool_witness :
  ~ In "B" (PyDict.keys (lb (snd (Routers.remove_server "B" loaded_world)))) /\
  In (CallPreload "B")
     (calls (snd (preload_all_servers (three_backends []) swap_workflow 300
                    (snd (Routers.remove_server "B" loaded_world))))).
Proof.
  destruct (removed_backend_keeps_tool (three_backends []) "B" loaded_world
              swap_workflow 300) as (_ & Hout & _ & Hin).
  - vm_compute. right. left. reflexivity.
  - split; [exact Hout | exact Hin].
Defined.

(** X18: every registered backend has a tool in the pool in the world
    that [main.py] builds, and a handler that runs to its end keeps this
    when no other thread adds a backend during its job.  It does not hold
    inside [add_server]: after the first of its two steps, and until the
    second, a new backend is registered and has no tool. *)
Theorem registered_backends_have_tools :
  forall (env : environment) (fs : filesystem) (server_addresses : list string)
         (image : option upload) (template mode address : string),
    forallb not_add (meanwhile env) = true ->
    covered (startup server_addresses) /\
    (preserves covered (process_image env fs image template mode) /\
     preserves covered (process_video env fs image template mode) /\
     preserves covered (load_template env fs template mode) /\
     preserves covered (Routers.add_server address) /\
     preserves covered (Routers.remove_server address)) /\
    (forall w,
        ~ In address (PyDict.keys (lb w)) ->
        ~ In address (PyDict.keys (tools (pool w))) ->
        let w1 := snd (add_server_register address w) in
        In address (PyDict.keys (lb w1)) /\
        ~ In address (PyDict.keys (tools (pool w1))) /\
        ~ covered w1).
Proof.
  intros env fs server_addresses image template mode address Hno.
  split; [exact (HandlerFacts.covered_started server_addresses)|].
  split; [exact (HandlerFacts.covered_handlers env fs Hno image template mode address)|].
  intros w Hlb Htools w1.
  assert (Hw1 : w1 = set_lb (PyDict.set (lb w) address
                               (LoadBalancer.new_status address)) w).
  { unfold w1, add_server_register, on_lb, LoadBalancer.add_server.
    destruct (PyDict.mem (lb w) address) eqn:Hm; [|reflexivity].
    exfalso. apply Hlb. now apply PyDictFacts.mem_in_keys. }
  assert (Hin : In address (PyDict.keys (lb w1))).
  { rewrite Hw1. cbn [lb set_lb]. apply HandlerFacts.in_keys_set. now right. }
  assert (Hout : ~ In address (PyDict.keys (tools (pool w1)))).
  { rewrite Hw1. exact Htools. }
  split; [exact Hin|]. split; [exact Hout|].
  intros Hc. apply Hout. now apply Hc.
Qed.

Lemma registered_backends_have_tools_witness :
  covered (startup ["A"; "B"; "C"]) /\
  preserves covered (process_image (three_backends [LoadBalancer.OpRemove "C"]) files
                                   None "swap.json" "image") /\
  preserves covered (Routers.add_server "D") /\
  ~ covered (snd (add_server_register "D" (startup ["A"; "B"; "C"]))).
Proof.
  destruct (registered_backends_have_tools
              (three_backends [LoadBalancer.OpRemove "C"])
              files ["A"; "B"; "C"] None "swap.json" "image" "D" eq_refl)
    as (Hstart & (Himage & _ & _ & Hadd & _) & Hwindow).
  split; [exact Hstart|]. split; [exact Himage|]. split; [exact Hadd|].
  apply (Hwindow (startup ["A"; "B"; "C"])).
  - vm_compute. intuition discriminate.
  - vm_compute. intuition discriminate.
Defined.

(** X19: with a shuffle that permutes its argument, [get_best_server]
    returns only addresses that are in the registry; so a backend that has
    been removed is not selected again. *)
Theorem selected_backend_is_registered :
  forall (shuffle : list (string * LoadBalancer.ComfyUIServerStatus) ->
                    list (string * LoadBalancer.ComfyUIServerStatus))
         (servers : LoadBalancer.registry) (a : string),
    (forall l, Permutation l (shuffle l)) ->
    (forall b, LoadBalancer.get_best_server shuffle servers = Some b ->
               In b (PyDict.keys servers)) /\
    LoadBalancer.get_best_server shuffle (snd (LoadBalancer.remove_server a servers))
    <> Some a.
Proof.
  intros shuffle servers a Hperm.
  assert (G : forall (s : LoadBalancer.registry) b,
             LoadBalancer.get_best_server shuffle s = Some b -> In b (PyDict.keys s)).
  { intros s b Hb.
    destruct (filter Selector.available s) as [|x rest] eqn:Ef.
    - unfold LoadBalancer.get_best_server in Hb.
      change (filter (fun kv => LoadBalancer.is_available (snd kv)) s)
        with (filter Selector.available s) in Hb.
      rewrite Ef in Hb.
      destruct (PyDict.keys s) as [|k ks]; [discriminate|].
      injection Hb as ->. now left.
    - destruct (SelectorFacts.get_best_server_least shuffle s Hperm)
        as (best & st & Hbest & Hin & _).
      + now rewrite Ef.
      + rewrite Hbest in Hb. injection Hb as <-.
        apply (in_map fst) in Hin. exact Hin. }
  split; [apply G|].
  intros Hsel. apply G in Hsel. revert Hsel.
  apply ProbeFacts.get_none_iff. apply RegistryFacts.get_after_remove.
Qed.

Lemma selected_backend_is_registered_witness :
  (forall b, LoadBalancer.get_best_server (@rev _) Selector.two_backends = Some b ->
             In b (PyDict.keys Selector.two_backends)) /\
  LoadBalancer.get_best_server (@rev _)
    (snd (LoadBalancer.remove_server "127.0.0.1:8166" Selector.two_backends))
  <> Some "127.0.0.1:8166".
Proof.
  apply (selected_backend_is_registered (@rev _) Selector.two_backends "127.0.0.1:8166").
  intros l. apply Permutation_rev.
Defined.

End RequestFacts.

Module SocketFacts.
Import ComfyuiTool Watch.

(** The loop raises exactly when a frame that fails it comes after frames
    that all let it continue, each received before the deadline. *)
Lemma recv_loop_raise_iff py_eq prompt_id deadline e frames :
  forall start,
    recv_loop py_eq prompt_id deadline start frames = Raise e <->
    exists pre t out post,
      frames = pre ++ (t, out) :: post /\
      verdict_of py_eq prompt_id out = Fails e /\
      all_continue py_eq prompt_id pre /\
      Forall (fun clock => clock < deadline) (tests start pre).
Proof.
  induction frames as [|[t out] frames IH]; intros start.
  - cbn [recv_loop]. split.
    + destruct (start <? deadline); discriminate.
    + intros (pre & t & out & post & E & _). destruct pre; discriminate.
  - rewrite WatchFacts.recv_loop_cons. split.
    + destruct (Z.ltb_spec start deadline) as [Hlt|]; [|discriminate].
      destruct (verdict_of py_eq prompt_id out) eqn:Hv; try discriminate.
      * intros H. injection H as ->. exists [], t, out, frames.
        split; [reflexivity|]. split; [exact Hv|]. split; [constructor|].
        constructor; [exact Hlt | constructor].
      * intros H. apply IH in H.
        destruct H as (pre & t' & out' & post & -> & Hf & Hpre & Ht).
        exists ((t, out) :: pre), t', out', post.
        split; [reflexivity|]. split; [exact Hf|].
        split; constructor; assumption.
    + intros (pre & t' & out' & post & E & Hf & Hpre & Ht).
      inversion Ht as [|? ? Hstart Ht']; subst.
      destruct (Z.ltb_spec start deadline) as [_|]; [|lia].
      destruct pre as [|[t0 out0] pre]; cbn [app] in E; injection E as -> -> ->.
      * now rewrite Hf.
      * inversion Hpre as [|? ? H0 Hpre']; subst. cbn [snd] in H0. rewrite H0.
        apply IH. exists pre, t', out', post.
        split; [reflexivity|]. split; [exact Hf|]. split; assumption.
Qed.

(** X22: when the WebSocket cannot be opened, the watch raises the error
    of the connection and there is no socket to close.  Once it is open,
    the watch raises exactly when a frame that fails the loop (an error of
    [recv], a text that is not JSON, a message that is not an object) comes
    after frames that all let the loop go on, each received before the
    deadline; so any error of [recv] met by the loop, the first or a later
    one, is raised to the caller, after the socket was closed.  An error of
    [close] itself is swallowed: the outcome of the watch is the same
    whether [close] raises or not. *)
Theorem watch_connect_and_close :
  forall (py_eq : json -> json -> bool) (io : backend_io) (prompt_id : json)
         (timeout : Z) (s : ws_state),
    (forall e, ws_connect io = Raise e ->
               _wait_for_prompt_exec py_eq io prompt_id timeout s = (Raise e, s)) /\
    (forall start e,
        ws_connect io = Return start ->
        (fst (_wait_for_prompt_exec py_eq io prompt_id timeout s) = Raise e <->
         exists pre t out post,
           ws_frames io = pre ++ (t, out) :: post /\
           verdict_of py_eq prompt_id out = Fails e /\
           all_continue py_eq prompt_id pre /\
           Forall (fun clock => clock < start + timeout) (tests start pre)) /\
        (fst (_wait_for_prompt_exec py_eq io prompt_id timeout s) = Raise e ->
         snd (_wait_for_prompt_exec py_eq io prompt_id timeout s) = WsCloseCalled)) /\
    (forall start pre t e post,
        ws_connect io = Return start ->
        ws_frames io = pre ++ (t, FRecvRaise e) :: post ->
        all_continue py_eq prompt_id pre ->
        Forall (fun clock => clock < start + timeout) (tests start pre) ->
        _wait_for_prompt_exec py_eq io prompt_id timeout s = (Raise e, WsCloseCalled)) /\
    _wait_for_prompt_exec py_eq (with_close true io) prompt_id timeout s =
    _wait_for_prompt_exec py_eq (with_close false io) prompt_id timeout s.
Proof.
  intros py_eq io prompt_id timeout s. split; [|split; [|split]].
  - intros e He. unfold _wait_for_prompt_exec, bind, ws_create_connection.
    now rewrite He.
  - intros start e Hc.
    rewrite (WatchFacts.wait_for_prompt_exec_run py_eq io prompt_id timeout start s Hc).
    pose proof (recv_loop_raise_iff py_eq prompt_id (start + timeout) e
                  (ws_frames io) start) as Hiff.
    destruct (recv_loop py_eq prompt_id (start + timeout) start (ws_frames io))
      as [ok|e'|]; cbn [fst snd]; split; try exact Hiff; try reflexivity; discriminate.
  - intros start pre t e post Hc Hf Hpre Ht.
    rewrite (WatchFacts.wait_for_prompt_exec_run py_eq io prompt_id timeout start s Hc).
    assert (H : recv_loop py_eq prompt_id (start + timeout) start (ws_frames io) =
                Raise e).
    { apply recv_loop_raise_iff. exists pre, t, (FRecvRaise e), post.
      split; [exact Hf|]. split; [reflexivity|]. split; assumption. }
    now rewrite H.
  - unfold _wait_for_prompt_exec, bind, ws_create_connection, with_close.
    cbn [ws_connect ws_frames].
    destruct (ws_connect io) as [start|e|]; reflexivity.
Qed.

(** A binary frame, then an error of [recv]. *)
Lemma watch_connect_and_close_witness :
  _wait_for_prompt_exec eq_scalars
    (socket_only (Return 0) [(1, FBytes); (2, FRecvRaise WebSocketError)])
    (JStr "job") 120 NoSocket = (Raise WebSocketError, WsCloseCalled).
Proof.
  apply (proj1 (proj2 (proj2 (watch_connect_and_close eq_scalars
           (socket_only (Return 0) [(1, FBytes); (2, FRecvRaise WebSocketError)])
           (JStr "job") 120 NoSocket)))
         0 [(1, FBytes)] 2 WebSocketError []).
  - reflexivity.
  - reflexivity.
  - repeat constructor.
  - repeat constructor.
Defined.

End SocketFacts.

Module TemplateFacts.
Import ToolPool Routers Handlers Pool Template.

(** [load_template] waits for every preload, and preloads on every tool:
    with ["B"] silent it does not come back although ["A"] and ["C"]
    preloaded; and with ["C"] removed from the registry, which keeps its
    tool, it succeeds through ["C"] although no registered backend
    preloaded. *)
Lemma load_template_waits_for_every_preload :
  (fst (load_template one_silent files "swap.json" "image" started) = Hang /\
   preloads one_silent swap_workflow "A" /\
   ~ fails_iff_none_preloads one_silent files "swap.json" started swap_workflow) /\
  ~ fails_iff_none_preloads only_c_up files "swap.json"
      (snd (Routers.remove_server "C" started)) swap_workflow.
Proof.
  assert (Hhang : fst (load_template one_silent files "swap.json" "image" started) = Hang)
    by (vm_compute; reflexivity).
  assert (Ha : preloads one_silent swap_workflow "A")
    by (eexists; vm_compute; reflexivity).
  split; [split; [exact Hhang | split; [exact Ha|]]|].
  - intros [_ Hsome]. destruct Hsome as (results & Hr).
    + exists "A". split; [now left | exact Ha].
    + rewrite Hhang in Hr. discriminate.
  - intros [[_ Hfail] _]. destruct Hfail as (detail & Hd).
    + intros a Hin (info & Hinfo). vm_compute in Hin.
      destruct Hin as [<-|[<-|[]]]; vm_compute in Hinfo; discriminate.
    + vm_compute in Hd. discriminate.
Qed.

End TemplateFacts.
